(** * HordaLAN energy monitoring: the sampling-decode-alert engine of [main.py]

    A shallow embedding of the Modbus register reader ([ModbusReader]), the
    threshold check ([CheckAlerts]) and the polling loop ([Run]) of
    [src/main.py], followed by the properties of the specification that
    concern them.

    Python floats are IEEE-754 binary64 numbers; they are modelled by the
    standard library's [spec_float] with the operations of [SpecFloat] at
    precision 53.  Python dictionaries are finite maps ([gmap]); the
    [registerMap], whose iteration order matters, is an association list. *)

From Stdlib Require Import ZArith List String Ascii Bool Lia.
From Stdlib Require Import Floats.SpecFloat.
From stdpp Require Import gmap strings list fin_maps.

Local Open Scope Z_scope.

(** ** Python floats *)

Module PyFloat.

Definition float : Type := spec_float.

Definition prec : Z := 53.
Definition emax : Z := 1024.

(** The float nearest to an integer (exact below [2^53]). *)
Definition of_Z (n : Z) : float := binary_normalize prec emax n 0 false.

Definition zero : float := S754_zero false.

(** [a - b], [a * b], [a > b], [a < b] on floats. *)
Definition sub (a b : float) : float := SFsub prec emax a b.
Definition mul (a b : float) : float := SFmul prec emax a b.
Definition gtb (a b : float) : bool := SFltb b a.
Definition ltb (a b : float) : bool := SFltb a b.
Definition leb (a b : float) : bool := SFleb a b.

(** [bool(x)]: a float is falsy exactly when it is [0.0] or [-0.0]. *)
Definition truthy (x : float) : bool :=
  match x with
  | S754_zero _ => false
  | _ => true
  end.

(** The value of [struct.unpack(">f", b)[0]] for the 32 bits [bits]: sign in
    bit 31, biased exponent in bits 23..30, fraction in bits 0..22.  Every
    binary32 number is a binary64 number, so the conversion is exact. *)
Definition of_bits32 (bits : Z) : float :=
  let sign := Z.testbit bits 31 in
  let ex := Z.land (Z.shiftr bits 23) 255 in
  let frac := Z.land bits 8388607 in
  if ex =? 255 then
    (if frac =? 0 then S754_infinity sign else S754_nan)
  else if ex =? 0 then
    binary_normalize prec emax (cond_Zopp sign frac) (-149) sign
  else
    binary_normalize prec emax (cond_Zopp sign (8388608 + frac)) (ex - 150) sign.

(** The integer nearest to [n / d] for [0 < d], ties going to the even one. *)
Definition round_half_even (n d : Z) : Z :=
  let q := n / d in
  match (2 * (n mod d)) ?= d with
  | Lt => q
  | Gt => q + 1
  | Eq => if Z.even q then q else q + 1
  end.

(** [round(x, 2)]: CPython prints [x] with two correctly rounded decimals
    (ties to even, on the exact binary value) and reads the decimal back as
    the nearest float.  A float that already is a multiple of [0.01] is
    returned as it is; so are infinities and NaN. *)
Definition round2 (x : float) : float :=
  match x with
  | S754_finite s m e =>
      if 0 <=? e then x
      else
        let d := 2 ^ (- e) in
        let n := 100 * Z.pos m in
        if n mod d =? 0 then x
        else
          let k := round_half_even n d in
          SFdiv prec emax (binary_normalize prec emax (cond_Zopp s k) 0 s) (of_Z 100)
  | _ => x
  end.

End PyFloat.

Export PyFloat(float).

(** ** Python values, exceptions and the state of the program *)

(** A value of a readings row: [None], a float or a string. *)
Inductive pyval :=
| PyNone
| PyFloat (f : float)
| PyStr (s : string).

(** A value of the JSON configuration of a register: a number or a string. *)
Inductive cfgval :=
| CInt (n : Z)
| CStr (s : string).

Definition cfgval_eqb (a b : cfgval) : bool :=
  match a, b with
  | CInt n, CInt m => n =? m
  | CStr s, CStr t => String.eqb s t
  | _, _ => false
  end.

(** The exceptions the modelled code can meet, all subclasses of [Exception]. *)
Inductive exn :=
| KeyError
| IndexError
| TypeError
| ValueError
| OverflowError
| StructError
| ModbusException.

Inductive result (A : Type) :=
| Ok (a : A)
| Raise (e : exn).
Arguments Ok {A} a.
Arguments Raise {A} e.

Definition rbind {A B : Type} (r : result A) (k : A -> result B) : result B :=
  match r with
  | Ok a => k a
  | Raise e => Raise e
  end.

(** One readings row: the dictionary [currentRow]. *)
Abbreviation row := (gmap string pyval).

(** The messages of [CheckAlerts]; each carries the value it prints. *)
Inductive alert :=
| HIGH_VOLTAGE (v : pyval)
| LOW_VOLTAGE (v : pyval)
| HIGH_CURRENT (c : pyval).

Inductive region := InputRegion | HoldingRegion.

(** What a call of [read_input_registers] or [read_holding_registers] does:
    it raises, or returns a falsy response, an error response, or a response
    carrying registers. *)
Inductive reply :=
| ClientRaises
| RespNone
| RespError
| RespOk (registers : list Z).

(** The calls that leave the scheduler, in the order they happen.  [EvReadAscii]
    marks an invocation of [ReadAscii]; [EvStore] is the assignment
    [currentCycleData[tagName] = currentRow] on the dictionary at [loc];
    [EvPublish] is the assignment [latestReadings = currentCycleData]. *)
Inductive event :=
| EvRead (client : string) (rg : region) (address count : cfgval) (deviceId : Z)
| EvSleep (d : float)
| EvReadAscii (client : string) (address : cfgval) (deviceId : Z)
| EvStore (loc : nat) (tagName : string) (r : row)
| EvAppendData (r : row)
| EvCheckAlerts (r : row)
| EvSendEmbed (tagName : string) (alerts : list alert)
| EvPublish (loc : nat).

(** The mutable state.  [script] is the environment: the replies the Modbus
    clients will give to the next calls.  [heap] holds the dictionaries that
    [currentCycleData] and [latestReadings] refer to, [latestReadings] being a
    reference into it, so that two names for one dictionary share its
    mutations. *)
Record state := mkState {
  script : list reply;
  trace : list event;
  lastKnownValues : gmap string string;
  lastReadTime : gmap string float;
  lastAlertTime : gmap string float;
  heap : list (gmap string row);
  latestReadings : nat
}.

Definition initial_state (replies : list reply) : state :=
  {| script := replies; trace := []; lastKnownValues := ∅; lastReadTime := ∅;
     lastAlertTime := ∅; heap := [∅]; latestReadings := 0%nat |}.

(** ** A state and exception monad *)

Definition M (A : Type) : Type := state -> result A * state.

Definition ret {A : Type} (a : A) : M A := fun s => (Ok a, s).

Definition bind {A B : Type} (m : M A) (k : A -> M B) : M B :=
  fun s =>
    match m s with
    | (Ok a, s') => k a s'
    | (Raise e, s') => (Raise e, s')
    end.

Definition raise {A : Type} (e : exn) : M A := fun s => (Raise e, s).

Definition lift {A : Type} (r : result A) : M A := fun s => (r, s).

(** [try: m except Exception: h]. *)
Definition catch {A : Type} (m : M A) (h : M A) : M A :=
  fun s =>
    match m s with
    | (Ok a, s') => (Ok a, s')
    | (Raise _, s') => h s'
    end.

Definition gets {A : Type} (f : state -> A) : M A := fun s => (Ok (f s), s).

Definition modify (f : state -> state) : M unit := fun s => (Ok tt, f s).

Definition emit (e : event) : M unit :=
  modify (fun s => mkState (script s) (trace s ++ [e]) (lastKnownValues s)
                     (lastReadTime s) (lastAlertTime s) (heap s) (latestReadings s)).

Declare Scope py_scope.
Delimit Scope py_scope with py.
Notation "x <- m ;; k" := (bind m (fun x => k))
  (at level 20, m at level 99, k at level 200, only parsing) : py_scope.
Notation "m ;; k" := (bind m (fun _ => k))
  (at level 100, k at level 200, right associativity, only parsing) : py_scope.
Local Open Scope py_scope.

(** ** The Modbus layer: class [ModbusReader] *)

Module Modbus.

Record ModbusReader := mkReader {
  client : string;
  retries : Z;
  delay : float
}.

(** The duration [d] in nanoseconds, as [time.sleep] computes it: the double
    product [d * 1e9]. *)
Definition nanoseconds (d : float) : float :=
  PyFloat.mul d (PyFloat.of_Z 1000000000).

(** [time.sleep(d)].  CPython refuses NaN with [ValueError]; it then turns
    the duration into nanoseconds held in a signed 64-bit integer, and raises
    [OverflowError] unless [-2^63 <= d * 1e9 < 2^63] (so for an infinite
    duration and for one above some 9.22e9 seconds); what is left raises
    [ValueError] when it is negative.  The rounding of the nanoseconds to an
    integer, away from zero, changes neither test. *)
Definition sleep (d : float) : M unit :=
  match d with
  | S754_nan => raise ValueError
  | _ =>
      if PyFloat.leb (PyFloat.of_Z (- 2 ^ 63)) (nanoseconds d) &&
         PyFloat.ltb (nanoseconds d) (PyFloat.of_Z (2 ^ 63))
      then
        if PyFloat.ltb (nanoseconds d) PyFloat.zero then raise ValueError
        else emit (EvSleep d)
      else raise OverflowError
  end.

(** One call of the client: the call is recorded and answered by the next
    reply of the script; a client with nothing left to say raises. *)
Definition client_read (self : ModbusReader) (rg : region)
    (address count : cfgval) (deviceId : Z) : M reply :=
  emit (EvRead (client self) rg address count deviceId) ;;
  fun s =>
    match script s with
    | [] => (Raise ModbusException, s)
    | r :: rest =>
        (match r with ClientRaises => Raise ModbusException | _ => Ok r end,
         mkState rest (trace s) (lastKnownValues s) (lastReadTime s)
           (lastAlertTime s) (heap s) (latestReadings s))
    end.

(** [registers[:count]]: a negative bound counts from the end, a bound that
    is not an integer raises [TypeError]. *)
Definition slice_to (registers : list Z) (count : cfgval) : result (list Z) :=
  match count with
  | CInt n =>
      Ok (if 0 <=? n then take (Z.to_nat n) registers
          else take (Z.to_nat (Z.of_nat (length registers) + n)) registers)
  | CStr _ => Raise TypeError
  end.

(** The body of the [for] loop of [ReadRegisters]: [Some registers] is the
    [return] inside the loop, [None] lets the loop go on. *)
Definition attempt (self : ModbusReader) (address : cfgval) (deviceId : Z)
    (count : cfgval) (registerType : string) : M (option (list Z)) :=
  catch
    (response <- client_read self
                   (if String.eqb registerType "input" then InputRegion else HoldingRegion)
                   address count deviceId ;;
     match response with
     | RespOk registers =>
         regs <- lift (slice_to registers count) ;;
         ret (Some regs)
     | _ => sleep (delay self) ;; ret None
     end)
    (sleep (delay self) ;; ret None).

Fixpoint attempts (n : nat) (self : ModbusReader) (address : cfgval) (deviceId : Z)
    (count : cfgval) (registerType : string) : M (option (list Z)) :=
  match n with
  | O => ret None
  | S n' =>
      r <- attempt self address deviceId count registerType ;;
      match r with
      | Some regs => ret (Some regs)
      | None => attempts n' self address deviceId count registerType
      end
  end.

(** [for _ in range(self.retries)]: a count below one gives no iteration. *)
Definition ReadRegisters (self : ModbusReader) (address : cfgval) (deviceId : Z)
    (count : cfgval) (registerType : string) : M (option (list Z)) :=
  attempts (Z.to_nat (retries self)) self address deviceId count registerType.

(** [registers[i]] for [i] = 0 or 1. *)
Definition index (registers : list Z) (i : nat) : result Z :=
  match registers !! i with
  | Some r => Ok r
  | None => Raise IndexError
  end.

(** [struct.pack(">HH", r0, r1)]: four bytes, each word high byte first; a
    word outside [0..65535] raises [struct.error]. *)
Definition pack_HH (r0 r1 : Z) : result (list Z) :=
  if (0 <=? r0) && (r0 <=? 65535) && (0 <=? r1) && (r1 <=? 65535) then
    Ok [Z.shiftr r0 8; Z.land r0 255; Z.shiftr r1 8; Z.land r1 255]
  else Raise StructError.

(** The 32 bits of four bytes read big-endian. *)
Definition be32 (b : list Z) : Z :=
  fold_left (fun acc x => Z.lor (Z.shiftl acc 8) x) b 0.

(** [struct.unpack(">f", b)[0]]. *)
Definition unpack_f (b : list Z) : float := PyFloat.of_bits32 (be32 b).

(** What [ReadFloat] makes of the result of [ReadRegisters]: [None] and the
    empty list are falsy and give [None]; otherwise [registers[0]] and
    [registers[1]] are packed and unpacked. *)
Definition decode_float (registers : option (list Z)) : result (option float) :=
  match registers with
  | None | Some [] => Ok None
  | Some regs =>
      rbind (index regs 0) (fun r0 =>
      rbind (index regs 1) (fun r1 =>
      rbind (pack_HH r0 r1) (fun b =>
      Ok (Some (PyFloat.round2 (unpack_f b))))))
  end.

Definition ReadFloat (self : ModbusReader) (address : cfgval) (deviceId : Z)
    (length : cfgval) : M (option float) :=
  registers <- ReadRegisters self address deviceId length "input" ;;
  lift (decode_float registers).

(** [rawBytes]: the high byte then the low byte of every register. *)
Definition rawBytes (registers : list Z) : list Z :=
  flat_map (fun reg => [Z.land (Z.shiftr reg 8) 255; Z.land reg 255]) registers.

(** [rstrip(b"\x00")]. *)
Fixpoint rstrip0 (b : list Z) : list Z :=
  match b with
  | [] => []
  | x :: t =>
      match rstrip0 t with
      | [] => if x =? 0 then [] else [x]
      | t' => x :: t'
      end
  end.

(** [decode("ascii", errors="ignore")]: a byte above 127 is dropped. *)
Definition decode_ascii_ignore (b : list Z) : string :=
  string_of_list_ascii
    (map (fun x => ascii_of_N (Z.to_N x)) (filter (fun x => x < 128) b)).

(** What [ReadAscii] makes of the result of [ReadRegisters]: [None] and the
    empty list are falsy and give [None]. *)
Definition decode_text (registers : option (list Z)) : option string :=
  match registers with
  | None | Some [] => None
  | Some regs => Some (decode_ascii_ignore (rstrip0 (rawBytes regs)))
  end.

Definition ReadAscii (self : ModbusReader) (address : cfgval) (deviceId : Z)
    (length : cfgval) : M (option string) :=
  emit (EvReadAscii (client self) address deviceId) ;;
  registers <- ReadRegisters self address deviceId length "holding" ;;
  ret (decode_text registers).

End Modbus.

(** ** The alert engine: [CheckAlerts] *)

Module Alerts.

(** [settings["thresholds"]], each bound already passed through [float]. *)
Record Thresholds := mkThresholds {
  voltage_low : float;
  voltage_high : float;
  current_high : float
}.

(** [bool(v)]: [None], a zero float and the empty string are falsy. *)
Definition truthy (v : pyval) : bool :=
  match v with
  | PyNone => false
  | PyFloat f => PyFloat.truthy f
  | PyStr s => negb (String.eqb s "")
  end.

(** [v > bound] and [v < bound] against a float: only a float can be
    compared, a string or [None] raises [TypeError]. *)
Definition gt (v : pyval) (bound : float) : result bool :=
  match v with
  | PyFloat f => Ok (PyFloat.gtb f bound)
  | _ => Raise TypeError
  end.

Definition lt (v : pyval) (bound : float) : result bool :=
  match v with
  | PyFloat f => Ok (PyFloat.ltb f bound)
  | _ => Raise TypeError
  end.

Definition CheckAlerts (thresholds : Thresholds) (readings : row) : result (list alert) :=
  let voltage := default (PyStr "float") (readings !! "voltage") in
  let current := default (PyStr "float") (readings !! "current") in
  rbind
    (if truthy voltage then
       rbind (gt voltage (voltage_high thresholds)) (fun high =>
         if high then Ok [HIGH_VOLTAGE voltage]
         else
           rbind (lt voltage (voltage_low thresholds)) (fun low =>
             if low then Ok [LOW_VOLTAGE voltage] else Ok []))
     else Ok [])
    (fun alerts =>
       if truthy current then
         rbind (gt current (current_high thresholds)) (fun high =>
           if high then Ok (alerts ++ [HIGH_CURRENT current]) else Ok alerts)
       else Ok alerts).

End Alerts.

(** ** The sampling scheduler: [Run] *)

Module Scheduler.
Import Modbus Alerts.

Record Gateway := mkGateway { ip : string; name : string }.

Record TagInfo := mkTag {
  deviceId : Z;
  tagName : string;
  gatewayName : string
}.

(** The part of [settings] the loop reads.  [registerMap] keeps the order of
    the JSON object; each register is itself a dictionary. *)
Record Settings := mkSettings {
  alertCooldown : float;
  asciiReadInterval : float;
  thresholds : Thresholds;
  gateways : list Gateway;
  modbus_retries : Z;
  modbus_retryDelay : float;
  powertags : list TagInfo;
  registerMap : list (string * gmap string cfgval)
}.

(** [modbusReaders]: one reader per gateway name, a later gateway of the
    same name replacing an earlier one. *)
Definition modbusReaders (st : Settings) : gmap string ModbusReader :=
  fold_left
    (fun readers gw =>
       <[name gw := mkReader (ip gw) (modbus_retries st) (modbus_retryDelay st)]> readers)
    (gateways st) ∅.

(** [d[k]] on a dictionary. *)
Definition getitem {V : Type} (d : gmap string V) (k : string) : result V :=
  match d !! k with
  | Some v => Ok v
  | None => Raise KeyError
  end.

Definition set_ascii_cache (cacheKey val : string) (t : float) (s : state) : state :=
  mkState (script s) (trace s) (<[cacheKey := val]> (lastKnownValues s))
    (<[cacheKey := t]> (lastReadTime s)) (lastAlertTime s) (heap s) (latestReadings s).

Definition set_lastAlertTime (tag : string) (t : float) (s : state) : state :=
  mkState (script s) (trace s) (lastKnownValues s) (lastReadTime s)
    (<[tag := t]> (lastAlertTime s)) (heap s) (latestReadings s).

(** [f"{tagName}_{key}"]. *)
Definition cacheKey (tag key : string) : string :=
  String.append tag (String.append "_" key).

(** The test that guards the refresh of a text register. *)
Definition refresh_due (st : Settings) (cycleStart : float) (key : string) (s : state) : bool :=
  PyFloat.gtb
    (PyFloat.sub cycleStart (default PyFloat.zero (lastReadTime s !! key)))
    (asciiReadInterval st).

(** The [elif regType == "ascii"] branch. *)
Definition read_cached_ascii (st : Settings) (registerReader : ModbusReader)
    (cycleStart : float) (tag : TagInfo) (key : string)
    (config : gmap string cfgval) (regAddr : cfgval) : M pyval :=
  let cacheKey := cacheKey (tagName tag) key in
  due <- gets (refresh_due st cycleStart cacheKey) ;;
  (if due : bool then
     len <- lift (getitem config "length") ;;
     val <- ReadAscii registerReader regAddr (deviceId tag) len ;;
     match val with
     | Some v =>
         if String.eqb v "" then ret tt
         else modify (set_ascii_cache cacheKey v cycleStart)
     | None => ret tt
     end
   else ret tt) ;;
  gets (fun s => PyStr (default "Unknown"%string (lastKnownValues s !! cacheKey))).

(** The body of [for key, config in registerMap.items()], up to the value
    stored under [key]. *)
Definition read_value (st : Settings) (cycleStart : float) (tag : TagInfo)
    (key : string) (config : gmap string cfgval) : M pyval :=
  regAddr <- lift (getitem config "register") ;;
  let regType := default (CStr "float") (config !! "type") in
  let registerLength := default (CStr "int") (config !! "length") in
  registerReader <- lift (getitem (modbusReaders st) (gatewayName tag)) ;;
  if cfgval_eqb regType (CStr "float") then
    val <- ReadFloat registerReader regAddr (deviceId tag) registerLength ;;
    ret (match val with Some f => PyFloat f | None => PyNone end)
  else if cfgval_eqb regType (CStr "ascii") then
    read_cached_ascii st registerReader cycleStart tag key config regAddr
  else ret PyNone.

Fixpoint read_all (st : Settings) (cycleStart : float) (tag : TagInfo)
    (registers : list (string * gmap string cfgval)) (currentRow : row) : M row :=
  match registers with
  | [] => ret currentRow
  | (key, config) :: rest =>
      val <- read_value st cycleStart tag key config ;;
      read_all st cycleStart tag rest (<[key := val]> currentRow)
  end.

(** [currentCycleData = {}]: a fresh dictionary on the heap. *)
Definition alloc : M nat :=
  fun s =>
    (Ok (length (heap s)),
     mkState (script s) (trace s) (lastKnownValues s) (lastReadTime s)
       (lastAlertTime s) (heap s ++ [∅]) (latestReadings s)).

(** [currentCycleData[tagName] = currentRow]. *)
Definition store (loc : nat) (tag : string) (r : row) : M unit :=
  emit (EvStore loc tag r) ;;
  modify (fun s =>
    mkState (script s) (trace s) (lastKnownValues s) (lastReadTime s)
      (lastAlertTime s) (alter (insert tag r) loc (heap s)) (latestReadings s)).

(** [latestReadings = currentCycleData]. *)
Definition publish (loc : nat) : M unit :=
  emit (EvPublish loc) ;;
  modify (fun s =>
    mkState (script s) (trace s) (lastKnownValues s) (lastReadTime s)
      (lastAlertTime s) (heap s) loc).

(** The test that lets the alerts of a tag through. *)
Definition cooldown_over (st : Settings) (cycleStart : float) (tag : string) (s : state) : bool :=
  PyFloat.gtb
    (PyFloat.sub cycleStart (default PyFloat.zero (lastAlertTime s !! tag)))
    (alertCooldown st).

(** Steps 2 and 3 of the body of [for tagInfo in powertags]: the row goes to
    [AppendData], then to [CheckAlerts]; a non-empty list of alerts is sent
    in one [SendEmbed] when the cooldown is over. *)
Definition log_and_alert (st : Settings) (cycleStart : float) (tag : string)
    (currentRow : row) : M unit :=
  emit (EvAppendData currentRow) ;;
  emit (EvCheckAlerts currentRow) ;;
  alerts <- lift (CheckAlerts (thresholds st) currentRow) ;;
  over <- gets (cooldown_over st cycleStart tag) ;;
  match alerts with
  | [] => ret tt
  | _ :: _ =>
      if over : bool then
        emit (EvSendEmbed tag alerts) ;;
        modify (set_lastAlertTime tag cycleStart)
      else ret tt
  end.

(** The body of [for tagInfo in powertags]. *)
Definition process_tag (st : Settings) (cycleStart : float) (currentCycleData : nat)
    (tag : TagInfo) : M unit :=
  currentRow <- read_all st cycleStart tag (registerMap st)
                  (<["Timestamp"%string := PyFloat cycleStart]>
                     {["Tag"%string := PyStr (tagName tag)]}) ;;
  store currentCycleData (tagName tag) currentRow ;;
  log_and_alert st cycleStart (tagName tag) currentRow.

Fixpoint process_tags (st : Settings) (cycleStart : float) (currentCycleData : nat)
    (tags : list TagInfo) : M unit :=
  match tags with
  | [] => ret tt
  | tag :: rest =>
      process_tag st cycleStart currentCycleData tag ;;
      process_tags st cycleStart currentCycleData rest
  end.

(** One turn of [while True] up to the publication, [cycleStart] being what
    [time.time()] gave.  The pacing sleep that ends the turn is
    [Startup.pace]. *)
Definition cycle (st : Settings) (cycleStart : float) : M unit :=
  currentCycleData <- alloc ;;
  process_tags st cycleStart currentCycleData (powertags st) ;;
  publish currentCycleData.

(** The loop, for as many turns as [starts] has clock readings; an exception
    leaves it. *)
Fixpoint cycles (st : Settings) (starts : list float) : M unit :=
  match starts with
  | [] => ret tt
  | cycleStart :: rest => cycle st cycleStart ;; cycles st rest
  end.

(** [try: while True: ... except Exception: logging.error(...)]: the loop
    as far as the scheduler state goes.  The sessions, the pacing and
    [finally: client.close()] are in [Startup.Run]. *)
Definition Run (st : Settings) (starts : list float) : M unit :=
  catch (cycles st starts) (ret tt).

(** [GetPowertags]: the dictionary [latestReadings] refers to. *)
Definition GetPowertags (s : state) : option (gmap string row) :=
  heap s !! latestReadings s.

End Scheduler.

(** ** The decodings and the alert rule in the words of the specification *)

Module Spec.

(** Two 16-bit words as 32 bits, word 0 in the high half. *)
Definition float_bits (word0 word1 : Z) : Z := word0 * 65536 + word1.

Definition high_byte (w : Z) : Z := (w / 256) mod 256.
Definition low_byte (w : Z) : Z := w mod 256.

Fixpoint drop_leading_zeros (b : list Z) : list Z :=
  match b with
  | 0 :: t => drop_leading_zeros t
  | _ => b
  end.

Definition strip_trailing_zeros (b : list Z) : list Z :=
  rev (drop_leading_zeros (rev b)).

(** The text of a list of words: each word's high byte then low byte, the
    trailing zero bytes stripped, the bytes that are not ASCII dropped. *)
Definition text_decode (words : list Z) : string :=
  string_of_list_ascii
    (map (fun x => ascii_of_N (Z.to_N x))
       (filter (fun x => x <= 127)
          (strip_trailing_zeros
             (flat_map (fun w => [high_byte w; low_byte w]) words)))).

(** The alerts of a row whose voltage and current are [voltage] and
    [current], [None] standing for an absent value. *)
Definition expected_alerts (th : Alerts.Thresholds) (voltage current : option float)
    : list alert :=
  match voltage with
  | Some v =>
      if PyFloat.gtb v (Alerts.voltage_high th) then [HIGH_VOLTAGE (PyFloat v)]
      else if PyFloat.ltb v (Alerts.voltage_low th) then [LOW_VOLTAGE (PyFloat v)]
      else []
  | None => []
  end ++
  match current with
  | Some c =>
      if PyFloat.gtb c (Alerts.current_high th) then [HIGH_CURRENT (PyFloat c)] else []
  | None => []
  end.

Definition of_option (v : option float) : pyval :=
  match v with
  | Some f => PyFloat f
  | None => PyNone
  end.

(** The durations [time.sleep] accepts: those whose nanoseconds are not
    negative and fit a signed 64-bit integer, [0 <= d * 1e9 < 2^63]; neither
    NaN nor an infinity is among them. *)
Definition valid_delay (d : float) : bool :=
  PyFloat.leb PyFloat.zero (Modbus.nanoseconds d) &&
  PyFloat.ltb (Modbus.nanoseconds d) (PyFloat.of_Z (2 ^ 63)).

(** The call one attempt of [ReadRegisters] makes. *)
Definition read_event (self : Modbus.ModbusReader) (registerType : string)
    (address count : cfgval) (deviceId : Z) : event :=
  EvRead (Modbus.client self)
    (if String.eqb registerType "input" then InputRegion else HoldingRegion)
    address count deviceId.



(** Two states with the same caches, heap and published reference. *)
Definition same_store (s s' : state) : Prop :=
  lastKnownValues s' = lastKnownValues s /\
  lastReadTime s' = lastReadTime s /\
  lastAlertTime s' = lastAlertTime s /\
  heap s' = heap s /\
  latestReadings s' = latestReadings s.

(** [s'] has the trace of [s] followed by events that all satisfy [P]. *)
Definition extends_by (P : event -> Prop) (s s' : state) : Prop :=
  exists evs, trace s' = trace s ++ evs /\ Forall P evs.

(** The events of the Modbus client: a register read or a delay. *)
Definition wire_event (e : event) : Prop :=
  match e with
  | EvRead _ _ _ _ _ | EvSleep _ => True
  | _ => False
  end.

(** The events of the decode engine: those of the client and the entry
    into [ReadAscii]. *)
Definition io_event (e : event) : Prop :=
  match e with
  | EvRead _ _ _ _ _ | EvSleep _ | EvReadAscii _ _ _ => True
  | _ => False
  end.

(** The events of the decode engine whose register reads all go to the
    region [rg]. *)
Definition reads_from (rg : region) (e : event) : Prop :=
  match e with
  | EvRead _ rg' _ _ _ => rg' = rg
  | EvSleep _ | EvReadAscii _ _ _ => True
  | _ => False
  end.

(** A step of the decode engine: the store is as before and the trace has
    grown by events in [P]. *)
Definition store_step (P : event -> Prop) (s s' : state) : Prop :=
  same_store s s' /\ extends_by P s s'.

(** A step of the sampling of one register: the text cache may change; the
    alert times, the heap and the published reference do not. *)
Definition sampling_step (P : event -> Prop) (s s' : state) : Prop :=
  lastAlertTime s' = lastAlertTime s /\
  heap s' = heap s /\
  latestReadings s' = latestReadings s /\
  extends_by P s s'.

(** [m] only ever takes steps in [R], whether it returns or raises. *)
Definition respects (R : state -> state -> Prop) {A : Type} (m : M A) : Prop :=
  forall s r s', m s = (r, s') -> R s s'.

(** The region a register of encoding [regType] is read from. *)
Definition region_of_encoding (regType : cfgval) : region :=
  if cfgval_eqb regType (CStr "float") then InputRegion else HoldingRegion.

(** The events of [s'] that [s] did not have yet. *)
Definition new_events (s s' : state) : list event :=
  drop (length (trace s)) (trace s').

Fixpoint count_events (p : event -> bool) (evs : list event) : nat :=
  match evs with
  | [] => 0
  | e :: rest => ((if p e then 1 else 0) + count_events p rest)%nat
  end.

Definition is_text_read (e : event) : bool :=
  match e with EvReadAscii _ _ _ => true | _ => false end.

Definition is_send (e : event) : bool :=
  match e with EvSendEmbed _ _ => true | _ => false end.

Definition is_publish (e : event) : bool :=
  match e with EvPublish _ => true | _ => false end.

(** The refresh interval has elapsed at [t] since the recorded time [last],
    a missing time counting as 0. *)
Definition interval_elapsed (st : Scheduler.Settings) (t : float) (last : option float)
    : bool :=
  PyFloat.gtb (PyFloat.sub t (default PyFloat.zero last)) (Scheduler.asciiReadInterval st).

(** The claim on two consecutive reads of the text cache, at [t1] then at
    [t2], as the specification states it: when [t2] is within the refresh
    interval of [t1], the second read triggers no text read and returns
    what the first returned. *)
Definition cached_twice_claim (st : Scheduler.Settings) (rd : Modbus.ModbusReader)
    (tag : Scheduler.TagInfo) (key : string) (config : gmap string cfgval)
    (regAddr : cfgval) (t1 t2 : float) (s0 : state) : Prop :=
  let '(r1, s1) := Scheduler.read_cached_ascii st rd t1 tag key config regAddr s0 in
  let '(r2, s2) := Scheduler.read_cached_ascii st rd t2 tag key config regAddr s1 in
  PyFloat.gtb (PyFloat.sub t2 t1) (Scheduler.asciiReadInterval st) = false ->
  count_events is_text_read (new_events s1 s2) = 0%nat /\ r2 = r1.


(** The claim on the dispatch of alerts, as the specification states it:
    the alerts of a row go out exactly when the tag has no earlier alert or
    its last alert is older than the cooldown. *)
Definition dispatch_claim (st : Scheduler.Settings) (t : float) (tag : string)
    (r : row) (s : state) : Prop :=
  forall alerts,
    Alerts.CheckAlerts (Scheduler.thresholds st) r = Ok alerts -> alerts <> [] ->
    (count_events is_send
       (new_events s (snd (Scheduler.log_and_alert st t tag r s))) = 1%nat <->
     match lastAlertTime s !! tag with
     | None => True
     | Some last =>
         PyFloat.gtb (PyFloat.sub t last) (Scheduler.alertCooldown st) = true
     end).

(** The events that neither write a cycle's dictionary nor publish it. *)
Definition quiet (e : event) : Prop :=
  match e with
  | EvStore _ _ _ | EvPublish _ => False
  | _ => True
  end.

(** A step that leaves the heap and the published reference alone. *)
Definition quiet_step (s s' : state) : Prop :=
  heap s' = heap s /\ latestReadings s' = latestReadings s /\ extends_by quiet s s'.

(** The rows that the stores among [evs] write onto the dictionary [d]. *)
Definition rows_onto (d : gmap string row) (evs : list event) : gmap string row :=
  fold_left
    (fun d e => match e with EvStore _ tag r => <[tag := r]> d | _ => d end) evs d.

(** A step of the loop over the tags of a cycle whose dictionary is at
    [l]: only that dictionary changes, by the stores of the step; nothing
    is published. *)
Definition tags_step (l : nat) (s s' : state) : Prop :=
  latestReadings s' = latestReadings s /\
  length (heap s') = length (heap s) /\
  (forall j, j <> l -> heap s' !! j = heap s !! j) /\
  exists evs,
    trace s' = trace s ++ evs /\
    Forall (fun e => is_publish e = false) evs /\
    forall d, heap s !! l = Some d -> heap s' !! l = Some (rows_onto d evs).

(** The order of the specification: every row assembled, then the
    publication, then the log sink, then the alert engine. *)
Definition claimed_phase (e : event) : nat :=
  match e with
  | EvRead _ _ _ _ _ | EvSleep _ | EvReadAscii _ _ _ | EvStore _ _ _ => 0
  | EvPublish _ => 1
  | EvAppendData _ => 2
  | EvCheckAlerts _ | EvSendEmbed _ _ => 3
  end.

Fixpoint nondecreasing (l : list nat) : bool :=
  match l with
  | a :: (b :: _) as rest => (a <=? b)%nat && nondecreasing rest
  | _ => true
  end.

Definition in_claimed_order (evs : list event) : bool :=
  nondecreasing (map claimed_phase evs).

(** The hand-overs of a cycle, the reads and the notifications left out. *)
Definition is_milestone (e : event) : bool :=
  match e with
  | EvStore _ _ _ | EvAppendData _ | EvCheckAlerts _ | EvPublish _ => true
  | _ => false
  end.

Definition milestones (evs : list event) : list event := List.filter is_milestone evs.

(** What the code does with the row [r] of the tag [tag]. *)
Definition tag_milestones (l : nat) (tr : string * row) : list event :=
  [EvStore l (fst tr) (snd tr); EvAppendData (snd tr); EvCheckAlerts (snd tr)].

(** The states a reader of the snapshot can meet while the loop runs from
    [s] with the clock readings [starts]: [s] itself, the states inside the
    first cycle after any number of tags, and, when that cycle completes,
    the states met from its end on.  The number counts the cycles completed
    on the way. *)
Definition mid_cycle (st : Scheduler.Settings) (t : float) (k : nat) (s : state) : state :=
  snd ((currentCycleData <- Scheduler.alloc ;;
        Scheduler.process_tags st t currentCycleData
          (take k (Scheduler.powertags st))) s).

Inductive observed (st : Scheduler.Settings) : list float -> state -> nat -> state -> Prop :=
| obs_here starts s : observed st starts s 0 s
| obs_mid t rest s k : observed st (t :: rest) s 0 (mid_cycle st t k s)
| obs_next t rest s s1 n s' :
    Scheduler.cycle st t s = (Ok tt, s1) ->
    observed st rest s1 n s' ->
    observed st (t :: rest) s (S n) s'.

(** The mapping from tag names to rows, a later row of the same name
    replacing an earlier one. *)
Definition snapshot_of (rows : list (string * row)) : gmap string row :=
  fold_left (fun d tr => <[fst tr := snd tr]> d) rows ∅.

(** The published reference points into the heap. *)
Definition valid_state (s : state) : Prop :=
  (latestReadings s < length (heap s))%nat.

(** [d] is the complete set of rows of one cycle: some cycle ran to its
    end, stored, logged and checked one row for every tag, in the order of
    the tags, published, and [d] maps the tag names to those rows. *)
Definition rows_of_one_cycle (st : Scheduler.Settings) (d : gmap string row) : Prop :=
  exists (t : float) (sc sp : state) (rows : list row),
    Scheduler.cycle st t sc = (Ok tt, sp) /\
    length rows = length (Scheduler.powertags st) /\
    milestones (new_events sc sp) =
      flat_map (tag_milestones (length (heap sc)))
        (zip (Scheduler.tagName <$> Scheduler.powertags st) rows) ++
      [EvPublish (length (heap sc))] /\
    d = snapshot_of (zip (Scheduler.tagName <$> Scheduler.powertags st) rows).

(** The claim on the order of a cycle, as the specification states it: the
    events of a cycle that runs to its end are in the order of
    [claimed_phase]. *)
Definition order_claim (st : Scheduler.Settings) (t : float) (s : state) : Prop :=
  forall s', Scheduler.cycle st t s = (Ok tt, s') ->
             in_claimed_order (new_events s s') = true.

End Spec.

(** ** Settings used to run the code on concrete inputs *)

Module Example.
Import PyFloat Modbus Alerts Scheduler.
Local Open Scope string_scope.

(** The thresholds of the default settings: 200 V, 250 V and 1 A. *)
Definition thresholds : Thresholds := mkThresholds (of_Z 200) (of_Z 250) (of_Z 1).

Definition reader : ModbusReader := mkReader "192.168.1.10" 3 (of_Z 0).

(** A voltage of 0.0 V and a current of 0.5 A. *)
Definition dead_line : row :=
  <["current" := PyFloat (SFdiv prec emax (of_Z 1) (of_Z 2))]>
    {["voltage" := PyFloat (S754_zero false)]}.

(** A float register and a text register, with the keys the loop reads. *)
Definition voltage_register : gmap string cfgval :=
  <["register" := CInt 10]> (<["type" := CStr "float"]> {["length" := CInt 2]}).

Definition current_register : gmap string cfgval :=
  <["register" := CInt 12]> (<["type" := CStr "float"]> {["length" := CInt 2]}).

Definition name_register : gmap string cfgval :=
  <["register" := CInt 20]> (<["type" := CStr "ascii"]> {["length" := CInt 1]}).

Definition tag1 : TagInfo := mkTag 1 "Tag1" "Gateway1".

(** One gateway, one tag, the two registers of the alert engine; a
    cooldown of 300 s and a refresh interval of 600 s. *)
Definition settings : Settings :=
  mkSettings (of_Z 300) (of_Z 600) thresholds
    [mkGateway "192.168.1.10" "Gateway1"] 3 (of_Z 0)
    [tag1] [("voltage", voltage_register); ("current", current_register)].

(** 260.0 V and no current reading. *)
Definition high_voltage_row : row :=
  <["current" := PyNone]> {["voltage" := PyFloat (of_Z 260)]}.

(** A device that answers 232.0 V and 0.5 A, twice. *)
Definition steady_replies : list reply :=
  [RespOk [17256; 0]; RespOk [16128; 0]; RespOk [17256; 0]; RespOk [16128; 0]].

End Example.

(** ** The CSV storage: [InitStorage] and [AppendData] *)

Module Storage.
Import Scheduler.

(** The file [csvFile]: absent, or its lines, each a list of cells.  A cell is
    the value handed to the CSV writer, before it is printed. *)
Abbreviation file := (option (list (list pyval))).

(** [["Tag", "Timestamp"] + list(registerMap.keys())]. *)
Definition headers (registerMap : list (string * gmap string cfgval)) : list string :=
  "Tag"%string :: "Timestamp"%string :: map fst registerMap.

Definition header_line (registerMap : list (string * gmap string cfgval)) : list pyval :=
  map PyStr (headers registerMap).

(** The header is written only when the file does not exist. *)
Definition InitStorage (registerMap : list (string * gmap string cfgval)) (f : file) : file :=
  match f with
  | None => Some [header_line registerMap]
  | Some lines => Some lines
  end.

(** [DictWriter.writerow]: a key of the row that is no field name raises
    [ValueError]; the cells follow the field names, a missing one being the
    empty string. *)
Definition dict_to_list (fieldnames : list string) (rowDict : row) : result (list pyval) :=
  if forallb (fun k => bool_decide (k ∈ fieldnames)) (map fst (map_to_list rowDict)) then
    Ok (map (fun k => default (PyStr "") (rowDict !! k)) fieldnames)
  else Raise ValueError.

(** [AppendData]: opening the file for appending creates it; the header goes
    in when the file did not exist before; then the row is written. *)
Definition AppendData (registerMap : list (string * gmap string cfgval))
    (rowDict : row) (f : file) : result unit * file :=
  let lines :=
    match f with
    | Some lines => lines
    | None => [header_line registerMap]
    end in
  match dict_to_list (headers registerMap) rowDict with
  | Ok line => (Ok tt, Some (lines ++ [line]))
  | Raise e => (Raise e, Some lines)
  end.

End Storage.

(** ** The Discord notifier: class [PowerTagDiscordNotifier] *)

Module Notifier.

(** What [webhook.execute()] does: it raises, or returns a falsy response, or
    a response with a status code. *)
Inductive hook_reply :=
| HookRaises
| HookNone
| HookStatus (code : Z).

(** A dictionary of [embedData["fields"]]; [None] is a missing key. *)
Record Field := mkField {
  f_name : option string;
  f_value : option string;
  f_inline : option bool
}.

(** The dictionary [embedData]; [None] is a missing key. *)
Record EmbedData := mkEmbedData {
  e_title : option string;
  e_description : option string;
  e_color : option Z;
  e_fields : option (list Field)
}.

(** What is handed to the webhook: the message of [_Initialize], or an embed
    with its title, description, colour and fields. *)
Inductive message :=
| InitMessage
| EmbedMessage (title description : string) (color : Z)
    (fields : list (string * string * bool)).

(** The environment: whether [discord_webhook] can be imported, what the next
    executions will answer, and the messages executed so far. *)
Record world := mkWorld {
  import_ok : bool;
  replies : list hook_reply;
  executed : list message
}.

Record PowerTagDiscordNotifier := mkNotifier {
  webhookUrl : string;
  enabled : bool
}.

(** What the [try] blocks of the notifier can meet: the import fails, the
    colour is refused, a key of a field is missing, the request fails. *)
Inductive failure :=
| ImportError
| ColorNotInRange
| MissingKey
| RequestError.

(** A value, or the exception raised instead. *)
Inductive attempt (A : Type) :=
| Done (a : A)
| Failed (e : failure).
Arguments Done {A} a.
Arguments Failed {A} e.

(** [from discord_webhook import ...]. *)
Definition import (w : world) : attempt unit :=
  if import_ok w then Done tt else Failed ImportError.

(** [webhook.execute()]: the message is recorded and answered by the next
    reply; with no reply left the execution raises. *)
Definition execute (m : message) (w : world) : attempt hook_reply * world :=
  match replies w with
  | [] => (Failed RequestError, mkWorld (import_ok w) [] (executed w ++ [m]))
  | r :: rest =>
      (match r with HookRaises => Failed RequestError | _ => Done r end,
       mkWorld (import_ok w) rest (executed w ++ [m]))
  end.

(** [response and response.status_code == 200]. *)
Definition accepted (r : hook_reply) : bool :=
  match r with
  | HookStatus code => code =? 200
  | _ => false
  end.

(** [__init__] followed by [_Initialize]: without a URL nothing is tried;
    otherwise [enabled] becomes true when the first message is accepted, and
    an exception leaves it false.  The thresholds that the first message
    prints are those of [Alerts.Thresholds], which has them all. *)
Definition Initialize (url : string) (w : world) : PowerTagDiscordNotifier * world :=
  if String.eqb url "" then (mkNotifier url false, w)
  else
    match import w with
    | Failed _ => (mkNotifier url false, w)
    | Done _ =>
        match execute InitMessage w with
        | (Done r, w') => (mkNotifier url (accepted r), w')
        | (Failed _, w') => (mkNotifier url false, w')
        end
    end.

(** The arguments of one [add_embed_field]: [field['name']] and
    [field['value']] raise [KeyError] when missing, [inline] defaults to
    [False]. *)
Definition field_args (f : Field) : attempt (string * string * bool) :=
  match f_name f with
  | None => Failed MissingKey
  | Some n =>
      match f_value f with
      | None => Failed MissingKey
      | Some v => Done (n, v, default false (f_inline f))
      end
  end.

Fixpoint fields_args (fs : list Field) : attempt (list (string * string * bool)) :=
  match fs with
  | [] => Done []
  | f :: rest =>
      match field_args f with
      | Failed e => Failed e
      | Done a =>
          match fields_args rest with
          | Failed e => Failed e
          | Done l => Done (a :: l)
          end
      end
  end.

(** [DiscordEmbed(..., color=c)]: the library keeps a colour within
    [0..16777215] and raises [ColorNotInRangeException] for any other. *)
Definition embed_color (color : Z) : attempt Z :=
  if (0 <=? color) && (color <? 16777216) then Done color
  else Failed ColorNotInRange.

(** The [try] block of [SendEmbed]: the import, the embed with its colour,
    the fields in turn, then the execution of the webhook. *)
Definition send_body (embedData : EmbedData) (w : world) : attempt unit * world :=
  match import w with
  | Failed e => (Failed e, w)
  | Done _ =>
      match embed_color (default 3447003 (e_color embedData)) with
      | Failed e => (Failed e, w)
      | Done color =>
          match fields_args (default [] (e_fields embedData)) with
          | Failed e => (Failed e, w)
          | Done fields =>
              match execute
                      (EmbedMessage (default ""%string (e_title embedData))
                         (default ""%string (e_description embedData))
                         color fields) w with
              | (Done _, w') => (Done tt, w')
              | (Failed e, w') => (Failed e, w')
              end
          end
      end
  end.

(** [SendEmbed]: [Some false] is [return False]; [None] is the end of the
    function, reached after the [try] block or after its [except], which
    catches every exception. *)
Definition SendEmbed (self : PowerTagDiscordNotifier) (embedData : EmbedData)
    (w : world) : attempt (option bool) * world :=
  if negb (enabled self) then (Done (Some false), w)
  else
    match send_body embedData w with
    | (Done _, w') => (Done None, w')
    | (Failed _, w') => (Done None, w')
    end.

End Notifier.

(** ** The start and the end of [Run] *)

Module Startup.
Import Scheduler.

(** The sessions opened and closed, by the address of the gateway. *)
Inductive session_event :=
| Connect (ip : string)
| Close (ip : string).

(** How [Run] stands after the clock readings it was given: it returned
    because a gateway did not connect; it is still in the loop; it left the
    loop on an exception and closed [client]; or it left the loop and found
    [client] unbound, no gateway being configured. *)
Inductive outcome :=
| ConnectionFailed
| Looping
| Stopped
| StoppedUnbound.

(** The [for gateway in gateWays] loop: each client is connected in turn and
    the first that fails makes [Run] return. *)
Fixpoint connect_all (reachable : string -> bool) (gws : list Gateway)
    : list session_event * bool :=
  match gws with
  | [] => ([], true)
  | gw :: rest =>
      if reachable (ip gw) then
        let '(evs, ok) := connect_all reachable rest in (Connect (ip gw) :: evs, ok)
      else ([Connect (ip gw)], false)
  end.

(** [max(0, x)] for a float [x]: [x] when [x > 0], and the integer 0
    otherwise, NaN included. *)
Definition max0 (x : float) : float :=
  if PyFloat.gtb x PyFloat.zero then x else PyFloat.zero.

(** The pacing that ends a turn of the loop, [now] being what [time.time()]
    gave after the cycle: [time.sleep(max(0, pollInterval - elapsed))]. *)
Definition pace (pollInterval cycleStart now : float) : M unit :=
  let elapsed := PyFloat.sub now cycleStart in
  Modbus.sleep (max0 (PyFloat.sub pollInterval elapsed)).

(** The loop [while True], for as many turns as [clock] has pairs of clock
    readings, the first of a pair taken at the start of the turn and the
    second after the cycle; an exception leaves it. *)
Fixpoint turns (st : Settings) (pollInterval : float) (clock : list (float * float))
    : M unit :=
  match clock with
  | [] => ret tt
  | (cycleStart, now) :: rest =>
      cycle st cycleStart ;;
      pace pollInterval cycleStart now ;;
      turns st pollInterval rest
  end.

(** [Run], the storage and the notifier left aside: the sessions, then the
    loop with its pacing, then [except Exception] and
    [finally: client.close()], [client] being the last gateway's client. *)
Definition Run (st : Settings) (reachable : string -> bool) (pollInterval : float)
    (clock : list (float * float)) (s : state) : outcome * list session_event * state :=
  let '(connects, ok) := connect_all reachable (gateways st) in
  if ok then
    match turns st pollInterval clock s with
    | (Ok _, s') => (Looping, connects, s')
    | (Raise _, s') =>
        match last (gateways st) with
        | Some gw => (Stopped, connects ++ [Close (ip gw)], s')
        | None => (StoppedUnbound, connects, s')
        end
    end
  else (ConnectionFailed, connects, s).

End Startup.

(** ** Definitions for the further properties *)

Module Props.

(** The bytes of a text and the words a device holds for them: two bytes to
    a word, the first one high, a last odd byte padded with a zero byte. *)
Definition bytes_of_text (text : string) : list Z :=
  map (fun c => Z.of_N (N_of_ascii c)) (list_ascii_of_string text).

Fixpoint words_of_bytes (b : list Z) : list Z :=
  match b with
  | [] => []
  | [x] => [x * 256]
  | x :: y :: rest => (x * 256 + y) :: words_of_bytes rest
  end.

(** A reading that [if voltage:] or the comparisons let pass without an
    alert: [None], a zero or NaN. *)
Definition silent_reading (v : pyval) : Prop :=
  v = PyNone \/ (exists sign, v = PyFloat (S754_zero sign)) \/ v = PyFloat S754_nan.

(** The text cache holds no empty text, and a time for every text. *)
Definition cache_inv (s : state) : Prop :=
  forall key text,
    lastKnownValues s !! key = Some text ->
    text <> ""%string /\ is_Some (lastReadTime s !! key).

(** A step that keeps the invariant of the text cache. *)
Definition keeps_cache_inv (s s' : state) : Prop := cache_inv s -> cache_inv s'.

(** The lines [AppendData] writes for the rows logged in a trace, in order,
    as long as no row is refused. *)
Fixpoint replay_log (registerMap : list (string * gmap string cfgval))
    (evs : list event) (f : Storage.file) : result unit * Storage.file :=
  match evs with
  | [] => (Ok tt, f)
  | EvAppendData r :: rest =>
      match Storage.AppendData registerMap r f with
      | (Ok _, f') => replay_log registerMap rest f'
      | (Raise e, f') => (Raise e, f')
      end
  | _ :: rest => replay_log registerMap rest f
  end.

(** A reading that cannot be compared with a number: the key is missing, or
    it holds a string that is not empty. *)
Definition not_comparable (readings : row) (key : string) : Prop :=
  readings !! key = None \/
  exists text, text <> ""%string /\ readings !! key = Some (PyStr text).

(** The row a tag starts with: [{"Tag": tagName, "Timestamp": cycleStart}]. *)
Definition initial_row (t : float) (tag : Scheduler.TagInfo) : row :=
  <["Timestamp"%string := PyFloat t]> {["Tag"%string := PyStr (Scheduler.tagName tag)]}.

(** The keys of the row are the columns of the CSV file, all of them. *)
Definition has_columns (registerMap : list (string * gmap string cfgval)) (r : row) : Prop :=
  forall k, is_Some (r !! k) <-> k ∈ Storage.headers registerMap.

(** The rows handed to [AppendData] have the columns of the file. *)
Definition log_event_ok (registerMap : list (string * gmap string cfgval)) (e : event) : Prop :=
  match e with
  | EvAppendData r => has_columns registerMap r
  | _ => True
  end.

Definition is_append (e : event) : bool :=
  match e with EvAppendData _ => true | _ => false end.

(** The last-alert times of [s'] are those of [s], but for names among
    [names], which may have moved to one of [times]. *)
Definition alert_times_moved (names : list string) (times : list float)
    (s s' : state) : Prop :=
  forall n,
    lastAlertTime s' !! n = lastAlertTime s !! n \/
    (n ∈ names /\ exists t, t ∈ times /\ lastAlertTime s' !! n = Some t).

(** The text cache is as it was. *)
Definition cache_same (s s' : state) : Prop :=
  lastKnownValues s' = lastKnownValues s /\ lastReadTime s' = lastReadTime s.

(** The rows handed to [AppendData] in a trace, in order. *)
Fixpoint logged_rows (evs : list event) : list row :=
  match evs with
  | [] => []
  | EvAppendData r :: rest => r :: logged_rows rest
  | _ :: rest => logged_rows rest
  end.

(** The line of a row: the value under each column, in the order of the
    columns. *)
Definition line_of (registerMap : list (string * gmap string cfgval)) (r : row) : list pyval :=
  map (fun k => default (PyStr "") (r !! k)) (Storage.headers registerMap).

End Props.

(** * Properties *)

(** ** Reasoning about the monad *)

Lemma bind_inv {A B : Type} (m : M A) (k : A -> M B) (s : state) r s' :
  bind m k s = (r, s') ->
  (exists a s1, m s = (Ok a, s1) /\ k a s1 = (r, s')) \/
  (exists e, m s = (Raise e, s') /\ r = Raise e).
Proof.
  unfold bind. destruct (m s) as [[a|e] s1]; intros H.
  - left. eauto.
  - right. inversion H; subst. eauto.
Qed.

Lemma bind_ok {A B : Type} (m : M A) (k : A -> M B) (s s1 : state) a :
  m s = (Ok a, s1) -> bind m k s = k a s1.
Proof. unfold bind. intros ->. reflexivity. Qed.

Lemma bind_raise {A B : Type} (m : M A) (k : A -> M B) (s s1 : state) e :
  m s = (Raise e, s1) -> bind m k s = (Raise e, s1).
Proof. unfold bind. intros ->. reflexivity. Qed.

(** ** The alert engine *)

Section CheckAlertsFacts.
Import Alerts.
Variable th : Thresholds.

(** A float is neither above nor below itself: the bounds are exclusive. *)
Lemma gtb_irrefl (x : float) : PyFloat.gtb x x = false.
Proof.
  unfold PyFloat.gtb, SFltb.
  destruct x as [s|s| |s m e]; simpl; try reflexivity.
  - destruct s; reflexivity.
  - destruct s; rewrite Z.compare_refl, Pos.compare_cont_refl; reflexivity.
Qed.

Lemma ltb_irrefl (x : float) : PyFloat.ltb x x = false.
Proof. apply gtb_irrefl. Qed.

(** On a row that holds, under both keys, [None] or a float other than
    zero, [CheckAlerts] returns what the specification says. *)
Lemma CheckAlerts_expected (readings : row) (voltage current : option float) :
  readings !! "voltage"%string = Some (Spec.of_option voltage) ->
  readings !! "current"%string = Some (Spec.of_option current) ->
  (forall v, voltage = Some v -> PyFloat.truthy v = true) ->
  (forall c, current = Some c -> PyFloat.truthy c = true) ->
  CheckAlerts th readings = Ok (Spec.expected_alerts th voltage current).
Proof.
  intros Hv Hc Tv Tc. unfold CheckAlerts, Spec.expected_alerts.
  rewrite Hv, Hc. simpl.
  destruct voltage as [v|], current as [c|]; simpl;
    rewrite ?(Tv _ eq_refl), ?(Tc _ eq_refl); simpl;
    repeat match goal with
           | |- context [if ?b then _ else _] => destruct b; simpl
           end; reflexivity.
Qed.

(** A voltage exactly at a bound raises no voltage alert. *)
Lemma CheckAlerts_at_bounds (readings : row) (v : float) :
  readings !! "voltage"%string = Some (PyFloat v) ->
  readings !! "current"%string = Some PyNone ->
  v = voltage_high th \/ v = voltage_low th ->
  PyFloat.gtb (voltage_low th) (voltage_high th) = false ->
  CheckAlerts th readings = Ok [].
Proof.
  intros Hv Hc Hb Hlh. unfold CheckAlerts. rewrite Hv, Hc. simpl.
  destruct (PyFloat.truthy v); [|reflexivity]. simpl.
  destruct Hb as [-> | ->].
  - rewrite gtb_irrefl. simpl. unfold PyFloat.gtb in Hlh. unfold PyFloat.ltb.
    rewrite Hlh. reflexivity.
  - rewrite Hlh. simpl. rewrite ltb_irrefl. reflexivity.
Qed.

(** A row without the key raises: the default of [readings.get] is the
    string ["float"], which cannot be compared with a number. *)
Lemma CheckAlerts_missing_key (readings : row) :
  readings !! "voltage"%string = None ->
  CheckAlerts th readings = Raise TypeError.
Proof. intros H. unfold CheckAlerts. rewrite H. reflexivity. Qed.

(** A zero voltage is skipped like an absent one, whatever the bounds. *)
Lemma CheckAlerts_zero_voltage (readings : row) (sign : bool) (alerts : list alert) :
  readings !! "voltage"%string = Some (PyFloat (S754_zero sign)) ->
  CheckAlerts th readings = Ok alerts ->
  forall v, LOW_VOLTAGE v ∉ alerts.
Proof.
  intros Hv. unfold CheckAlerts. rewrite Hv. simpl.
  destruct (truthy _); simpl.
  - destruct (gt _ _) as [[|]|]; simpl; intros [= <-] v Hin;
      try discriminate;
      repeat (apply elem_of_cons in Hin as [Hin|Hin]; [discriminate|]);
      by apply elem_of_nil in Hin.
  - intros [= <-] v Hin. by apply elem_of_nil in Hin.
Qed.

End CheckAlertsFacts.

(** C1 (the code departs from it). The claim has a low-voltage alert emitted
    exactly when the voltage is present and strictly below the low threshold.
    On the row [Example.dead_line], whose voltage [0.0] is present and below
    the low threshold of 200, [CheckAlerts] returns no alert: [if voltage:]
    takes the float zero for an absent value. *)
Theorem CheckAlerts_zero_voltage_no_alert :
  Example.dead_line !! "voltage"%string = Some (PyFloat (S754_zero false)) /\
  PyFloat.ltb (S754_zero false) (Alerts.voltage_low Example.thresholds) = true /\
  Alerts.CheckAlerts Example.thresholds Example.dead_line = Ok [].
Proof. repeat split; vm_compute; reflexivity. Qed.

(** ** The register decodings *)

Section DecodeFacts.
Import Modbus.

Lemma lor_shiftl_byte (a x : Z) :
  0 <= a -> 0 <= x < 256 -> Z.lor (Z.shiftl a 8) x = a * 256 + x.
Proof.
  intros Ha Hx. rewrite Z.shiftl_mul_pow2 by lia. change (2 ^ 8) with 256.
  assert (Hdisj : Z.land (a * 256) x = 0).
  { apply Z.bits_inj'. intros n Hn. rewrite Z.land_spec, Z.bits_0.
    destruct (Z.lt_ge_cases n 8) as [Hlt | Hge].
    - change 256 with (2 ^ 8). rewrite Z.mul_pow2_bits_low by lia. reflexivity.
    - rewrite (Z.bits_above_log2 x n); [apply andb_false_r | lia |].
      destruct (Z.eq_dec x 0) as [-> | Hnz]; [simpl; lia |].
      assert (Z.log2 x < 8) by (apply Z.log2_lt_pow2; lia). lia. }
  rewrite <- Z.lxor_lor by exact Hdisj. symmetry.
  apply Z.add_nocarry_lxor. exact Hdisj.
Qed.

Lemma byte_split (w : Z) :
  Z.shiftr w 8 = w / 256 /\ Z.land w 255 = w mod 256.
Proof.
  split.
  - rewrite Z.shiftr_div_pow2 by lia. reflexivity.
  - change 255 with (Z.ones 8). rewrite Z.land_ones by lia. reflexivity.
Qed.

(** The four bytes [struct.pack] makes of two words are, read big-endian,
    word 0 in the high half and word 1 in the low half. *)
Lemma be32_pack (w0 w1 : Z) :
  0 <= w0 <= 65535 -> 0 <= w1 <= 65535 ->
  pack_HH w0 w1 = Ok [Z.shiftr w0 8; Z.land w0 255; Z.shiftr w1 8; Z.land w1 255] /\
  be32 [Z.shiftr w0 8; Z.land w0 255; Z.shiftr w1 8; Z.land w1 255] = Spec.float_bits w0 w1.
Proof.
  intros H0 H1. split.
  - unfold pack_HH.
    replace (0 <=? w0) with true by (symmetry; apply Z.leb_le; lia).
    replace (w0 <=? 65535) with true by (symmetry; apply Z.leb_le; lia).
    replace (0 <=? w1) with true by (symmetry; apply Z.leb_le; lia).
    replace (w1 <=? 65535) with true by (symmetry; apply Z.leb_le; lia).
    reflexivity.
  - unfold be32, Spec.float_bits. cbn [fold_left].
    destruct (byte_split w0) as [-> ->], (byte_split w1) as [-> ->].
    pose proof (Z.div_mod w0 256 ltac:(lia)) as E0.
    pose proof (Z.div_mod w1 256 ltac:(lia)) as E1.
    pose proof (Z.mod_pos_bound w0 256 ltac:(lia)).
    pose proof (Z.mod_pos_bound w1 256 ltac:(lia)).
    assert (0 <= w0 / 256 < 256) by (split; [apply Z.div_pos | apply Z.div_lt_upper_bound]; lia).
    assert (0 <= w1 / 256 < 256) by (split; [apply Z.div_pos | apply Z.div_lt_upper_bound]; lia).
    rewrite (lor_shiftl_byte 0 (w0 / 256)) by lia.
    rewrite (lor_shiftl_byte _ (w0 mod 256)) by lia.
    rewrite (lor_shiftl_byte _ (w1 / 256)) by lia.
    rewrite (lor_shiftl_byte _ (w1 mod 256)) by lia.
    lia.
Qed.

(** A failed read and an empty read give [None]. *)
Lemma decode_float_none : decode_float None = Ok None /\ decode_float (Some []) = Ok None.
Proof. split; reflexivity. Qed.

(** Two words or more: the first two are the bits of a binary32 number,
    word 0 high, and the value is rounded to two decimals. *)
Lemma decode_float_two_words (w0 w1 : Z) (rest : list Z) :
  0 <= w0 <= 65535 -> 0 <= w1 <= 65535 ->
  decode_float (Some (w0 :: w1 :: rest)) =
    Ok (Some (PyFloat.round2 (PyFloat.of_bits32 (Spec.float_bits w0 w1)))).
Proof.
  intros H0 H1. destruct (be32_pack w0 w1 H0 H1) as [Hp Hb].
  unfold decode_float. cbn [index lookup list_lookup rbind].
  rewrite Hp. cbn [rbind]. unfold unpack_f. rewrite Hb. reflexivity.
Qed.

(** A single word: [registers[1]] raises. *)
Lemma decode_float_one_word (w : Z) : decode_float (Some [w]) = Raise IndexError.
Proof. reflexivity. Qed.

(** [ReadFloat] is the read followed by the decoding. *)
Lemma ReadFloat_decode self address deviceId len s r s1 :
  ReadRegisters self address deviceId len "input" s = (Ok r, s1) ->
  ReadFloat self address deviceId len s = (decode_float r, s1).
Proof. intros H. unfold ReadFloat. rewrite (bind_ok _ _ _ _ _ H). reflexivity. Qed.

(** 232.0 V, as the words [0x4368; 0x0000]; 23.56, from the nearest binary32
    number [0x41BC7AE1]; 0.12 from 0.125, the tie going to the even digit. *)
Example decode_float_examples :
  decode_float (Some [17256; 0]) = Ok (Some (PyFloat.of_Z 232)) /\
  decode_float (Some [16828; 31457]) =
    Ok (Some (SFdiv PyFloat.prec PyFloat.emax (PyFloat.of_Z 2356) (PyFloat.of_Z 100))) /\
  decode_float (Some [15872; 0]) =
    Ok (Some (SFdiv PyFloat.prec PyFloat.emax (PyFloat.of_Z 12) (PyFloat.of_Z 100))).
Proof. repeat split; vm_compute; reflexivity. Qed.

End DecodeFacts.

(** C2 (the code departs from it). The claim has the float read return [None]
    whenever fewer than two words came back, without raising.  A register
    declared with a length of one word gives a list of one word, which is not
    falsy, and [registers[1]] raises [IndexError]. *)
Theorem ReadFloat_one_word_raises :
  Modbus.decode_float (Some [17256]) = Raise IndexError /\
  fst (Modbus.ReadFloat Example.reader (CInt 10) 1 (CInt 1)
         (initial_state [RespOk [17256; 0]])) = Raise IndexError.
Proof. split; vm_compute; reflexivity. Qed.

Section TextFacts.
Import Modbus.

Lemma rawBytes_bytes (regs : list Z) :
  rawBytes regs = flat_map (fun w => [Spec.high_byte w; Spec.low_byte w]) regs.
Proof.
  unfold rawBytes. induction regs as [|w regs IH]; [reflexivity|].
  cbn [flat_map]. rewrite IH. unfold Spec.high_byte, Spec.low_byte.
  destruct (byte_split w) as [Hs Hl]. rewrite Hl, Hs.
  destruct (byte_split (w / 256)) as [_ Hh]. rewrite Hh. reflexivity.
Qed.

Lemma drop_leading_zeros_snoc (l : list Z) (x : Z) :
  Spec.drop_leading_zeros (l ++ [x]) =
    match Spec.drop_leading_zeros l with
    | [] => if x =? 0 then [] else [x]
    | l' => l' ++ [x]
    end.
Proof.
  induction l as [|a l IH].
  - destruct x; reflexivity.
  - destruct a; try reflexivity. cbn [app Spec.drop_leading_zeros]. exact IH.
Qed.

(** [rstrip] removes the zero bytes at the end and nothing else. *)
Lemma rstrip0_strip (b : list Z) : rstrip0 b = Spec.strip_trailing_zeros b.
Proof.
  unfold Spec.strip_trailing_zeros. induction b as [|x t IH]; [reflexivity|].
  cbn [rstrip0 rev]. rewrite drop_leading_zeros_snoc, IH.
  destruct (Spec.drop_leading_zeros (rev t)) as [|y l'].
  - cbn [rev]. destruct (x =? 0); reflexivity.
  - rewrite rev_app_distr. cbn [rev app].
    destruct (rev l' ++ [y]) eqn:E; [|reflexivity].
    apply app_eq_nil in E as [_ E]. discriminate.
Qed.

Lemma rstrip0_zeros (b : list Z) : Forall (fun x => x = 0) b -> rstrip0 b = [].
Proof.
  induction 1 as [|x t Hx _ IH]; [reflexivity|].
  cbn [rstrip0]. rewrite IH, Hx. reflexivity.
Qed.

Lemma rawBytes_zeros (regs : list Z) :
  Forall (fun w => w = 0) regs -> Forall (fun x => x = 0) (rawBytes regs).
Proof.
  induction 1 as [|w t Hw _ IH]; [constructor|].
  unfold rawBytes. cbn [flat_map]. subst w. repeat constructor. exact IH.
Qed.

(** The decoding of the code is the decoding of the specification. *)
Lemma decode_text_spec (regs : list Z) :
  decode_ascii_ignore (rstrip0 (rawBytes regs)) = Spec.text_decode regs.
Proof.
  unfold decode_ascii_ignore, Spec.text_decode.
  rewrite rstrip0_strip, rawBytes_bytes.
  f_equal. f_equal. apply list_filter_iff. intros x. lia.
Qed.

Lemma decode_text_words (regs : list Z) :
  regs <> [] -> decode_text (Some regs) = Some (Spec.text_decode regs).
Proof.
  intros Hne. destruct regs as [|w t]; [congruence|].
  unfold decode_text. rewrite decode_text_spec. reflexivity.
Qed.

Lemma text_decode_zeros (regs : list Z) :
  Forall (fun w => w = 0) regs -> Spec.text_decode regs = ""%string.
Proof.
  intros Hz. rewrite <- decode_text_spec.
  rewrite (rstrip0_zeros _ (rawBytes_zeros _ Hz)). reflexivity.
Qed.

(** A zero byte inside the text stays, a byte above 127 goes. *)
Example decode_text_examples :
  decode_text (Some [16706; 17152; 0]) = Some "ABC"%string /\
  decode_text (Some [16835; 66]) =
    Some (String "A" (String Ascii.zero (String "B" EmptyString))) /\
  decode_text (Some [0; 0]) = Some ""%string /\
  decode_text (Some []) = None.
Proof. repeat split; vm_compute; reflexivity. Qed.

End TextFacts.

(** C9. When the read that [ReadAscii] performs returns at least one word,
    [ReadAscii] returns, without raising, the text the specification
    describes: high byte then low byte of each word, trailing zero bytes
    stripped, bytes that are not ASCII dropped.  Words that are all zero give
    the empty string, not [None] and not ["Unknown"]. *)
Theorem ReadAscii_text_decode (self : Modbus.ModbusReader) (address : cfgval)
    (deviceId : Z) (len : cfgval) (s s1 : state) (regs : list Z) :
  regs <> [] ->
  (emit (EvReadAscii (Modbus.client self) address deviceId) ;;
   Modbus.ReadRegisters self address deviceId len "holding") s = (Ok (Some regs), s1) ->
  Modbus.ReadAscii self address deviceId len s = (Ok (Some (Spec.text_decode regs)), s1) /\
  (Forall (fun w => w = 0) regs ->
   Modbus.ReadAscii self address deviceId len s = (Ok (Some ""%string), s1)).
Proof.
  intros Hne Hread.
  assert (E : Modbus.ReadAscii self address deviceId len s =
              (Ok (Some (Spec.text_decode regs)), s1)).
  { unfold Modbus.ReadAscii. revert Hread. unfold bind, emit, modify.
    destruct (Modbus.ReadRegisters _ _ _ _ _ _) as [[r|e] s2]; intros [= -> ->].
    unfold ret. rewrite (decode_text_words _ Hne). reflexivity. }
  split; [exact E|]. intros Hz. rewrite E, (text_decode_zeros _ Hz). reflexivity.
Qed.

Lemma ReadAscii_text_decode_witness :
  [16706; 17152; 0] <> [] /\
  Modbus.ReadAscii Example.reader (CInt 20) 1 (CInt 3)
    (initial_state [RespOk [16706; 17152; 0]]) =
  (Ok (Some "ABC"%string),
   snd (Modbus.ReadAscii Example.reader (CInt 20) 1 (CInt 3)
          (initial_state [RespOk [16706; 17152; 0]]))).
Proof.
  split; [discriminate|].
  exact (proj1 (ReadAscii_text_decode Example.reader (CInt 20) 1 (CInt 3)
                  (initial_state [RespOk [16706; 17152; 0]]) _ [16706; 17152; 0]
                  ltac:(discriminate) eq_refl)).
Defined.

(** ** Steps that stay within a relation *)

Section Respects.
Import Spec.
Context (R : relation state) `{!PreOrder R}.

Lemma respects_ret {A : Type} (a : A) : respects R (ret a).
Proof. intros s r s' [= <- <-]. reflexivity. Qed.

Lemma respects_raise {A : Type} (e : exn) : respects R (@raise A e).
Proof. intros s r s' [= <- <-]. reflexivity. Qed.

Lemma respects_lift {A : Type} (x : result A) : respects R (lift x).
Proof. intros s r s' [= <- <-]. reflexivity. Qed.

Lemma respects_gets {A : Type} (f : state -> A) : respects R (gets f).
Proof. intros s r s' [= <- <-]. reflexivity. Qed.

Lemma respects_modify (f : state -> state) :
  (forall s, R s (f s)) -> respects R (modify f).
Proof. intros H s r s' [= <- <-]. apply H. Qed.

Lemma respects_bind {A B : Type} (m : M A) (k : A -> M B) :
  respects R m -> (forall a, respects R (k a)) -> respects R (bind m k).
Proof.
  intros Hm Hk s r s' H.
  apply bind_inv in H as [(a & s1 & H1 & H2) | (e & H1 & _)].
  - transitivity s1; [eapply Hm | eapply Hk]; eassumption.
  - eapply Hm; eassumption.
Qed.

Lemma respects_catch {A : Type} (m h : M A) :
  respects R m -> respects R h -> respects R (catch m h).
Proof.
  intros Hm Hh s r s'. unfold catch.
  destruct (m s) as [[a|e] s1] eqn:E.
  - intros [= <- <-]. eapply Hm; eassumption.
  - intros H. transitivity s1; [eapply Hm | eapply Hh]; eassumption.
Qed.

End Respects.

Section StepRelations.
Import Spec.

Lemma extends_by_refl (P : event -> Prop) (s : state) : extends_by P s s.
Proof. exists []. split; [symmetry; apply app_nil_r | constructor]. Qed.

Lemma extends_by_trans (P : event -> Prop) (s1 s2 s3 : state) :
  extends_by P s1 s2 -> extends_by P s2 s3 -> extends_by P s1 s3.
Proof.
  intros (e1 & H1 & F1) (e2 & H2 & F2). exists (e1 ++ e2). split.
  - rewrite H2, H1. symmetry. apply app_assoc.
  - apply Forall_app. split; assumption.
Qed.

Lemma extends_by_weaken (P Q : event -> Prop) (s s' : state) :
  (forall e, P e -> Q e) -> extends_by P s s' -> extends_by Q s s'.
Proof.
  intros HPQ (evs & H & F). exists evs. split; [exact H|].
  eapply Forall_impl; eauto.
Qed.

Lemma same_store_refl (s : state) : same_store s s.
Proof. repeat split. Qed.

Lemma same_store_trans (s1 s2 s3 : state) :
  same_store s1 s2 -> same_store s2 s3 -> same_store s1 s3.
Proof.
  unfold same_store. intros (a1 & b1 & c1 & d1 & e1) (a2 & b2 & c2 & d2 & e2).
  repeat split; congruence.
Qed.

#[global] Instance store_step_preorder (P : event -> Prop) : PreOrder (store_step P).
Proof.
  split.
  - intros s. split; [apply same_store_refl | apply extends_by_refl].
  - intros s1 s2 s3 [A1 B1] [A2 B2].
    split; [eapply same_store_trans | eapply extends_by_trans]; eassumption.
Qed.

#[global] Instance sampling_step_preorder (P : event -> Prop) :
  PreOrder (sampling_step P).
Proof.
  split.
  - intros s. repeat split. apply extends_by_refl.
  - intros s1 s2 s3 (a1 & b1 & c1 & E1) (a2 & b2 & c2 & E2).
    repeat split; try congruence. eapply extends_by_trans; eassumption.
Qed.

Lemma store_step_sampling (P : event -> Prop) (s s' : state) :
  store_step P s s' -> sampling_step P s s'.
Proof. intros [(_ & _ & a & b & c) E]. repeat split; assumption. Qed.

Lemma respects_weaken (R R' : relation state) {A : Type} (m : M A) :
  (forall s s', R s s' -> R' s s') -> respects R m -> respects R' m.
Proof. intros HR Hm s r s' H. apply HR. eapply Hm. eassumption. Qed.

Lemma respects_emit (R : relation state) (e : event) :
  (forall s, R s (mkState (script s) (trace s ++ [e]) (lastKnownValues s)
                    (lastReadTime s) (lastAlertTime s) (heap s) (latestReadings s))) ->
  respects R (emit e).
Proof. intros H. unfold emit. apply respects_modify. exact H. Qed.

Lemma store_step_emit (P : event -> Prop) (e : event) (s : state) :
  P e ->
  store_step P s (mkState (script s) (trace s ++ [e]) (lastKnownValues s)
                    (lastReadTime s) (lastAlertTime s) (heap s) (latestReadings s)).
Proof.
  intros He. split; [repeat split|]. exists [e]. split; [reflexivity|].
  constructor; [exact He | constructor].
Qed.

End StepRelations.

(** ** The durations [time.sleep] accepts *)

Section SleepFacts.
Import Modbus Spec.

(** A number of nanoseconds that is not negative is above [-2^63]. *)
Lemma nonneg_in_range (x : float) :
  PyFloat.leb PyFloat.zero x = true ->
  PyFloat.leb (PyFloat.of_Z (- 2 ^ 63)) x = true /\ PyFloat.ltb x PyFloat.zero = false.
Proof.
  destruct x as [[|]|[|]| |[|] m e]; intros H; try discriminate H; split; reflexivity.
Qed.

(** A number that is not below zero, and is a number, is zero or above. *)
Lemma not_negative_nonneg (x : float) :
  PyFloat.leb (PyFloat.of_Z (- 2 ^ 63)) x = true ->
  PyFloat.ltb x PyFloat.zero = false ->
  PyFloat.leb PyFloat.zero x = true.
Proof.
  destruct x as [[|]|[|]| |[|] m e]; intros H1 H2;
    try discriminate H1; try discriminate H2; reflexivity.
Qed.

Lemma valid_delay_not_nan : valid_delay S754_nan = false.
Proof. reflexivity. Qed.

(** An accepted duration: the sleep happens. *)
Lemma sleep_accepts (d : float) :
  valid_delay d = true -> sleep d = emit (EvSleep d).
Proof.
  intros H. destruct d as [b|b| |b m e]; try (rewrite valid_delay_not_nan in H; discriminate H);
    unfold sleep; unfold valid_delay in H; apply andb_prop in H as [H0 H1];
    destruct (nonneg_in_range _ H0) as [Hmin Hneg]; rewrite Hmin, H1, Hneg; reflexivity.
Qed.

(** A refused duration: [ValueError] or [OverflowError], and nothing done. *)
Lemma sleep_refuses (d : float) :
  valid_delay d = false ->
  exists e, (e = ValueError \/ e = OverflowError) /\ sleep d = raise e.
Proof.
  intros H.
  assert (Hgen : d <> S754_nan ->
            exists e, (e = ValueError \/ e = OverflowError) /\
              (if PyFloat.leb (PyFloat.of_Z (- 2 ^ 63)) (nanoseconds d) &&
                  PyFloat.ltb (nanoseconds d) (PyFloat.of_Z (2 ^ 63))
               then if PyFloat.ltb (nanoseconds d) PyFloat.zero then raise ValueError
                    else emit (EvSleep d)
               else raise OverflowError) = @raise unit e).
  { intros _. unfold valid_delay in H.
    destruct (PyFloat.leb (PyFloat.of_Z (- 2 ^ 63)) (nanoseconds d)) eqn:Hmin;
      cbn [andb]; [|eauto].
    destruct (PyFloat.ltb (nanoseconds d) (PyFloat.of_Z (2 ^ 63))) eqn:Hmax; [|eauto].
    destruct (PyFloat.ltb (nanoseconds d) PyFloat.zero) eqn:Hneg; [eauto|].
    rewrite (not_negative_nonneg _ Hmin Hneg) in H. discriminate H. }
  destruct d as [b|b| |b m e]; try (apply Hgen; discriminate).
  exists ValueError. split; [left; reflexivity | reflexivity].
Qed.

(** Whatever the duration, the sleep leaves the script of the device alone. *)
Lemma sleep_script (d : float) (s : state) r (s' : state) :
  sleep d s = (r, s') -> script s' = script s.
Proof.
  destruct (valid_delay d) eqn:Hd.
  - rewrite (sleep_accepts d Hd). intros [= <- <-]. reflexivity.
  - destruct (sleep_refuses d Hd) as (e & _ & ->). intros [= <- <-]. reflexivity.
Qed.

End SleepFacts.

(** ** The retry policy of [ReadRegisters] *)

Section RetryFacts.
Import Modbus Spec.
Variable self : ModbusReader.
Variables (address count : cfgval) (deviceId : Z) (registerType : string).

Section Frame.
Variable P : event -> Prop.
Hypothesis P_read : P (read_event self registerType address count deviceId).
Hypothesis P_sleep : forall d, P (EvSleep d).

Lemma sleep_step : respects (store_step P) (sleep (delay self)).
Proof.
  unfold sleep.
  assert (Hgen : respects (store_step P)
                   (if PyFloat.leb (PyFloat.of_Z (- 2 ^ 63)) (nanoseconds (delay self)) &&
                       PyFloat.ltb (nanoseconds (delay self)) (PyFloat.of_Z (2 ^ 63))
                    then
                      if PyFloat.ltb (nanoseconds (delay self)) PyFloat.zero
                      then raise ValueError else emit (EvSleep (delay self))
                    else raise OverflowError)).
  { destruct (_ && _); [|apply (respects_raise (store_step P))].
    destruct (PyFloat.ltb _ _); [apply (respects_raise (store_step P))|].
    apply respects_emit. intros s. apply store_step_emit. apply P_sleep. }
  destruct (delay self) as [b|b| |b m e]; try exact Hgen.
  apply (respects_raise (store_step P)).
Qed.

Lemma client_read_step :
  respects (store_step P)
    (client_read self
       (if String.eqb registerType "input" then InputRegion else HoldingRegion)
       address count deviceId).
Proof.
  unfold client_read. apply (respects_bind (store_step P)).
  - apply respects_emit. intros s. apply store_step_emit. exact P_read.
  - intros _ s r s'. destruct (script s) as [|x rest].
    + intros [= <- <-]. reflexivity.
    + intros [= <- <-]. split; [repeat split|].
      exists []. split; [symmetry; apply app_nil_r | constructor].
Qed.

Lemma attempt_step :
  respects (store_step P) (attempt self address deviceId count registerType).
Proof.
  unfold attempt. apply (respects_catch (store_step P)).
  - apply (respects_bind (store_step P)); [apply client_read_step|].
    intros [| | |registers];
      try (apply (respects_bind (store_step P));
           [apply sleep_step | intros; apply (respects_ret (store_step P))]).
    apply (respects_bind (store_step P)); [apply (respects_lift (store_step P))|].
    intros; apply (respects_ret (store_step P)).
  - apply (respects_bind (store_step P));
      [apply sleep_step | intros; apply (respects_ret (store_step P))].
Qed.

(** The read touches nothing but the client: whether it returns or raises,
    the caches, the heap and the published reference are as before, and
    the trace has grown by its register reads and delays only. *)
Lemma ReadRegisters_step :
  respects (store_step P) (ReadRegisters self address deviceId count registerType).
Proof.
  unfold ReadRegisters.
  induction (Z.to_nat (retries self)) as [|n IH]; cbn [attempts].
  - apply (respects_ret (store_step P)).
  - apply (respects_bind (store_step P)); [apply attempt_step|].
    intros [regs|]; [apply (respects_ret (store_step P)) | exact IH].
Qed.

End Frame.

Hypothesis delay_ok : valid_delay (delay self) = true.




End RetryFacts.




(** ** What the decode engine and the sampling of a register touch *)

Section SamplingFrames.
Import Modbus Scheduler Spec.
Variable P : event -> Prop.
Hypothesis P_sleep : forall d, P (EvSleep d).

Lemma ReadFloat_step self address deviceId len :
  P (read_event self "input" address len deviceId) ->
  respects (store_step P) (ReadFloat self address deviceId len).
Proof.
  intros HP. unfold ReadFloat. apply (respects_bind (store_step P)).
  - apply ReadRegisters_step; assumption.
  - intros r. apply (respects_lift (store_step P)).
Qed.

Lemma ReadAscii_step self address deviceId len :
  P (EvReadAscii (client self) address deviceId) ->
  P (read_event self "holding" address len deviceId) ->
  respects (store_step P) (ReadAscii self address deviceId len).
Proof.
  intros HA HP. unfold ReadAscii. apply (respects_bind (store_step P)).
  - apply respects_emit. intros s. apply store_step_emit. exact HA.
  - intros _. apply (respects_bind (store_step P)).
    + apply ReadRegisters_step; assumption.
    + intros r. apply (respects_ret (store_step P)).
Qed.

Lemma set_ascii_cache_step key v t s : sampling_step P s (set_ascii_cache key v t s).
Proof.
  repeat split. exists []. split; [symmetry; apply app_nil_r | constructor].
Qed.

Lemma read_cached_ascii_step st rd t tag key config regAddr :
  (forall len, P (EvReadAscii (client rd) regAddr (deviceId tag)) /\
               P (read_event rd "holding" regAddr len (deviceId tag))) ->
  respects (sampling_step P) (read_cached_ascii st rd t tag key config regAddr).
Proof.
  intros HP. unfold read_cached_ascii.
  apply (respects_bind (sampling_step P)); [apply (respects_gets (sampling_step P))|].
  intros due. apply (respects_bind (sampling_step P));
    [|intros; apply (respects_gets (sampling_step P))].
  destruct due; [|apply (respects_ret (sampling_step P))].
  apply (respects_bind (sampling_step P)); [apply (respects_lift (sampling_step P))|].
  intros len. apply (respects_bind (sampling_step P)).
  - apply (respects_weaken (store_step P)); [apply store_step_sampling|].
    destruct (HP len) as [HA HR]. apply ReadAscii_step; assumption.
  - intros [v|]; [|apply (respects_ret (sampling_step P))].
    destruct (String.eqb v ""); [apply (respects_ret (sampling_step P))|].
    apply respects_modify. intros s. apply set_ascii_cache_step.
Qed.

End SamplingFrames.

Section RegionFacts.
Import Modbus Scheduler Spec.

Lemma reads_from_io rg e : reads_from rg e -> io_event e.
Proof. destruct e; simpl; tauto. Qed.

Lemma io_quiet e : io_event e -> quiet e.
Proof. destruct e; simpl; tauto. Qed.

(** The reads of one register all go to the region of its encoding. *)
Lemma read_value_region st t tag key config :
  respects
    (sampling_step (reads_from (region_of_encoding (default (CStr "float") (config !! "type"%string)))))
    (read_value st t tag key config).
Proof.
  unfold read_value.
  set (regType := default (CStr "float") (config !! "type"%string)).
  set (R := sampling_step (reads_from (region_of_encoding regType))).
  apply (respects_bind R); [apply (respects_lift R)|]. intros regAddr.
  apply (respects_bind R); [apply (respects_lift R)|]. intros rd.
  unfold R, region_of_encoding.
  destruct (cfgval_eqb regType (CStr "float")) eqn:Ef.
  - apply (respects_bind (sampling_step (reads_from InputRegion)));
      [|intros; apply (respects_ret (sampling_step (reads_from InputRegion)))].
    apply (respects_weaken (store_step (reads_from InputRegion)));
      [apply store_step_sampling|].
    apply ReadFloat_step; [intros; exact I | reflexivity].
  - destruct (cfgval_eqb regType (CStr "ascii")).
    + apply read_cached_ascii_step; [intros; exact I|].
      intros len. split; [exact I | reflexivity].
    + apply (respects_ret (sampling_step (reads_from HoldingRegion))).
Qed.

Lemma read_value_io st t tag key config :
  respects (sampling_step io_event) (read_value st t tag key config).
Proof.
  eapply respects_weaken; [|apply read_value_region].
  intros s s' (a & b & c & E). repeat split; try assumption.
  eapply extends_by_weaken; [|exact E]. intros e. apply reads_from_io.
Qed.

(** The value read for a register depends on its configuration through the
    keys ["register"], ["type"] and ["length"] only. *)
Lemma read_value_config st t tag key (config config' : gmap string cfgval) :
  config' !! "register"%string = config !! "register"%string ->
  config' !! "type"%string = config !! "type"%string ->
  config' !! "length"%string = config !! "length"%string ->
  read_value st t tag key config' = read_value st t tag key config.
Proof.
  intros Hr Ht Hl. unfold read_value, read_cached_ascii, getitem.
  rewrite Hr, Ht, Hl. reflexivity.
Qed.

End RegionFacts.

(** ** The text cache *)

Section CacheFacts.
Import Modbus Scheduler Spec.
Variables (st : Settings) (rd : ModbusReader) (tag : TagInfo) (key : string).
Variables (config : gmap string cfgval) (regAddr len : cfgval).
Hypothesis config_length : config !! "length"%string = Some len.

Lemma new_events_app (s s' : state) (evs : list event) :
  trace s' = trace s ++ evs -> new_events s s' = evs.
Proof. intros H. unfold new_events. rewrite H. apply drop_app_length. Qed.

Lemma count_events_app (p : event -> bool) (l1 l2 : list event) :
  count_events p (l1 ++ l2) = (count_events p l1 + count_events p l2)%nat.
Proof. induction l1 as [|e l1 IH]; cbn; [reflexivity|]. rewrite IH. lia. Qed.

Lemma count_events_none (p : event -> bool) (evs : list event) :
  Forall (fun e => p e = false) evs -> count_events p evs = 0%nat.
Proof. induction 1 as [|e l He _ IH]; cbn; [reflexivity|]. rewrite He, IH. reflexivity. Qed.

(** Not due: the cached text, or ["Unknown"], and not a step taken. *)
Lemma read_cached_ascii_skip (t : float) (s : state) :
  refresh_due st t (cacheKey (tagName tag) key) s = false ->
  read_cached_ascii st rd t tag key config regAddr s =
    (Ok (PyStr (default "Unknown"%string
                  (lastKnownValues s !! cacheKey (tagName tag) key))), s).
Proof.
  intros H. unfold read_cached_ascii, bind, gets. rewrite H. reflexivity.
Qed.

(** Due: one call of [ReadAscii]; the cache takes its text when it is not
    empty. *)
Lemma read_cached_ascii_refresh (t : float) (s : state) r (s1 : state) :
  refresh_due st t (cacheKey (tagName tag) key) s = true ->
  ReadAscii rd regAddr (deviceId tag) len s = (r, s1) ->
  read_cached_ascii st rd t tag key config regAddr s =
    match r with
    | Raise e => (Raise e, s1)
    | Ok (Some v) =>
        if String.eqb v "" then
          (Ok (PyStr (default "Unknown"%string
                        (lastKnownValues s1 !! cacheKey (tagName tag) key))), s1)
        else (Ok (PyStr v), set_ascii_cache (cacheKey (tagName tag) key) v t s1)
    | Ok None =>
        (Ok (PyStr (default "Unknown"%string
                      (lastKnownValues s1 !! cacheKey (tagName tag) key))), s1)
    end.
Proof.
  intros Hdue Hread. unfold read_cached_ascii, bind, gets, lift, getitem.
  rewrite Hdue, config_length, Hread.
  destruct r as [[v|]|e]; try reflexivity.
  destruct (String.eqb v ""); [reflexivity|].
  unfold modify, set_ascii_cache. cbn [lastKnownValues].
  rewrite lookup_insert_eq. reflexivity.
Qed.

(** Whether it returns or raises, [ReadAscii] has entered once and then only
    used the client; the caches are as before. *)
Lemma ReadAscii_frame (s : state) r (s1 : state) :
  ReadAscii rd regAddr (deviceId tag) len s = (r, s1) ->
  same_store s s1 /\
  exists evs,
    trace s1 = trace s ++ EvReadAscii (client rd) regAddr (deviceId tag) :: evs /\
    Forall wire_event evs.
Proof.
  unfold ReadAscii, bind, emit, modify.
  match goal with
  | |- context [ReadRegisters ?a ?b ?c ?d ?e ?s0] => set (s0' := s0)
  end.
  destruct (ReadRegisters rd regAddr (deviceId tag) len "holding" s0') as [r0 s2] eqn:Hr.
  pose proof (ReadRegisters_step rd regAddr len (deviceId tag) "holding" wire_event
                I (fun _ => I) _ _ _ Hr) as [Hsame (evs & Ht & Hev)].
  assert (Hgoal : same_store s s2 /\
            exists evs0,
              trace s2 = trace s ++ EvReadAscii (client rd) regAddr (deviceId tag) :: evs0 /\
              Forall wire_event evs0).
  { split; [exact Hsame|]. exists evs. split; [|exact Hev].
    rewrite Ht. unfold s0'. cbn [trace]. rewrite <- app_assoc. reflexivity. }
  destruct r0 as [r0|e]; intros [= <- <-]; exact Hgoal.
Qed.

Hypothesis delay_ok : valid_delay (delay rd) = true.


Lemma wire_not_text_read (evs : list event) :
  Forall wire_event evs -> count_events is_text_read evs = 0%nat.
Proof.
  intros H. apply count_events_none. eapply Forall_impl; [exact H|].
  intros [] He; simpl in *; tauto.
Qed.

End CacheFacts.

(** ** The region a register is read from *)

Section FirstReadFacts.
Import Modbus Scheduler Spec.

Lemma sleep_trace (d : float) (s : state) r (s' : state) :
  sleep d s = (r, s') -> exists evs, trace s' = trace s ++ evs.
Proof.
  destruct (valid_delay d) eqn:Hd.
  - rewrite (sleep_accepts d Hd). intros [= <- <-]. exists [EvSleep d]. reflexivity.
  - destruct (sleep_refuses d Hd) as (e & _ & ->). intros [= <- <-].
    exists []. symmetry. apply app_nil_r.
Qed.

Lemma client_read_trace (self : ModbusReader) (rg : region) (address count : cfgval)
    (deviceId : Z) (s : state) r (s' : state) :
  client_read self rg address count deviceId s = (r, s') ->
  trace s' = trace s ++ [EvRead (client self) rg address count deviceId].
Proof.
  unfold client_read, bind, emit, modify. cbn [script trace].
  destruct (script s) as [|x rest]; intros [= <- <-]; reflexivity.
Qed.

(** Whatever comes of it, an attempt starts with one call of the client, in
    the region, at the address and for the count it was asked. *)
Lemma attempt_first_event (self : ModbusReader) (address count : cfgval) (deviceId : Z)
    (registerType : string) (s : state) r (s' : state) :
  attempt self address deviceId count registerType s = (r, s') ->
  exists evs,
    trace s' = trace s ++ read_event self registerType address count deviceId :: evs.
Proof.
  set (ev := read_event self registerType address count deviceId).
  pose (h := (sleep (delay self) ;; ret None) : M (option (list Z))).
  assert (Hsleep : forall (s0 : state) evs0 x s2,
            trace s0 = trace s ++ ev :: evs0 ->
            h s0 = (x, s2) ->
            exists evs, trace s2 = trace s ++ ev :: evs).
  { intros s0 evs0 x s2 Hs0 H. unfold h, bind, ret in H.
    destruct (sleep (delay self) s0) as [[[]|e] s3] eqn:Es;
      apply sleep_trace in Es as (evs & Hevs); injection H as <- <-;
      exists (evs0 ++ evs); rewrite Hevs, Hs0, <- app_assoc; reflexivity. }
  unfold attempt, catch. fold h.
  destruct (client_read self
              (if String.eqb registerType "input" then InputRegion else HoldingRegion)
              address count deviceId s) as [[resp|e] s0] eqn:Ec;
    pose proof (client_read_trace _ _ _ _ _ _ _ _ Ec) as Ht0;
    change (trace s0 = trace s ++ [ev]) in Ht0.
  - rewrite (bind_ok _ _ _ _ _ Ec).
    assert (Hfail : forall x s2,
              match h s0 with
              | (Ok a, s3) => (Ok a, s3)
              | (Raise _, s3) => h s3
              end = (x, s2) ->
              exists evs, trace s2 = trace s ++ ev :: evs).
    { intros x s2.
      destruct (h s0) as [[a|e] s3] eqn:E1;
        apply (Hsleep s0 [] _ _ Ht0) in E1 as (evs1 & Hevs1).
      - intros [= <- <-]. exists evs1. exact Hevs1.
      - intros H. apply (Hsleep s3 evs1 _ _ Hevs1) in H. exact H. }
    destruct resp as [| | |registers]; try apply Hfail.
    unfold bind at 1. cbn [lift].
    destruct (slice_to registers count) as [regs|e]; cbn [ret].
    + intros [= <- <-]. exists []. exact Ht0.
    + intros H. apply (Hsleep s0 [] _ _ Ht0) in H. exact H.
  - rewrite (bind_raise _ _ _ _ _ Ec). intros H.
    apply (Hsleep s0 [] _ _ Ht0) in H. exact H.
Qed.

Lemma attempts_trace (self : ModbusReader) (address count : cfgval) (deviceId : Z)
    (registerType : string) (n : nat) (s : state) r (s' : state) :
  attempts n self address deviceId count registerType s = (r, s') ->
  exists evs, trace s' = trace s ++ evs.
Proof.
  intros H.
  pose proof (ReadRegisters_step self address count deviceId registerType (fun _ => True)
                I (fun _ => I)) as Hstep.
  assert (Hn : respects (store_step (fun _ => True))
                 (attempts n self address deviceId count registerType)).
  { clear H. induction n as [|n IH]; cbn [attempts].
    - apply (respects_ret (store_step (fun _ => True))).
    - apply (respects_bind (store_step (fun _ => True)));
        [apply attempt_step; [exact I | intros; exact I]|].
      intros [regs|]; [apply (respects_ret (store_step (fun _ => True))) | exact IH]. }
  apply Hn in H as [_ (evs & Ht & _)]. exists evs. exact Ht.
Qed.

(** With at least one retry, the read starts with a call of the client. *)
Lemma ReadRegisters_first_event (self : ModbusReader) (address count : cfgval)
    (deviceId : Z) (registerType : string) (s : state) r (s' : state) :
  0 < retries self ->
  ReadRegisters self address deviceId count registerType s = (r, s') ->
  exists evs,
    trace s' = trace s ++ read_event self registerType address count deviceId :: evs.
Proof.
  intros Hr. unfold ReadRegisters.
  destruct (Z.to_nat (retries self)) as [|n] eqn:En; [lia|]. cbn [attempts].
  intros H. apply bind_inv in H as [(a & s1 & Ha & H) | (e & Ha & _)].
  - apply attempt_first_event in Ha as (evs & Hevs). destruct a as [regs|].
    + injection H as <- <-. exists evs. exact Hevs.
    + apply attempts_trace in H as (evs' & Hevs'). exists (evs ++ evs').
      rewrite Hevs', Hevs, <- app_assoc. reflexivity.
  - apply attempt_first_event in Ha. exact Ha.
Qed.

(** The first thing the sampling of a float register does is to ask the
    input region for its words. *)
Lemma read_value_float_first st t tag key config regAddr rd (s : state) :
  config !! "register"%string = Some regAddr ->
  modbusReaders st !! gatewayName tag = Some rd ->
  0 < retries rd ->
  default (CStr "float") (config !! "type"%string) = CStr "float" ->
  exists evs,
    new_events s (snd (read_value st t tag key config s)) =
      EvRead (client rd) InputRegion regAddr
        (default (CStr "int") (config !! "length"%string)) (deviceId tag) :: evs.
Proof.
  intros Hreg Hrd Hr Hty. unfold read_value, getitem. rewrite Hreg, Hrd, Hty.
  cbn [cfgval_eqb String.eqb Ascii.eqb Bool.eqb].
  unfold bind at 1. cbn [lift]. unfold bind at 1. cbn [lift].
  unfold ReadFloat. unfold bind at 1. unfold bind at 1.
  destruct (ReadRegisters rd regAddr (deviceId tag) _ "input" s) as [r s1] eqn:E.
  apply (ReadRegisters_first_event rd _ _ _ _ _ _ _ Hr) in E as (evs & Hevs).
  exists evs. apply new_events_app.
  destruct r as [regs|e]; cbn [lift]; [|exact Hevs].
  destruct (decode_float regs); exact Hevs.
Qed.

(** The first thing a due refresh of a text register does is to enter
    [ReadAscii] and ask the holding region for its words. *)
Lemma read_value_text_first st t tag key config regAddr len rd (s : state) :
  config !! "register"%string = Some regAddr ->
  modbusReaders st !! gatewayName tag = Some rd ->
  0 < retries rd ->
  default (CStr "float") (config !! "type"%string) = CStr "ascii" ->
  config !! "length"%string = Some len ->
  refresh_due st t (cacheKey (tagName tag) key) s = true ->
  exists evs,
    new_events s (snd (read_value st t tag key config s)) =
      EvReadAscii (client rd) regAddr (deviceId tag) ::
      EvRead (client rd) HoldingRegion regAddr len (deviceId tag) :: evs.
Proof.
  intros Hreg Hrd Hr Hty Hlen Hdue. unfold read_value, getitem. rewrite Hreg, Hrd, Hty.
  cbn [cfgval_eqb String.eqb Ascii.eqb Bool.eqb].
  unfold bind at 1. cbn [lift]. unfold bind at 1. cbn [lift].
  destruct (ReadAscii rd regAddr (deviceId tag) len s) as [ra s1] eqn:Hread.
  rewrite (read_cached_ascii_refresh st rd tag key config regAddr len Hlen t s ra s1
             Hdue Hread).
  assert (Ht : exists evs,
            trace s1 = trace s ++
              EvReadAscii (client rd) regAddr (deviceId tag) ::
              EvRead (client rd) HoldingRegion regAddr len (deviceId tag) :: evs).
  { revert Hread. unfold ReadAscii. unfold bind at 1. unfold emit, modify.
    unfold bind at 1.
    match goal with
    | |- context [ReadRegisters ?a ?b ?c ?d ?e ?s0] =>
        destruct (ReadRegisters a b c d e s0) as [r0 s2] eqn:E
    end.
    apply (ReadRegisters_first_event rd _ _ _ _ _ _ _ Hr) in E as (evs & Hevs).
    cbn [trace] in Hevs. rewrite <- app_assoc in Hevs.
    destruct r0 as [regs|e]; intros [= <- <-]; exists evs; exact Hevs. }
  destruct Ht as (evs & Ht). exists evs. apply new_events_app.
  destruct ra as [[text|]|e]; cbn [snd]; try exact Ht.
  destruct (String.eqb text ""); cbn [snd]; exact Ht.
Qed.

End FirstReadFacts.

(** C10. A register whose encoding is float is read from the input region
    and one whose encoding is ascii from the holding region.  With a reader
    that has at least one retry, the sampling of a float register starts by
    asking the input region for the words at the register's address, and a
    due refresh of a text register starts by asking the holding region for
    them; and every register read made for a register, the retries included,
    is in the region of its encoding.  What the configuration says under any
    other key than ["register"], ["type"] and ["length"], a region kind
    among them, changes nothing: two configurations that agree on these
    three keys are read alike. *)
Theorem region_fixed_by_encoding (st : Scheduler.Settings) (cycleStart : float)
    (tag : Scheduler.TagInfo) (key : string) (config config' : gmap string cfgval)
    (s : state) :
  config' !! "register"%string = config !! "register"%string ->
  config' !! "type"%string = config !! "type"%string ->
  config' !! "length"%string = config !! "length"%string ->
  Scheduler.read_value st cycleStart tag key config' s =
    Scheduler.read_value st cycleStart tag key config s /\
  Spec.extends_by
    (Spec.reads_from
       (Spec.region_of_encoding (default (CStr "float") (config !! "type"%string))))
    s (snd (Scheduler.read_value st cycleStart tag key config s)) /\
  (forall (regAddr : cfgval) (rd : Modbus.ModbusReader),
     config !! "register"%string = Some regAddr ->
     Scheduler.modbusReaders st !! Scheduler.gatewayName tag = Some rd ->
     0 < Modbus.retries rd ->
     (default (CStr "float") (config !! "type"%string) = CStr "float" ->
      exists evs,
        Spec.new_events s (snd (Scheduler.read_value st cycleStart tag key config' s)) =
          EvRead (Modbus.client rd) InputRegion regAddr
            (default (CStr "int") (config !! "length"%string)) (Scheduler.deviceId tag)
          :: evs) /\
     (default (CStr "float") (config !! "type"%string) = CStr "ascii" ->
      forall len,
        config !! "length"%string = Some len ->
        Scheduler.refresh_due st cycleStart
          (Scheduler.cacheKey (Scheduler.tagName tag) key) s = true ->
        exists evs,
          Spec.new_events s (snd (Scheduler.read_value st cycleStart tag key config' s)) =
            EvReadAscii (Modbus.client rd) regAddr (Scheduler.deviceId tag) ::
            EvRead (Modbus.client rd) HoldingRegion regAddr len (Scheduler.deviceId tag)
            :: evs)).
Proof.
  intros Hr Ht Hl.
  pose proof (read_value_config st cycleStart tag key config config' Hr Ht Hl) as Hsame.
  split; [rewrite Hsame; reflexivity|]. split.
  - destruct (Scheduler.read_value st cycleStart tag key config s) as [r s'] eqn:E.
    apply (read_value_region st cycleStart tag key config) in E.
    destruct E as (_ & _ & _ & E). exact E.
  - intros regAddr rd Hreg Hrd Hretries. rewrite Hsame. split.
    + intros Hty. apply read_value_float_first; assumption.
    + intros Hty len Hlen Hdue. apply read_value_text_first; assumption.
Qed.

Lemma region_fixed_by_encoding_witness :
  exists evs,
    Spec.new_events (initial_state [RespOk [17256; 0]])
      (snd (Scheduler.read_value Example.settings (PyFloat.of_Z 1000) Example.tag1 "voltage"
              (<["region"%string := CStr "holding"]> Example.voltage_register)
              (initial_state [RespOk [17256; 0]]))) =
    EvRead "192.168.1.10" InputRegion (CInt 10) (CInt 2) 1 :: evs.
Proof.
  destruct (region_fixed_by_encoding Example.settings (PyFloat.of_Z 1000) Example.tag1
              "voltage" Example.voltage_register
              (<["region"%string := CStr "holding"]> Example.voltage_register)
              (initial_state [RespOk [17256; 0]]))
    as (_ & _ & Hfirst); try reflexivity.
  assert (Hreg : Example.voltage_register !! "register"%string = Some (CInt 10))
    by reflexivity.
  assert (Hrd : Scheduler.modbusReaders Example.settings
                  !! Scheduler.gatewayName Example.tag1 = Some Example.reader)
    by reflexivity.
  assert (Hretries : 0 < Modbus.retries Example.reader) by reflexivity.
  destruct (Hfirst (CInt 10) Example.reader Hreg Hrd Hretries) as [Hfloat _].
  apply Hfloat. reflexivity.
Defined.

(** C5 (as the code has it). For a text register whose configuration gives a
    length, a read of the text cache at [t] calls [ReadAscii] exactly once
    when [t] minus the time recorded under the cache key, taken as 0 when
    there is none, is greater than the refresh interval, and not at all
    otherwise, in which case nothing changes.  The time is recorded only by a
    read whose [ReadAscii] gave a text that is not empty, and then it is [t];
    a refresh that gave [None] or the empty text, or that raised, leaves the
    recorded times as they were.  After a read that recorded its time, a
    read at any [t2] that is not more than the interval after [t] calls
    nothing and returns the same text. *)
Theorem ascii_cache_refresh_rule (st : Scheduler.Settings) (rd : Modbus.ModbusReader)
    (tag : Scheduler.TagInfo) (key : string) (config : gmap string cfgval)
    (regAddr len : cfgval) (t : float) (s : state) :
  config !! "length"%string = Some len ->
  exists (r : result pyval) (s' : state) (ra : result (option string)) (s1 : state),
    Scheduler.read_cached_ascii st rd t tag key config regAddr s = (r, s') /\
    Modbus.ReadAscii rd regAddr (Scheduler.deviceId tag) len s = (ra, s1) /\
    Spec.count_events Spec.is_text_read (Spec.new_events s s') =
      (if Spec.interval_elapsed st t
          (lastReadTime s !! Scheduler.cacheKey (Scheduler.tagName tag) key)
       then 1%nat else 0%nat) /\
    (Spec.interval_elapsed st t
          (lastReadTime s !! Scheduler.cacheKey (Scheduler.tagName tag) key) = false ->
     s' = s /\
     r = Ok (PyStr (default "Unknown"%string
                      (lastKnownValues s !! Scheduler.cacheKey (Scheduler.tagName tag) key)))) /\
    (Spec.interval_elapsed st t
          (lastReadTime s !! Scheduler.cacheKey (Scheduler.tagName tag) key) = true ->
     match ra with
     | Ok (Some text) =>
         if String.eqb text "" then
           lastReadTime s' = lastReadTime s /\
           r = Ok (PyStr (default "Unknown"%string
                            (lastKnownValues s !! Scheduler.cacheKey (Scheduler.tagName tag) key)))
         else
           lastReadTime s' =
             <[Scheduler.cacheKey (Scheduler.tagName tag) key := t]> (lastReadTime s) /\
           r = Ok (PyStr text) /\
           forall t2,
             PyFloat.gtb (PyFloat.sub t2 t) (Scheduler.asciiReadInterval st) = false ->
             Scheduler.read_cached_ascii st rd t2 tag key config regAddr s' =
               (Ok (PyStr text), s')
     | Ok None =>
         lastReadTime s' = lastReadTime s /\
         r = Ok (PyStr (default "Unknown"%string
                          (lastKnownValues s !! Scheduler.cacheKey (Scheduler.tagName tag) key)))
     | Raise e => lastReadTime s' = lastReadTime s /\ r = Raise e
     end).
Proof.
  intros Hlen.
  set (ck := Scheduler.cacheKey (Scheduler.tagName tag) key).
  change (Spec.interval_elapsed st t (lastReadTime s !! ck))
    with (Scheduler.refresh_due st t ck s).
  destruct (Modbus.ReadAscii rd regAddr (Scheduler.deviceId tag) len s) as [ra s1] eqn:Hread.
  destruct (ReadAscii_frame rd tag regAddr len s ra s1 Hread)
    as ((Hkv & Hrt & _) & evs & Htrace & Hwire).
  destruct (Scheduler.refresh_due st t ck s) eqn:Hdue.
  - pose proof (read_cached_ascii_refresh st rd tag key config regAddr len Hlen
                  t s ra s1 Hdue Hread) as Hrun.
    fold ck in Hrun.
    assert (Hcount : forall s', trace s' = trace s1 ->
              Spec.count_events Spec.is_text_read (Spec.new_events s s') = 1%nat).
    { intros s' Hs'. rewrite (new_events_app s s' _ (eq_trans Hs' Htrace)).
      cbn. rewrite (wire_not_text_read _ Hwire). reflexivity. }
    destruct ra as [[text|]|e].
    + destruct (String.eqb text "") eqn:Hempty.
      * exists (Ok (PyStr (default "Unknown"%string (lastKnownValues s1 !! ck)))), s1,
          (Ok (Some text)), s1.
        split; [exact Hrun|]. split; [reflexivity|].
        split; [apply Hcount; reflexivity|]. split; [discriminate|].
        intros _. rewrite Hempty, Hkv. split; [exact Hrt | reflexivity].
      * exists (Ok (PyStr text)), (Scheduler.set_ascii_cache ck text t s1),
          (Ok (Some text)), s1.
        split; [exact Hrun|]. split; [reflexivity|].
        split; [apply Hcount; reflexivity|]. split; [discriminate|].
        intros _. rewrite Hempty.
        split; [unfold Scheduler.set_ascii_cache; cbn [lastReadTime]; rewrite Hrt; reflexivity|].
        split; [reflexivity|]. intros t2 Ht2.
        rewrite read_cached_ascii_skip.
        -- unfold Scheduler.set_ascii_cache. cbn [lastKnownValues].
           fold ck. rewrite lookup_insert_eq. reflexivity.
        -- unfold Scheduler.refresh_due, Scheduler.set_ascii_cache. cbn [lastReadTime].
           fold ck. rewrite lookup_insert_eq. exact Ht2.
    + exists (Ok (PyStr (default "Unknown"%string (lastKnownValues s1 !! ck)))), s1,
        (Ok None), s1.
      split; [exact Hrun|]. split; [reflexivity|].
      split; [apply Hcount; reflexivity|]. split; [discriminate|].
      intros _. rewrite Hkv. split; [exact Hrt | reflexivity].
    + exists (Raise e), s1, (Raise e), s1.
      split; [exact Hrun|]. split; [reflexivity|].
      split; [apply Hcount; reflexivity|]. split; [discriminate|].
      intros _. split; [exact Hrt | reflexivity].
  - eexists _, s, ra, s1.
    split; [apply read_cached_ascii_skip; exact Hdue|]. split; [reflexivity|].
    split; [unfold Spec.new_events; rewrite drop_all; reflexivity|].
    split; [intros _; split; reflexivity | discriminate].
Qed.

Lemma ascii_cache_refresh_rule_witness :
  Example.name_register !! "length"%string = Some (CInt 1) /\
  exists (r : result pyval) (s' : state),
    Scheduler.read_cached_ascii Example.settings Example.reader (PyFloat.of_Z 1000)
      Example.tag1 "name" Example.name_register (CInt 20)
      (initial_state [RespError; RespError; RespError]) = (r, s') /\
    Spec.count_events Spec.is_text_read
      (Spec.new_events (initial_state [RespError; RespError; RespError]) s') = 1%nat /\
    lastReadTime s' = ∅.
Proof.
  split; [reflexivity|].
  destruct (ascii_cache_refresh_rule Example.settings Example.reader Example.tag1 "name"
              Example.name_register (CInt 20) (CInt 1) (PyFloat.of_Z 1000)
              (initial_state [RespError; RespError; RespError]) eq_refl)
    as (r & s' & ra & s1 & Hrun & Hread & Hcount & _ & Hdue).
  exists r, s'. split; [exact Hrun|]. split; [exact Hcount|].
  assert (Hra : ra = Ok None).
  { apply (f_equal fst) in Hread. vm_compute in Hread. symmetry. exact Hread. }
  rewrite Hra in Hdue. destruct (Hdue eq_refl) as [Ht _]. exact Ht.
Defined.

(** C5, as the specification states it, fails: the first read, at 1000 s,
    finds the device failing three times and returns ["Unknown"] without
    recording a time; the second, 100 s later and so within the interval of
    600 s, calls [ReadAscii] again and returns ["AB"]. *)
Lemma ascii_cache_rereads_after_failure :
  ~ Spec.cached_twice_claim Example.settings Example.reader Example.tag1 "name"
      Example.name_register (CInt 20) (PyFloat.of_Z 1000) (PyFloat.of_Z 1100)
      (initial_state [RespError; RespError; RespError; RespOk [16706]]).
Proof.
  unfold Spec.cached_twice_claim.
  set (p1 := Scheduler.read_cached_ascii _ _ (PyFloat.of_Z 1000) _ _ _ _ _).
  rewrite (surjective_pairing p1).
  set (p2 := Scheduler.read_cached_ascii _ _ (PyFloat.of_Z 1100) _ _ _ _ _).
  rewrite (surjective_pairing p2).
  intros H.
  assert (Hwithin : PyFloat.gtb (PyFloat.sub (PyFloat.of_Z 1100) (PyFloat.of_Z 1000))
                      (Scheduler.asciiReadInterval Example.settings) = false)
    by (vm_compute; reflexivity).
  destruct (H Hwithin) as [Hcount _].
  assert (Hone : Spec.count_events Spec.is_text_read
                   (Spec.new_events (snd p1) (snd p2)) = 1%nat)
    by (vm_compute; reflexivity).
  rewrite Hone in Hcount. discriminate Hcount.
Qed.




(** ** The dispatch of alerts *)

Section DispatchFacts.
Import Alerts Scheduler Spec.
Variables (st : Settings) (tag : string) (r : row).

Lemma log_and_alert_sends (alerts : list alert) (t : float) (s : state) :
  CheckAlerts (thresholds st) r = Ok alerts -> alerts <> [] ->
  cooldown_over st t tag s = true ->
  exists s',
    log_and_alert st t tag r s = (Ok tt, s') /\
    trace s' = trace s ++ [EvAppendData r; EvCheckAlerts r; EvSendEmbed tag alerts] /\
    lastAlertTime s' = <[tag := t]> (lastAlertTime s).
Proof.
  intros Hc Hne Hover.
  unfold log_and_alert, bind, emit, modify, lift, gets, cooldown_over in *.
  cbn [lastAlertTime]. rewrite Hc, Hover.
  destruct alerts as [|a rest]; [congruence|].
  eexists. split; [reflexivity|]. cbn [trace lastAlertTime set_lastAlertTime].
  split; [|reflexivity]. rewrite <- !app_assoc. reflexivity.
Qed.

Lemma log_and_alert_silent (alerts : list alert) (t : float) (s : state) :
  CheckAlerts (thresholds st) r = Ok alerts ->
  alerts = [] \/ cooldown_over st t tag s = false ->
  exists s',
    log_and_alert st t tag r s = (Ok tt, s') /\
    trace s' = trace s ++ [EvAppendData r; EvCheckAlerts r] /\
    lastAlertTime s' = lastAlertTime s.
Proof.
  intros Hc Hsil.
  unfold log_and_alert, bind, emit, modify, lift, gets, cooldown_over in *.
  cbn [lastAlertTime]. rewrite Hc.
  assert (Ht : forall s0 : state,
            (trace s0 ++ [EvAppendData r]) ++ [EvCheckAlerts r] =
            trace s0 ++ [EvAppendData r; EvCheckAlerts r])
    by (intros; rewrite <- app_assoc; reflexivity).
  destruct alerts as [|a rest].
  - eexists. split; [reflexivity|]. cbn [trace lastAlertTime]. split; [apply Ht | reflexivity].
  - destruct Hsil as [Hnil | Hover]; [discriminate|]. rewrite Hover.
    eexists. split; [reflexivity|]. cbn [trace lastAlertTime]. split; [apply Ht | reflexivity].
Qed.

(** Whatever the alerts, a row that [CheckAlerts] accepts is logged, then
    checked, then possibly sent; the heap is not touched. *)
Lemma log_and_alert_ok (t : float) (s s' : state) :
  log_and_alert st t tag r s = (Ok tt, s') ->
  heap s' = heap s /\ latestReadings s' = latestReadings s /\
  exists sends,
    trace s' = trace s ++ [EvAppendData r; EvCheckAlerts r] ++ sends /\
    Forall (fun e => is_send e = true) sends.
Proof.
  unfold log_and_alert, bind, emit, modify, lift, gets, ret.
  destruct (CheckAlerts (thresholds st) r) as [alerts|e]; [|discriminate].
  destruct alerts as [|a rest].
  - intros [= <-]. cbn. repeat split. exists []. split; [|constructor].
    rewrite <- app_assoc. reflexivity.
  - destruct (cooldown_over _ _ _ _).
    + intros [= <-]. cbn. repeat split. eexists [_]. split.
      * rewrite <- !app_assoc. reflexivity.
      * repeat constructor.
    + intros [= <-]. cbn. repeat split. exists []. split; [|constructor].
      rewrite <- app_assoc. reflexivity.
Qed.

(** Also when [CheckAlerts] raises, nothing is stored or published. *)
Lemma log_and_alert_quiet (t : float) :
  respects quiet_step (log_and_alert st t tag r).
Proof.
  intros s res s'.
  unfold log_and_alert, bind, emit, modify, lift, gets, ret.
  assert (Hq : forall evs s0, Forall quiet evs ->
            quiet_step s (mkState (script s) (trace s ++ evs) (lastKnownValues s)
                            (lastReadTime s) s0 (heap s) (latestReadings s))).
  { intros evs s0 Hev. repeat split. exists evs. split; [reflexivity | exact Hev]. }
  destruct (CheckAlerts (thresholds st) r) as [alerts|e].
  - destruct alerts as [|a rest]; [|destruct (cooldown_over _ _ _ _)];
      intros [= <- <-]; cbn; rewrite <- ?app_assoc; apply Hq; repeat constructor.
  - intros [= <- <-]. cbn. rewrite <- ?app_assoc. apply Hq. repeat constructor.
Qed.

End DispatchFacts.

(** C8 (as the code has it). The alerts of a row, when there are any, are
    sent if and only if the cycle time minus the time of the tag's last
    alert, taken as 0 when it has none, is greater than the cooldown; they go
    out together in one [SendEmbed], and the tag's last-alert time becomes the
    cycle time.  After a cycle that sent, a cycle within the cooldown sends
    nothing and one after the cooldown sends again. *)
Theorem alerts_dispatched_after_cooldown (st : Scheduler.Settings) (t : float)
    (tag : string) (r : row) (alerts : list alert) (s : state) :
  Alerts.CheckAlerts (Scheduler.thresholds st) r = Ok alerts ->
  alerts <> [] ->
  exists s' : state,
    Scheduler.log_and_alert st t tag r s = (Ok tt, s') /\
    (Scheduler.cooldown_over st t tag s = true ->
     Spec.new_events s s' = [EvAppendData r; EvCheckAlerts r; EvSendEmbed tag alerts] /\
     lastAlertTime s' = <[tag := t]> (lastAlertTime s)) /\
    (Scheduler.cooldown_over st t tag s = false ->
     Spec.new_events s s' = [EvAppendData r; EvCheckAlerts r] /\
     lastAlertTime s' = lastAlertTime s) /\
    (Scheduler.cooldown_over st t tag s = true ->
     forall t2 t3,
       PyFloat.gtb (PyFloat.sub t2 t) (Scheduler.alertCooldown st) = false ->
       PyFloat.gtb (PyFloat.sub t3 t) (Scheduler.alertCooldown st) = true ->
       Spec.count_events Spec.is_send (Spec.new_events s s') = 1%nat /\
       Spec.count_events Spec.is_send
         (Spec.new_events s' (snd (Scheduler.log_and_alert st t2 tag r s'))) = 0%nat /\
       Spec.count_events Spec.is_send
         (Spec.new_events (snd (Scheduler.log_and_alert st t2 tag r s'))
            (snd (Scheduler.log_and_alert st t3 tag r
                    (snd (Scheduler.log_and_alert st t2 tag r s'))))) = 1%nat).
Proof.
  intros Hc Hne.
  destruct (Scheduler.cooldown_over st t tag s) eqn:Hover.
  - destruct (log_and_alert_sends st tag r alerts t s Hc Hne Hover) as (s' & Hrun & Ht & Hl).
    exists s'. split; [exact Hrun|].
    pose proof (new_events_app s s' _ Ht) as Hnew.
    split; [intros _; split; assumption|]. split; [discriminate|].
    intros _ t2 t3 H2 H3. split; [rewrite Hnew; reflexivity|].
    assert (Hover2 : Scheduler.cooldown_over st t2 tag s' = false).
    { unfold Scheduler.cooldown_over. rewrite Hl, lookup_insert_eq. exact H2. }
    destruct (log_and_alert_silent st tag r alerts t2 s' Hc (or_intror Hover2))
      as (s2 & Hrun2 & Ht2 & Hl2).
    rewrite Hrun2. cbn [snd]. rewrite (new_events_app s' s2 _ Ht2).
    split; [reflexivity|].
    assert (Hover3 : Scheduler.cooldown_over st t3 tag s2 = true).
    { unfold Scheduler.cooldown_over. rewrite Hl2, Hl, lookup_insert_eq. exact H3. }
    destruct (log_and_alert_sends st tag r alerts t3 s2 Hc Hne Hover3)
      as (s3 & Hrun3 & Ht3 & _).
    rewrite Hrun3. cbn [snd]. rewrite (new_events_app s2 s3 _ Ht3). reflexivity.
  - destruct (log_and_alert_silent st tag r alerts t s Hc (or_intror Hover))
      as (s' & Hrun & Ht & Hl).
    exists s'. split; [exact Hrun|]. split; [discriminate|].
    split; [|discriminate]. intros _. split; [|exact Hl].
    apply new_events_app. exact Ht.
Qed.

Lemma alerts_dispatched_after_cooldown_witness :
  Alerts.CheckAlerts (Scheduler.thresholds Example.settings) Example.high_voltage_row =
    Ok [HIGH_VOLTAGE (PyFloat (PyFloat.of_Z 260))] /\
  [HIGH_VOLTAGE (PyFloat (PyFloat.of_Z 260))] <> [] /\
  exists s' : state,
    Scheduler.log_and_alert Example.settings (PyFloat.of_Z 1000) "Tag1"
      Example.high_voltage_row (initial_state []) = (Ok tt, s').
Proof.
  split; [reflexivity|]. split; [discriminate|].
  destruct (alerts_dispatched_after_cooldown Example.settings (PyFloat.of_Z 1000) "Tag1"
              Example.high_voltage_row [HIGH_VOLTAGE (PyFloat (PyFloat.of_Z 260))]
              (initial_state []) eq_refl ltac:(discriminate))
    as (s' & H & _).
  exists s'. exact H.
Defined.

(** C8, as the specification states it, fails: a tag without an earlier alert
    does not count as infinitely old but as last alerted at time 0.  At a
    cycle time of 100 s with a cooldown of 300 s, the high-voltage alert of a
    tag that never alerted is not sent. *)
Lemma first_alert_held_back_near_time_zero :
  ~ Spec.dispatch_claim Example.settings (PyFloat.of_Z 100) "Tag1"
      Example.high_voltage_row (initial_state []).
Proof.
  unfold Spec.dispatch_claim. intros H.
  specialize (H [HIGH_VOLTAGE (PyFloat (PyFloat.of_Z 260))] eq_refl ltac:(discriminate)).
  assert (Hlast : lastAlertTime (initial_state []) !! "Tag1"%string = None) by reflexivity.
  rewrite Hlast in H. destruct H as [_ H]. specialize (H I).
  assert (Hzero : Spec.count_events Spec.is_send
            (Spec.new_events (initial_state [])
               (snd (Scheduler.log_and_alert Example.settings (PyFloat.of_Z 100) "Tag1"
                       Example.high_voltage_row (initial_state [])))) = 0%nat)
    by (vm_compute; reflexivity).
  rewrite Hzero in H. discriminate H.
Qed.

(** ** One cycle *)

Section CycleFacts.
Import Modbus Alerts Scheduler Spec.
Variables (st : Settings) (t : float).

#[global] Instance quiet_step_preorder : PreOrder quiet_step.
Proof.
  split.
  - intros s. repeat split. apply extends_by_refl.
  - intros s1 s2 s3 (a1 & b1 & E1) (a2 & b2 & E2).
    repeat split; try congruence. eapply extends_by_trans; eassumption.
Qed.

Lemma rows_onto_app d evs1 evs2 :
  rows_onto d (evs1 ++ evs2) = rows_onto (rows_onto d evs1) evs2.
Proof. unfold rows_onto. apply fold_left_app. Qed.

Lemma rows_onto_quiet d evs : Forall quiet evs -> rows_onto d evs = d.
Proof.
  intros H. revert d. induction H as [|e evs He _ IH]; intros d; [reflexivity|].
  cbn. destruct e; try apply IH. destruct He.
Qed.

Lemma quiet_not_publish evs :
  Forall quiet evs -> Forall (fun e => is_publish e = false) evs.
Proof.
  intros H. eapply Forall_impl; [exact H|]. intros [] He; simpl in *; tauto.
Qed.

#[global] Instance tags_step_preorder (l : nat) : PreOrder (tags_step l).
Proof.
  split.
  - intros s. repeat split. exists []. split; [symmetry; apply app_nil_r|].
    split; [constructor|]. intros d Hd. exact Hd.
  - intros s1 s2 s3 (a1 & b1 & c1 & e1 & T1 & F1 & D1) (a2 & b2 & c2 & e2 & T2 & F2 & D2).
    split; [congruence|]. split; [congruence|].
    split; [intros j Hj; rewrite (c2 j Hj); apply c1; exact Hj|].
    exists (e1 ++ e2). split; [rewrite T2, T1; symmetry; apply app_assoc|].
    split; [apply Forall_app; split; assumption|].
    intros d Hd. rewrite rows_onto_app. apply D2. apply D1. exact Hd.
Qed.

Lemma quiet_tags_step (l : nat) (s s' : state) : quiet_step s s' -> tags_step l s s'.
Proof.
  intros (Hh & Hl & evs & Ht & Hq). split; [exact Hl|]. split; [congruence|].
  split; [intros; congruence|]. exists evs. split; [exact Ht|].
  split; [apply quiet_not_publish; exact Hq|].
  intros d Hd. rewrite (rows_onto_quiet d evs Hq), Hh. exact Hd.
Qed.

Lemma sampling_quiet (s s' : state) : sampling_step io_event s s' -> quiet_step s s'.
Proof.
  intros (_ & Hh & Hl & E). repeat split; try assumption.
  eapply extends_by_weaken; [|exact E]. apply io_quiet.
Qed.

(** The assembly of a row only reads registers and refreshes the text
    cache. *)
Lemma read_all_io tag registers currentRow :
  respects (sampling_step io_event) (read_all st t tag registers currentRow).
Proof.
  revert currentRow. induction registers as [|[key config] rest IH]; intros currentRow.
  - apply (respects_ret (sampling_step io_event)).
  - cbn [read_all]. apply (respects_bind (sampling_step io_event)).
    + apply read_value_io.
    + intros val. apply IH.
Qed.

Lemma store_tags_step (l : nat) (tag : string) (r : row) :
  respects (tags_step l) (store l tag r).
Proof.
  intros s res s'. unfold store, bind, emit, modify. intros [= <- <-].
  cbn [latestReadings heap trace].
  split; [reflexivity|]. split; [apply length_alter|].
  split; [intros j Hj; apply list_lookup_alter_ne; congruence|].
  exists [EvStore l tag r]. split; [reflexivity|]. split; [repeat constructor|].
  intros d Hd. cbn [heap]. rewrite list_lookup_alter_eq, Hd. reflexivity.
Qed.

(** Whether it returns or raises, the processing of a tag writes only the
    dictionary of the running cycle and publishes nothing. *)
Lemma process_tag_step (l : nat) (tag : TagInfo) :
  respects (tags_step l) (process_tag st t l tag).
Proof.
  unfold process_tag. apply (respects_bind (tags_step l)).
  - apply (respects_weaken (sampling_step io_event)); [|apply read_all_io].
    intros s s' H. apply quiet_tags_step, sampling_quiet, H.
  - intros currentRow. apply (respects_bind (tags_step l)); [apply store_tags_step|].
    intros _. apply (respects_weaken quiet_step); [apply quiet_tags_step|].
    apply log_and_alert_quiet.
Qed.

Lemma process_tags_step (l : nat) (tags : list TagInfo) :
  respects (tags_step l) (process_tags st t l tags).
Proof.
  induction tags as [|tag rest IH]; cbn [process_tags].
  - apply (respects_ret (tags_step l)).
  - apply (respects_bind (tags_step l)); [apply process_tag_step | intros _; exact IH].
Qed.

Lemma milestones_app evs1 evs2 :
  milestones (evs1 ++ evs2) = milestones evs1 ++ milestones evs2.
Proof. unfold milestones. apply List.filter_app. Qed.

Lemma milestones_none evs :
  Forall (fun e => is_milestone e = false) evs -> milestones evs = [].
Proof.
  induction 1 as [|e evs He _ IH]; [reflexivity|].
  unfold milestones in *. cbn. rewrite He. exact IH.
Qed.

(** A tag that is processed to the end: its row is stored in the cycle's
    dictionary, then logged, then checked. *)
Lemma process_tag_ok (l : nat) (tag : TagInfo) (s s' : state) :
  process_tag st t l tag s = (Ok tt, s') ->
  exists (r : row) (evs : list event),
    trace s' = trace s ++ evs /\
    milestones evs = tag_milestones l (tagName tag, r).
Proof.
  unfold process_tag. intros H.
  apply bind_inv in H as [(r & s1 & Hread & H) | (e & _ & He)]; [|discriminate].
  apply bind_inv in H as [([] & s2 & Hstore & Hlog) | (e & _ & He)]; [|discriminate].
  apply read_all_io in Hread as (_ & _ & _ & e1 & T1 & F1).
  unfold store, bind, emit, modify in Hstore. injection Hstore as <-.
  apply log_and_alert_ok in Hlog as (_ & _ & sends & T3 & F3).
  cbn [trace] in T3. exists r, (e1 ++ [EvStore l (tagName tag) r] ++
                               [EvAppendData r; EvCheckAlerts r] ++ sends).
  split.
  - rewrite T3, T1. rewrite <- !app_assoc. reflexivity.
  - rewrite !milestones_app.
    rewrite (milestones_none e1), (milestones_none sends).
    + reflexivity.
    + eapply Forall_impl; [exact F3|]. intros [] He; simpl in *; congruence.
    + eapply Forall_impl; [exact F1|]. intros [] He; simpl in *; tauto.
Qed.

Lemma process_tags_ok (l : nat) (tags : list TagInfo) (s s' : state) :
  process_tags st t l tags s = (Ok tt, s') ->
  exists (rows : list row) (evs : list event),
    length rows = length tags /\
    trace s' = trace s ++ evs /\
    milestones evs = flat_map (tag_milestones l) (zip (tagName <$> tags) rows).
Proof.
  revert s. induction tags as [|tag rest IH]; intros s; cbn [process_tags].
  - intros [= <-]. exists [], []. split; [reflexivity|].
    split; [symmetry; apply app_nil_r | reflexivity].
  - intros H.
    apply bind_inv in H as [([] & s1 & Htag & Hrest) | (e & _ & He)]; [|discriminate].
    apply process_tag_ok in Htag as (r & e1 & T1 & M1).
    apply IH in Hrest as (rows & e2 & Hlen & T2 & M2).
    exists (r :: rows), (e1 ++ e2). split; [cbn; congruence|].
    split; [rewrite T2, T1; symmetry; apply app_assoc|].
    rewrite milestones_app, M1, M2. reflexivity.
Qed.

(** What [alloc] leaves: the heap with one more, empty, dictionary. *)
Lemma alloc_run (s : state) :
  exists sa,
    alloc s = (Ok (length (heap s)), sa) /\
    trace sa = trace s /\ latestReadings sa = latestReadings s /\
    heap sa = heap s ++ [∅].
Proof. eexists. split; [reflexivity|]. repeat split. Qed.

End CycleFacts.

Section SnapshotFacts.
Import Modbus Alerts Scheduler Spec.
Variable st : Settings.

Lemma rows_onto_milestones d evs : rows_onto d (milestones evs) = rows_onto d evs.
Proof.
  revert d. induction evs as [|e evs IH]; intros d; [reflexivity|].
  unfold milestones in *. cbn [List.filter].
  destruct e; cbn [is_milestone rows_onto fold_left]; apply IH.
Qed.

Lemma rows_onto_tag_milestones l d (trs : list (string * row)) :
  rows_onto d (flat_map (tag_milestones l) trs) =
    fold_left (fun d tr => <[fst tr := snd tr]> d) trs d.
Proof.
  revert d. induction trs as [|tr trs IH]; intros d; [reflexivity|].
  cbn [flat_map tag_milestones app fold_left rows_onto].
  apply IH.
Qed.

(** A cycle that runs to its end: it has processed every tag, then
    published, once, a dictionary that holds the rows of this cycle and was
    not in the heap before; the older dictionaries are as they were. *)
Lemma cycle_ok (t : float) (s s' : state) :
  cycle st t s = (Ok tt, s') ->
  exists (rows : list row) (evs : list event),
    length rows = length (powertags st) /\
    trace s' = trace s ++ evs /\
    milestones evs =
      flat_map (tag_milestones (length (heap s))) (zip (tagName <$> powertags st) rows) ++
      [EvPublish (length (heap s))] /\
    count_events is_publish evs = 1%nat /\
    latestReadings s' = length (heap s) /\
    length (heap s') = S (length (heap s)) /\
    heap s' !! length (heap s) = Some (snapshot_of (zip (tagName <$> powertags st) rows)).
Proof.
  unfold cycle. intros H.
  apply bind_inv in H as [(l & sa & Halloc & H) | (e & _ & He)]; [|discriminate].
  destruct (alloc_run s) as (sa' & Halloc' & Ta & La & Ha).
  rewrite Halloc' in Halloc. injection Halloc as <- <-.
  apply bind_inv in H as [([] & s2 & Htags & Hpub) | (e & _ & He)]; [|discriminate].
  pose proof (process_tags_step st t _ _ _ _ _ Htags)
    as (L2 & N2 & _ & evs' & T2' & F2 & D2).
  apply process_tags_ok in Htags as (rows & e2 & Hlen & T2 & M2).
  assert (evs' = e2) by (rewrite T2 in T2'; eapply app_inv_head; symmetry; exact T2').
  subst evs'.
  unfold publish, bind, emit, modify in Hpub. injection Hpub as <-.
  exists rows, (e2 ++ [EvPublish (length (heap s))]).
  split; [exact Hlen|]. cbn [trace latestReadings heap].
  split; [rewrite T2, Ta; symmetry; apply app_assoc|].
  split; [rewrite milestones_app, M2; reflexivity|].
  split; [rewrite count_events_app, (count_events_none _ _ F2); reflexivity|].
  split; [reflexivity|].
  split; [rewrite N2, Ha, length_app; cbn; lia|].
  rewrite (D2 ∅).
  - rewrite <- rows_onto_milestones, M2, rows_onto_tag_milestones. reflexivity.
  - rewrite Ha. apply list_lookup_middle. reflexivity.
Qed.

Lemma cycle_ok_frame (t : float) (s s' : state) (j : nat) :
  cycle st t s = (Ok tt, s') -> (j < length (heap s))%nat ->
  heap s' !! j = heap s !! j.
Proof.
  unfold cycle. intros H Hj.
  apply bind_inv in H as [(l & sa & Halloc & H) | (e & _ & He)]; [|discriminate].
  destruct (alloc_run s) as (sa' & Halloc' & Ta & La & Ha).
  rewrite Halloc' in Halloc. injection Halloc as <- <-.
  apply bind_inv in H as [([] & s2 & Htags & Hpub) | (e & _ & He)]; [|discriminate].
  pose proof (process_tags_step st t _ _ _ _ _ Htags) as (_ & _ & C2 & _).
  unfold publish, bind, emit, modify in Hpub. injection Hpub as <-.
  cbn [heap]. rewrite C2 by lia. rewrite Ha. apply lookup_app_l. exact Hj.
Qed.

(** Inside a cycle, after any number of tags and also when a tag raised,
    the reader still sees the dictionary published before the cycle. *)
Lemma mid_cycle_frame (t : float) (k : nat) (s : state) :
  valid_state s ->
  valid_state (mid_cycle st t k s) /\
  GetPowertags (mid_cycle st t k s) = GetPowertags s /\
  exists evs,
    trace (mid_cycle st t k s) = trace s ++ evs /\
    count_events is_publish evs = 0%nat.
Proof.
  intros Hv. unfold mid_cycle, valid_state, GetPowertags in *.
  destruct (alloc_run s) as (sa & Halloc & Ta & La & Ha).
  rewrite (bind_ok _ _ _ _ _ Halloc).
  destruct (process_tags st t (length (heap s)) (take k (powertags st)) sa)
    as [res s2] eqn:Htags.
  apply process_tags_step in Htags as (L2 & N2 & C2 & evs & T2 & F2 & _).
  cbn [snd]. rewrite L2, La, N2, Ha, length_app. cbn [length].
  split; [lia|]. split.
  - rewrite C2 by lia. rewrite Ha. apply lookup_app_l. exact Hv.
  - exists evs. split; [rewrite T2, Ta; reflexivity|].
    apply count_events_none. exact F2.
Qed.

(** At every point a reader can meet, the published dictionary is the one
    the run started with, or the complete set of rows of one cycle. *)
Lemma observed_snapshot (starts : list float) (s0 : state) (n : nat) (s : state) :
  observed st starts s0 n s ->
  valid_state s0 ->
  valid_state s /\
  exists evs,
    trace s = trace s0 ++ evs /\
    count_events is_publish evs = n /\
    (n = 0%nat /\ GetPowertags s = GetPowertags s0 \/
     exists d, rows_of_one_cycle st d /\ GetPowertags s = Some d).
Proof.
  induction 1 as [starts s | t rest s k | t rest s s1 n s' Hcycle Hobs IH]; intros Hv.
  - split; [exact Hv|]. exists []. split; [symmetry; apply app_nil_r|].
    split; [reflexivity|]. left. split; reflexivity.
  - destruct (mid_cycle_frame t k s Hv) as (Hv' & Hg & evs & Ht & Hc).
    split; [exact Hv'|]. exists evs. split; [exact Ht|]. split; [exact Hc|].
    left. split; [reflexivity | exact Hg].
  - pose proof (cycle_ok t s s1 Hcycle) as (rows & e1 & Hlen & T1 & M1 & C1 & L1 & N1 & D1).
    assert (Hv1 : valid_state s1) by (unfold valid_state; lia).
    destruct (IH Hv1) as (Hv' & e2 & T2 & C2 & Hsnap).
    split; [exact Hv'|]. exists (e1 ++ e2).
    split; [rewrite T2, T1; symmetry; apply app_assoc|].
    split; [rewrite count_events_app, C1, C2; reflexivity|].
    right. destruct Hsnap as [[_ Hsame] | Hd]; [|exact Hd].
    exists (snapshot_of (zip (tagName <$> powertags st) rows)). split.
    + exists t, s, s1, rows. split; [exact Hcycle|]. split; [exact Hlen|].
      split; [|reflexivity]. rewrite (new_events_app s s1 _ T1). exact M1.
    + rewrite Hsame. unfold GetPowertags. rewrite L1. exact D1.
Qed.

End SnapshotFacts.

(** C3 (as the code has it). In a cycle that runs to its end, the tags are
    taken in turn, and for each of them the row is assembled and stored in
    the dictionary of the cycle, then handed to the log sink, then to the
    alert engine; the snapshot is replaced last, after every tag has been
    logged and checked. *)
Theorem cycle_order (st : Scheduler.Settings) (t : float) (s s' : state) :
  Scheduler.cycle st t s = (Ok tt, s') ->
  exists rows : list row,
    length rows = length (Scheduler.powertags st) /\
    Spec.milestones (Spec.new_events s s') =
      flat_map (Spec.tag_milestones (length (heap s)))
        (zip (Scheduler.tagName <$> Scheduler.powertags st) rows) ++
      [EvPublish (length (heap s))].
Proof.
  intros H. destruct (cycle_ok st t s s' H) as (rows & evs & Hlen & T & M & _).
  exists rows. split; [exact Hlen|]. rewrite (new_events_app s s' _ T). exact M.
Qed.

Lemma run_ok_eq {A : Type} (p : result A * state) (a : A) :
  fst p = Ok a -> p = (Ok a, snd p).
Proof. destruct p as [r s]. cbn. intros ->. reflexivity. Qed.

Lemma cycle_order_witness :
  exists rows : list row,
    length rows = length (Scheduler.powertags Example.settings) /\
    Spec.milestones
      (Spec.new_events (initial_state Example.steady_replies)
         (snd (Scheduler.cycle Example.settings (PyFloat.of_Z 1000)
                 (initial_state Example.steady_replies)))) =
      flat_map (Spec.tag_milestones (length (heap (initial_state Example.steady_replies))))
        (zip (Scheduler.tagName <$> Scheduler.powertags Example.settings) rows) ++
      [EvPublish (length (heap (initial_state Example.steady_replies)))].
Proof.
  apply (cycle_order Example.settings (PyFloat.of_Z 1000)
           (initial_state Example.steady_replies)).
  apply run_ok_eq. vm_compute. reflexivity.
Defined.

(** C3, as the specification states it, fails: in the cycle of one tag on a
    steady device, the row is logged and checked before the snapshot is
    replaced, not after. *)
Lemma cycle_logs_before_publishing :
  ~ Spec.order_claim Example.settings (PyFloat.of_Z 1000)
      (initial_state Example.steady_replies).
Proof.
  intros H.
  assert (Hrun : fst (Scheduler.cycle Example.settings (PyFloat.of_Z 1000)
                        (initial_state Example.steady_replies)) = Ok tt)
    by (vm_compute; reflexivity).
  specialize (H _ (run_ok_eq _ tt Hrun)).
  assert (Hno : Spec.in_claimed_order
            (Spec.new_events (initial_state Example.steady_replies)
               (snd (Scheduler.cycle Example.settings (PyFloat.of_Z 1000)
                       (initial_state Example.steady_replies)))) = false)
    by (vm_compute; reflexivity).
  rewrite Hno in H. discriminate H.
Qed.

(** The state in which [Run] leaves the loop is one of the points a reader
    can meet: the end of the last completed cycle, or the point inside a cycle
    where a tag raised. *)
Lemma cycles_observed (st : Scheduler.Settings) (starts : list float) (s : state) :
  exists n, Spec.observed st starts s n (snd (Scheduler.cycles st starts s)).
Proof.
  revert s. induction starts as [|t rest IH]; intros s; cbn [Scheduler.cycles].
  - exists 0%nat. apply Spec.obs_here.
  - destruct (Scheduler.cycle st t s) as [[[]|e] s1] eqn:Hcycle.
    + rewrite (bind_ok _ _ _ _ _ Hcycle). destruct (IH s1) as (n & Hn).
      exists (S n). eapply Spec.obs_next; eassumption.
    + rewrite (bind_raise _ _ _ _ _ Hcycle). cbn [snd]. exists 0%nat.
      assert (Hmid : s1 = Spec.mid_cycle st t (length (Scheduler.powertags st)) s).
      { unfold Spec.mid_cycle. rewrite take_ge by lia.
        unfold Scheduler.cycle in Hcycle. revert Hcycle. unfold bind at 1 3.
        destruct (Scheduler.alloc s) as [[l|e0] sa]; [|intros [= <- <-]; reflexivity].
        unfold bind at 1.
        destruct (Scheduler.process_tags st t l (Scheduler.powertags st) sa)
          as [[[]|e1] s2]; [discriminate | intros [= <- <-]; reflexivity]. }
      rewrite Hmid. apply Spec.obs_mid.
Qed.

(** [Run] catches what the loop raises and leaves the state as it was then. *)
Lemma Run_observed (st : Scheduler.Settings) (starts : list float) (s : state) :
  exists n, Spec.observed st starts s n (snd (Scheduler.Run st starts s)).
Proof.
  destruct (cycles_observed st starts s) as (n & Hn). exists n.
  unfold Scheduler.Run, catch.
  destruct (Scheduler.cycles st starts s) as [[[]|e] s1]; exact Hn.
Qed.

(** C4. Along a run of the loop from the initial state, at every point where
    a reader can look (between cycles, inside a cycle after any number of
    tags, at the point where a cycle raised), the published dictionary is
    either the empty one the program starts with, as long as no cycle has
    completed, or the complete set of rows of one single cycle that ran to
    its end; the number of publications so far is the number of completed
    cycles. *)
Theorem snapshot_from_one_cycle (st : Scheduler.Settings) (starts : list float)
    (replies : list reply) (n : nat) (s : state) :
  Spec.observed st starts (initial_state replies) n s ->
  Spec.count_events Spec.is_publish (trace s) = n /\
  (n = 0%nat /\ Scheduler.GetPowertags s = Some ∅ \/
   exists d, Spec.rows_of_one_cycle st d /\ Scheduler.GetPowertags s = Some d).
Proof.
  intros Hobs.
  assert (Hv : Spec.valid_state (initial_state replies)) by (unfold Spec.valid_state; cbn; lia).
  destruct (observed_snapshot st starts _ n s Hobs Hv) as (_ & evs & T & C & Hsnap).
  cbn [trace initial_state app] in T. rewrite T. split; [exact C|].
  destruct Hsnap as [[Hn Hs] | Hd]; [left | right; exact Hd].
  split; [exact Hn | exact Hs].
Qed.

Lemma snapshot_from_one_cycle_witness :
  Spec.count_events Spec.is_publish
    (trace (Spec.mid_cycle Example.settings (PyFloat.of_Z 1080) 1
              (snd (Scheduler.cycle Example.settings (PyFloat.of_Z 1000)
                      (initial_state Example.steady_replies))))) = 1%nat.
Proof.
  apply (snapshot_from_one_cycle Example.settings [PyFloat.of_Z 1000; PyFloat.of_Z 1080]
           Example.steady_replies 1
           (Spec.mid_cycle Example.settings (PyFloat.of_Z 1080) 1
              (snd (Scheduler.cycle Example.settings (PyFloat.of_Z 1000)
                      (initial_state Example.steady_replies))))).
  eapply Spec.obs_next.
  - apply run_ok_eq. vm_compute. reflexivity.
  - apply Spec.obs_mid.
Defined.

(** * Further properties of the code *)

(** ** The register read *)

Section ReadEdgeFacts.
Import Modbus Spec.
Variable self : ModbusReader.
Variables (address : cfgval) (deviceId : Z) (registerType : string).

(** Each attempt takes the next reply of the device, if there is one. *)
Lemma attempt_script (count : cfgval) (s : state) r (s' : state) :
  attempt self address deviceId count registerType s = (r, s') ->
  script s' = tail (script s).
Proof.
  assert (Hsleep : forall s0 r0 s1, sleep (delay self) s0 = (r0, s1) -> script s1 = script s0).
  { intros s0 r0 s1. apply sleep_script. }
  unfold attempt, client_read, catch, bind, emit, modify, lift, ret.
  cbn [script trace].
  destruct (script s) as [|[| | |registers] rest] eqn:Es; cbn [script trace tail];
    repeat match goal with
    | |- context [sleep (delay self) ?s0] =>
        let E := fresh "E" in
        destruct (sleep (delay self) s0) as [[[]|?] ?] eqn:E;
        apply Hsleep in E; cbn [script] in E
    | |- context [slice_to ?a ?b] => destruct (slice_to a b)
    end; intros [= <- <-]; cbn [script]; congruence.
Qed.

(** An attempt that returns words has sliced the words of a response. *)
Lemma attempt_some (count : cfgval) (s : state) regs (s' : state) :
  attempt self address deviceId count registerType s = (Ok (Some regs), s') ->
  exists registers rest,
    script s = RespOk registers :: rest /\ slice_to registers count = Ok regs.
Proof.
  assert (Hsleep : forall s0 r0 s1 (x : option (list Z)) s2,
            sleep (delay self) s0 = (r0, s1) ->
            (match r0 with Ok _ => (Ok None, s1) | Raise e => (Raise e, s1) end)
              = (Ok (Some x), s2) -> False).
  { intros s0 [[]|e] s1 x s2 _; discriminate. }
  unfold attempt, client_read, catch, bind, emit, modify, lift, ret.
  cbn [script trace].
  destruct (script s) as [|[| | |registers] rest] eqn:Es; cbn [script trace];
    try (repeat match goal with
         | |- context [sleep (delay self) ?s0] =>
             let E := fresh "E" in
             destruct (sleep (delay self) s0) as [[[]|?] ?] eqn:E
         end; discriminate).
  destruct (slice_to registers count) as [regs'|e] eqn:Hslice.
  - intros [= <- <-]. exists registers, rest. split; [reflexivity | exact Hslice].
  - destruct (sleep (delay self) _) as [[[]|?] ?]; discriminate.
Qed.

Lemma attempts_some (count : cfgval) (n : nat) (s : state) regs (s' : state) :
  attempts n self address deviceId count registerType s = (Ok (Some regs), s') ->
  exists registers, RespOk registers ∈ script s /\ slice_to registers count = Ok regs.
Proof.
  revert s. induction n as [|n IH]; intros s; cbn [attempts]; [discriminate|].
  intros H. apply bind_inv in H as [(r & s1 & Ha & H) | (e & _ & He)]; [|discriminate].
  destruct r as [regs'|].
  - injection H as <- <-. apply attempt_some in Ha as (registers & rest & Es & Hs).
    exists registers. split; [rewrite Es; apply list_elem_of_here | exact Hs].
  - apply attempt_script in Ha. apply IH in H as (registers & Hin & Hs).
    exists registers. split; [|exact Hs]. rewrite Ha in Hin.
    destruct (script s) as [|x rest]; cbn [tail] in Hin; [exact Hin|].
    apply list_elem_of_further. exact Hin.
Qed.


Lemma sleep_invalid :
  valid_delay (delay self) = false ->
  exists e, (e = ValueError \/ e = OverflowError) /\
            forall s, sleep (delay self) s = (Raise e, s).
Proof.
  intros H. destruct (sleep_refuses (delay self) H) as (e & He & Hs).
  exists e. split; [exact He|]. intros s. rewrite Hs. reflexivity.
Qed.

End ReadEdgeFacts.

(** X1. When [ReadRegisters] returns words for a count [n] that is not
    negative, they are the first [n] words of one of the responses the
    device gave, so never more than [n] of them. *)
Theorem ReadRegisters_returns_prefix (self : Modbus.ModbusReader) (address : cfgval)
    (deviceId : Z) (n : Z) (registerType : string) (s s' : state) (regs : list Z) :
  0 <= n ->
  Modbus.ReadRegisters self address deviceId (CInt n) registerType s = (Ok (Some regs), s') ->
  (length regs <= Z.to_nat n)%nat /\
  exists registers, RespOk registers ∈ script s /\ regs = take (Z.to_nat n) registers.
Proof.
  intros Hn Hrun. unfold Modbus.ReadRegisters in Hrun.
  apply attempts_some in Hrun as (registers & Hin & Hs).
  cbn [Modbus.slice_to] in Hs.
  replace (0 <=? n) with true in Hs by (symmetry; apply Z.leb_le; exact Hn).
  injection Hs as <-. split; [rewrite length_take; lia|].
  exists registers. split; [exact Hin | reflexivity].
Qed.

Lemma ReadRegisters_returns_prefix_witness :
  (length [17256; 0]%Z <= Z.to_nat 2)%nat /\
  exists registers,
    RespOk registers ∈ script (initial_state [RespError; RespOk [17256; 0; 7]]) /\
    [17256; 0] = take (Z.to_nat 2) registers.
Proof.
  apply (ReadRegisters_returns_prefix Example.reader (CInt 10) 1 2 "input"
           (initial_state [RespError; RespOk [17256; 0; 7]])
           (snd (Modbus.ReadRegisters Example.reader (CInt 10) 1 (CInt 2) "input"
                   (initial_state [RespError; RespOk [17256; 0; 7]])))).
  - lia.
  - reflexivity.
Defined.

(** X2. With a delay that [time.sleep] refuses (negative, NaN, infinite or
    of more nanoseconds than 64 bits hold), a first attempt that fails does
    not lead to a retry: the exception of [time.sleep] leaves [ReadRegisters]
    after that single call. *)
Theorem ReadRegisters_invalid_delay_raises (self : Modbus.ModbusReader)
    (address count : cfgval) (deviceId : Z) (registerType : string) (s : state) :
  Spec.valid_delay (Modbus.delay self) = false ->
  0 < Modbus.retries self ->
  (forall registers, head (script s) <> Some (RespOk registers)) ->
  exists e s',
    Modbus.ReadRegisters self address deviceId count registerType s = (Raise e, s') /\
    (e = ValueError \/ e = OverflowError) /\
    trace s' = trace s ++ [Spec.read_event self registerType address count deviceId].
Proof.
  intros Hd Hr Hhead.
  destruct (sleep_invalid self Hd) as (e & He & Hsleep).
  unfold Modbus.ReadRegisters.
  destruct (Z.to_nat (Modbus.retries self)) as [|n] eqn:En; [lia|].
  cbn [Modbus.attempts].
  assert (Ha : exists s', Modbus.attempt self address deviceId count registerType s =
                            (Raise e, s') /\
                          trace s' = trace s ++
                            [Spec.read_event self registerType address count deviceId]).
  { unfold Modbus.attempt, Modbus.client_read, catch, bind, emit, modify, lift, ret,
      Spec.read_event.
    cbn [script trace].
    destruct (script s) as [|[| | |registers] rest] eqn:Es; cbn [script trace];
      rewrite ?Hsleep; try (eexists; split; reflexivity).
    exfalso. apply (Hhead registers). reflexivity. }
  destruct Ha as (s' & Ha & Ht). exists e, s'.
  rewrite (bind_raise _ _ _ _ _ Ha). repeat split; assumption.
Qed.

Lemma ReadRegisters_invalid_delay_raises_witness :
  exists e s',
    Modbus.ReadRegisters (Modbus.mkReader "192.168.1.10" 3 (PyFloat.of_Z (-1)))
      (CInt 10) 1 (CInt 2) "input" (initial_state [RespError; RespOk [17256; 0]]) =
      (Raise e, s') /\
    (e = ValueError \/ e = OverflowError) /\
    trace s' = trace (initial_state [RespError; RespOk [17256; 0]]) ++
      [Spec.read_event (Modbus.mkReader "192.168.1.10" 3 (PyFloat.of_Z (-1)))
         "input" (CInt 10) (CInt 2) 1].
Proof.
  apply (ReadRegisters_invalid_delay_raises
           (Modbus.mkReader "192.168.1.10" 3 (PyFloat.of_Z (-1))) (CInt 10) (CInt 2) 1
           "input" (initial_state [RespError; RespOk [17256; 0]])).
  - reflexivity.
  - reflexivity.
  - intros registers. discriminate.
Defined.

(** ** The text decoding *)

Section TextEdgeFacts.
Import Modbus Spec Props.

Lemma rawBytes_app (l1 l2 : list Z) : rawBytes (l1 ++ l2) = rawBytes l1 ++ rawBytes l2.
Proof. unfold rawBytes. apply flat_map_app. Qed.

Lemma rawBytes_length (regs : list Z) : length (rawBytes regs) = (2 * length regs)%nat.
Proof. induction regs as [|w t IH]; cbn; [reflexivity|]. unfold rawBytes in IH. lia. Qed.

Lemma rawBytes_range (regs : list Z) : Forall (fun x => 0 <= x < 256) (rawBytes regs).
Proof.
  induction regs as [|w t IH]; [constructor|].
  unfold rawBytes. cbn [flat_map app].
  destruct (byte_split w) as [_ Hl]. destruct (byte_split (Z.shiftr w 8)) as [_ Hh].
  constructor; [rewrite Hh; apply Z.mod_pos_bound; lia|].
  constructor; [rewrite Hl; apply Z.mod_pos_bound; lia | exact IH].
Qed.

Lemma rstrip0_app_zeros (b z : list Z) :
  Forall (fun x => x = 0) z -> rstrip0 (b ++ z) = rstrip0 b.
Proof.
  intros Hz. induction b as [|x t IH]; cbn [app rstrip0].
  - apply rstrip0_zeros. exact Hz.
  - rewrite IH. reflexivity.
Qed.

Lemma rstrip0_sublist (b : list Z) :
  (length (rstrip0 b) <= length b)%nat /\ Forall (fun x => x ∈ b) (rstrip0 b).
Proof.
  induction b as [|x t [IHl IHf]]; cbn [rstrip0]; [split; [lia | constructor]|].
  assert (Hf : Forall (fun y => y ∈ x :: t) (rstrip0 t)).
  { eapply Forall_impl; [exact IHf|]. intros y Hy. apply list_elem_of_further. exact Hy. }
  destruct (rstrip0 t) as [|y l] eqn:E.
  - destruct (x =? 0); cbn; split; try lia; repeat constructor.
  - cbn [length] in *. split; [lia|]. constructor; [apply list_elem_of_here | exact Hf].
Qed.

(** Stripping leaves alone a buffer that does not end with a zero byte. *)
Lemma rstrip0_id (b : list Z) : last b <> Some 0 -> rstrip0 b = b.
Proof.
  induction b as [|x t IH]; [reflexivity|]. intros Hlast. cbn [rstrip0].
  destruct t as [|y t'].
  - cbn. cbn in Hlast. destruct (Z.eqb_spec x 0) as [->|]; [congruence | reflexivity].
  - rewrite IH by exact Hlast. reflexivity.
Qed.

Lemma list_pair_ind {A : Type} (P : list A -> Prop) :
  P [] -> (forall x, P [x]) -> (forall x y l, P l -> P (x :: y :: l)) ->
  forall l, P l.
Proof.
  intros H0 H1 H2 l.
  assert (H : P l /\ forall x, P (x :: l)).
  { induction l as [|y l [IHa IHb]]; [split; [exact H0 | exact H1]|].
    split; [apply IHb|]. intros x. apply H2. exact IHa. }
  apply H.
Qed.

(** The words of a buffer of bytes hold the buffer, padded to a whole
    word. *)
Lemma rawBytes_words_of_bytes (b : list Z) :
  Forall (fun x => 0 <= x < 256) b ->
  exists pad, Forall (fun x => x = 0) pad /\ rawBytes (words_of_bytes b) = b ++ pad.
Proof.
  induction b as [|x|x y l IH] using list_pair_ind; intros Hb.
  - exists []. split; [constructor | reflexivity].
  - exists [0]. apply Forall_cons in Hb as [Hx _]. split; [repeat constructor|].
    cbn [words_of_bytes]. unfold rawBytes. cbn [flat_map app].
    destruct (byte_split (x * 256)) as [Hs Hl]. rewrite Hs, Hl.
    destruct (byte_split (x * 256 / 256)) as [_ Hh]. rewrite Hh.
    rewrite Z.div_mul by lia. rewrite Z.mod_mul by lia.
    rewrite Z.mod_small by lia. reflexivity.
  - apply Forall_cons in Hb as [Hx Hb]. apply Forall_cons in Hb as [Hy Hb].
    destruct (IH Hb) as (pad & Hpad & E). exists pad. split; [exact Hpad|].
    cbn [words_of_bytes]. unfold rawBytes in *. cbn [flat_map]. rewrite E.
    destruct (byte_split (x * 256 + y)) as [Hs Hl]. rewrite Hs, Hl.
    destruct (byte_split ((x * 256 + y) / 256)) as [_ Hh]. rewrite Hh.
    replace ((x * 256 + y) / 256) with x
      by (apply Z.div_unique with y; lia).
    replace ((x * 256 + y) mod 256) with y
      by (apply Z.mod_unique with x; lia).
    rewrite Z.mod_small by lia. reflexivity.
Qed.

Lemma filter_all {A : Type} (P : A -> Prop) `{forall x, Decision (P x)} (l : list A) :
  Forall P l -> filter P l = l.
Proof.
  induction 1 as [|x l Hx _ IH]; [reflexivity|].
  rewrite filter_cons. destruct (decide (P x)); [|contradiction]. rewrite IH. reflexivity.
Qed.

Lemma words_of_bytes_nonempty (b : list Z) : b <> [] -> words_of_bytes b <> [].
Proof. destruct b as [|x [|y l]]; cbn; congruence. Qed.

End TextEdgeFacts.

(** X3. Zero words after the text do not change it: a register padded with
    any number of zero words decodes to the same text. *)
Theorem decode_text_ignores_zero_padding (regs : list Z) (k : nat) :
  regs <> [] ->
  Modbus.decode_text (Some (regs ++ replicate k 0)) = Modbus.decode_text (Some regs).
Proof.
  intros Hne. destruct regs as [|w t]; [congruence|].
  cbn [app Modbus.decode_text]. f_equal. f_equal.
  change (w :: t ++ replicate k 0) with ((w :: t) ++ replicate k 0).
  rewrite rawBytes_app. apply rstrip0_app_zeros.
  apply rawBytes_zeros. apply Forall_forall. intros x Hx.
  apply elem_of_replicate in Hx as [-> _]. reflexivity.
Qed.

Lemma decode_text_ignores_zero_padding_witness :
  Modbus.decode_text (Some ([16706; 17152] ++ replicate 3 0)) = Some "ABC"%string.
Proof.
  rewrite (decode_text_ignores_zero_padding [16706; 17152] 3); [reflexivity | discriminate].
Defined.

(** X4. The decoded text holds ASCII characters only, and at most two for
    each word read. *)
Theorem decode_text_is_ascii (regs : list Z) (text : string) :
  Modbus.decode_text (Some regs) = Some text ->
  (String.length text <= 2 * length regs)%nat /\
  Forall (fun c => (N_of_ascii c < 128)%N) (list_ascii_of_string text).
Proof.
  destruct regs as [|w t]; [discriminate|].
  change (Modbus.decode_text (Some (w :: t)))
    with (Some (Modbus.decode_ascii_ignore (Modbus.rstrip0 (Modbus.rawBytes (w :: t))))).
  set (b := Modbus.rstrip0 (Modbus.rawBytes (w :: t))).
  intros [= <-]. unfold Modbus.decode_ascii_ignore.
  destruct (rstrip0_sublist (Modbus.rawBytes (w :: t))) as [Hlen Hsub]. fold b in Hlen, Hsub.
  split.
  - rewrite <- (list_ascii_of_string_of_list_ascii (map _ _)) at 1.
    rewrite string_of_list_ascii_of_string.
    assert (Hs : forall l, String.length (string_of_list_ascii l) = length l)
      by (induction l as [|c l IH]; cbn; congruence).
    rewrite Hs, length_map. rewrite rawBytes_length in Hlen.
    pose proof (length_filter (fun x => x < 128) b). lia.
  - rewrite list_ascii_of_string_of_list_ascii. apply Forall_map.
    apply Forall_forall. intros x Hx.
    apply list_elem_of_filter in Hx as [Hx Hin].
    pose proof (rawBytes_range (w :: t)) as Hr.
    assert (Hb : 0 <= x < 256).
    { rewrite Forall_forall in Hsub, Hr. apply Hr, Hsub, Hin. }
    cbn beta. rewrite N_ascii_embedding by lia. lia.
Qed.

Lemma decode_text_is_ascii_witness :
  (String.length "A" <= 2 * length [16835; 0]%Z)%nat /\
  Forall (fun c => (N_of_ascii c < 128)%N) (list_ascii_of_string "A").
Proof.
  apply (decode_text_is_ascii [16835; 0] "A"). reflexivity.
Defined.

(** X5. Round trip: a device that holds an ASCII text, two characters to a
    word, the first one in the high byte, padded with a zero byte, is read
    back as that text, provided the text is not empty and does not end with a
    NUL character. *)
Theorem decode_text_round_trip (text : string) :
  text <> ""%string ->
  Forall (fun c => (N_of_ascii c < 128)%N) (list_ascii_of_string text) ->
  last (list_ascii_of_string text) <> Some Ascii.zero ->
  Modbus.decode_text (Some (Props.words_of_bytes (Props.bytes_of_text text))) = Some text.
Proof.
  intros Hne Hascii Hlast.
  set (b := Props.bytes_of_text text).
  assert (Hb : Forall (fun x => 0 <= x < 128) b).
  { unfold b, Props.bytes_of_text. apply Forall_map.
    eapply Forall_impl; [exact Hascii|]. intros c Hc. cbn beta in *. lia. }
  assert (Hbne : b <> []).
  { unfold b, Props.bytes_of_text. destruct text; [congruence | discriminate]. }
  assert (Hblast : last b <> Some 0).
  { unfold b, Props.bytes_of_text. rewrite fmap_last.
    destruct (last (list_ascii_of_string text)) as [c|]; [|discriminate].
    cbn. intros [= Hc]. apply Hlast. f_equal.
    rewrite <- (ascii_N_embedding c), <- (ascii_N_embedding Ascii.zero). f_equal.
    change (N_of_ascii Ascii.zero) with 0%N. lia. }
  destruct (rawBytes_words_of_bytes b) as (pad & Hpad & Hraw).
  { eapply Forall_impl; [exact Hb|]. intros x Hx. cbn beta in *. lia. }
  pose proof (words_of_bytes_nonempty b Hbne) as Hwne.
  destruct (Props.words_of_bytes b) as [|w t] eqn:Ew; [congruence|].
  cbn [Modbus.decode_text]. f_equal. unfold Modbus.decode_ascii_ignore.
  rewrite Hraw, (rstrip0_app_zeros b pad Hpad), (rstrip0_id b Hblast).
  rewrite filter_all by (eapply Forall_impl; [exact Hb|]; intros x Hx; cbn beta in *; lia).
  unfold b, Props.bytes_of_text. rewrite map_map.
  rewrite <- (string_of_list_ascii_of_string text) at 2. f_equal.
  rewrite <- (map_id (list_ascii_of_string text)) at 2.
  apply map_ext. intros c. rewrite N2Z.id. apply ascii_N_embedding.
Qed.

Lemma decode_text_round_trip_witness :
  Modbus.decode_text (Some (Props.words_of_bytes (Props.bytes_of_text "Pump 3"))) =
    Some "Pump 3"%string.
Proof.
  apply (decode_text_round_trip "Pump 3").
  - discriminate.
  - repeat constructor.
  - discriminate.
Defined.

(** ** The alert rule *)

Section AlertEdgeFacts.
Import Alerts Props.
Variable th : Thresholds.

Lemma gt_outcome (v : pyval) (bound : float) :
  (exists b, gt v bound = Ok b) \/ gt v bound = Raise TypeError.
Proof. destruct v; cbn; eauto. Qed.

Lemma lt_outcome (v : pyval) (bound : float) :
  (exists b, lt v bound = Ok b) \/ lt v bound = Raise TypeError.
Proof. destruct v; cbn; eauto. Qed.

(** [CheckAlerts] raises nothing but [TypeError]. *)
Lemma CheckAlerts_outcome (readings : row) :
  (exists alerts, CheckAlerts th readings = Ok alerts) \/
  CheckAlerts th readings = Raise TypeError.
Proof.
  unfold CheckAlerts.
  set (v := default (PyStr "float") (readings !! "voltage"%string)).
  set (c := default (PyStr "float") (readings !! "current"%string)).
  assert (Hc : forall alerts,
            (exists a, (if truthy c
                        then rbind (gt c (current_high th))
                               (fun high => if high then Ok (alerts ++ [HIGH_CURRENT c])
                                            else Ok alerts)
                        else Ok alerts) = Ok a) \/
            (if truthy c
             then rbind (gt c (current_high th))
                    (fun high => if high then Ok (alerts ++ [HIGH_CURRENT c])
                                 else Ok alerts)
             else Ok alerts) = Raise TypeError).
  { intros alerts. destruct (truthy c); [|eauto].
    destruct (gt_outcome c (current_high th)) as [[[] ->] | ->]; cbn; eauto. }
  destruct (truthy v); [|cbn [rbind]; apply Hc].
  destruct (gt_outcome v (voltage_high th)) as [[[] ->] | ->]; cbn [rbind];
    [apply Hc | | right; reflexivity].
  destruct (lt_outcome v (voltage_low th)) as [[[] ->] | ->]; cbn [rbind];
    [apply Hc | apply Hc | right; reflexivity].
Qed.

Lemma not_comparable_default (readings : row) (key : string) :
  not_comparable readings key ->
  exists text, text <> ""%string /\
               default (PyStr "float") (readings !! key) = PyStr text.
Proof.
  intros [-> | (text & Hne & ->)].
  - exists "float"%string. split; [discriminate | reflexivity].
  - exists text. split; [exact Hne | reflexivity].
Qed.

Lemma truthy_text (text : string) : text <> ""%string -> truthy (PyStr text) = true.
Proof. intros H. cbn. apply negb_true_iff, String.eqb_neq. exact H. Qed.

End AlertEdgeFacts.

(** X6. Whatever [CheckAlerts] returns is justified: at most one voltage
    alert followed by at most one current alert, each carrying the reading of
    the row and each backed by the strict comparison that holds; a high and a
    low voltage alert never come together. *)
Theorem CheckAlerts_alerts_are_justified (th : Alerts.Thresholds) (readings : row)
    (alerts : list alert) :
  Alerts.CheckAlerts th readings = Ok alerts ->
  exists va ca,
    alerts = va ++ ca /\
    (va = [] \/
     (va = [HIGH_VOLTAGE (default (PyStr "float") (readings !! "voltage"%string))] /\
      Alerts.gt (default (PyStr "float") (readings !! "voltage"%string))
        (Alerts.voltage_high th) = Ok true) \/
     (va = [LOW_VOLTAGE (default (PyStr "float") (readings !! "voltage"%string))] /\
      Alerts.gt (default (PyStr "float") (readings !! "voltage"%string))
        (Alerts.voltage_high th) = Ok false /\
      Alerts.lt (default (PyStr "float") (readings !! "voltage"%string))
        (Alerts.voltage_low th) = Ok true)) /\
    (ca = [] \/
     (ca = [HIGH_CURRENT (default (PyStr "float") (readings !! "current"%string))] /\
      Alerts.gt (default (PyStr "float") (readings !! "current"%string))
        (Alerts.current_high th) = Ok true)).
Proof.
  unfold Alerts.CheckAlerts.
  set (v := default (PyStr "float") (readings !! "voltage"%string)).
  set (c := default (PyStr "float") (readings !! "current"%string)).
  assert (Hc : forall va,
    (if Alerts.truthy c
     then rbind (Alerts.gt c (Alerts.current_high th))
            (fun high => if high then Ok (va ++ [HIGH_CURRENT c]) else Ok va)
     else Ok va) = Ok alerts ->
    exists ca, alerts = va ++ ca /\
      (ca = [] \/ (ca = [HIGH_CURRENT c] /\ Alerts.gt c (Alerts.current_high th) = Ok true))).
  { intros va. destruct (Alerts.truthy c).
    - destruct (Alerts.gt c (Alerts.current_high th)) as [[|]|e] eqn:Eg; cbn; intros [= <-].
      + exists [HIGH_CURRENT c]. split; [reflexivity|]. right. split; reflexivity.
      + exists []. split; [symmetry; apply app_nil_r | left; reflexivity].
    - intros [= <-]. exists []. split; [symmetry; apply app_nil_r | left; reflexivity]. }
  destruct (Alerts.truthy v).
  - destruct (Alerts.gt v (Alerts.voltage_high th)) as [[|]|e] eqn:Eg; cbn [rbind];
      [| |discriminate].
    + intros H. apply Hc in H as (ca & -> & Hca). exists [HIGH_VOLTAGE v], ca.
      split; [reflexivity|]. split; [right; left; split; reflexivity | exact Hca].
    + destruct (Alerts.lt v (Alerts.voltage_low th)) as [[|]|e] eqn:El; cbn [rbind];
        [| |discriminate].
      * intros H. apply Hc in H as (ca & -> & Hca). exists [LOW_VOLTAGE v], ca.
        split; [reflexivity|]. split; [right; right; repeat split; reflexivity | exact Hca].
      * intros H. apply Hc in H as (ca & -> & Hca). exists [], ca.
        split; [reflexivity|]. split; [left; reflexivity | exact Hca].
  - cbn [rbind]. intros H. apply Hc in H as (ca & -> & Hca). exists [], ca.
    split; [reflexivity|]. split; [left; reflexivity | exact Hca].
Qed.

Lemma CheckAlerts_alerts_are_justified_witness :
  exists va ca,
    [HIGH_VOLTAGE (PyFloat (PyFloat.of_Z 260))] = va ++ ca /\
    (va = [] \/
     (va = [HIGH_VOLTAGE
              (default (PyStr "float") (Example.high_voltage_row !! "voltage"%string))] /\
      Alerts.gt (default (PyStr "float") (Example.high_voltage_row !! "voltage"%string))
        (Alerts.voltage_high Example.thresholds) = Ok true) \/
     (va = [LOW_VOLTAGE
              (default (PyStr "float") (Example.high_voltage_row !! "voltage"%string))] /\
      Alerts.gt (default (PyStr "float") (Example.high_voltage_row !! "voltage"%string))
        (Alerts.voltage_high Example.thresholds) = Ok false /\
      Alerts.lt (default (PyStr "float") (Example.high_voltage_row !! "voltage"%string))
        (Alerts.voltage_low Example.thresholds) = Ok true)) /\
    (ca = [] \/
     (ca = [HIGH_CURRENT
              (default (PyStr "float") (Example.high_voltage_row !! "current"%string))] /\
      Alerts.gt (default (PyStr "float") (Example.high_voltage_row !! "current"%string))
        (Alerts.current_high Example.thresholds) = Ok true)).
Proof.
  apply (CheckAlerts_alerts_are_justified Example.thresholds Example.high_voltage_row).
  reflexivity.
Defined.

(** X7. Readings that are [None], a zero of either sign or NaN raise no
    alert, whatever the thresholds: the zero is taken for an absent value and
    NaN compares false with everything. *)
Theorem CheckAlerts_silent_readings (th : Alerts.Thresholds) (readings : row)
    (voltage current : pyval) :
  readings !! "voltage"%string = Some voltage ->
  readings !! "current"%string = Some current ->
  Props.silent_reading voltage ->
  Props.silent_reading current ->
  Alerts.CheckAlerts th readings = Ok [].
Proof.
  intros Hv Hc Sv Sc. unfold Alerts.CheckAlerts. rewrite Hv, Hc. cbn [default].
  assert (Hnan : forall x, PyFloat.gtb S754_nan x = false /\ PyFloat.ltb S754_nan x = false).
  { intros x. unfold PyFloat.gtb, PyFloat.ltb, SFltb. destruct x; split; reflexivity. }
  destruct Sv as [-> | [[sv ->] | ->]], Sc as [-> | [[sc ->] | ->]]; cbn;
    rewrite ?(proj1 (Hnan _)), ?(proj2 (Hnan _)); reflexivity.
Qed.

Lemma CheckAlerts_silent_readings_witness :
  Alerts.CheckAlerts Example.thresholds
    (<["current"%string := PyFloat S754_nan]> {["voltage"%string := PyFloat S754_nan]}) = Ok [].
Proof.
  apply (CheckAlerts_silent_readings Example.thresholds _ (PyFloat S754_nan) (PyFloat S754_nan)).
  - reflexivity.
  - reflexivity.
  - right. right. reflexivity.
  - right. right. reflexivity.
Defined.

Lemma CheckAlerts_not_comparable (th : Alerts.Thresholds) (readings : row) :
  Props.not_comparable readings "voltage" \/ Props.not_comparable readings "current" ->
  Alerts.CheckAlerts th readings = Raise TypeError.
Proof.
  intros [Hv | Hc].
  - apply not_comparable_default in Hv as (text & Hne & Hd).
    unfold Alerts.CheckAlerts. rewrite Hd, (truthy_text text Hne). reflexivity.
  - apply not_comparable_default in Hc as (text & Hne & Hd).
    destruct (CheckAlerts_outcome th readings) as [(alerts & Hok) | Hraise]; [|exact Hraise].
    exfalso. revert Hok. unfold Alerts.CheckAlerts.
    rewrite Hd, (truthy_text text Hne).
    destruct (if Alerts.truthy _ then _ else _) as [a|e]; cbn; discriminate.
Qed.

(** X8. A row in which the voltage or the current is missing, or is a string
    that is not empty (the text or the ["Unknown"] of a text register), makes
    [CheckAlerts] raise [TypeError]: the default of [readings.get] is the
    string ["float"], and a string is not compared with a number. *)
Theorem CheckAlerts_raises_on_text (th : Alerts.Thresholds) (readings : row) :
  Props.not_comparable readings "voltage" \/ Props.not_comparable readings "current" ->
  Alerts.CheckAlerts th readings = Raise TypeError.
Proof. apply CheckAlerts_not_comparable. Qed.

Lemma CheckAlerts_raises_on_text_witness :
  Alerts.CheckAlerts Example.thresholds
    (<["current"%string := PyStr "Unknown"]> {["voltage"%string := PyFloat (PyFloat.of_Z 230)]}) =
  Raise TypeError.
Proof.
  apply (CheckAlerts_raises_on_text Example.thresholds).
  right. right. exists "Unknown"%string. split; [discriminate | reflexivity].
Defined.

(** ** The rows and the CSV file *)

Section RowFacts.
Import Modbus Alerts Scheduler Spec Props.
Variables (st : Settings) (t : float).

(** The assembly of a row adds the key of every register and no other. *)
Lemma read_all_keys tag registers (row0 r : row) (s s' : state) :
  read_all st t tag registers row0 s = (Ok r, s') ->
  (forall k, is_Some (r !! k) <-> is_Some (row0 !! k) \/ k ∈ map fst registers) /\
  (forall k, k ∉ map fst registers -> r !! k = row0 !! k).
Proof.
  revert row0 s. induction registers as [|[key config] rest IH]; intros row0 s; cbn [read_all].
  - intros [= <- <-]. split.
    + intros k. split; [intros H; left; exact H|]. intros [H|H]; [exact H|].
      cbn in H. apply elem_of_nil in H. contradiction.
    + reflexivity.
  - intros H. apply bind_inv in H as [(val & s1 & _ & H) | (e & _ & He)]; [|discriminate].
    apply IH in H as [Hdom Hout]. cbn [map fst]. split.
    + intros k. rewrite Hdom, lookup_insert_is_Some, elem_of_cons.
      destruct (decide (key = k)) as [->|Hne].
      * split; intros _; [right; left; reflexivity | left; left; reflexivity].
      * split.
        -- intros [[?|[_ ?]]|?];
             [contradiction | left; assumption | right; right; assumption].
        -- intros [?|[?|?]];
             [left; right; split; assumption | congruence | right; assumption].
    + intros k Hk. apply not_elem_of_cons in Hk as [Hne Hk].
      rewrite (Hout k Hk). apply lookup_insert_ne. congruence.
Qed.

Lemma initial_row_keys tag k :
  is_Some (initial_row t tag !! k) <-> k = "Tag"%string \/ k = "Timestamp"%string.
Proof.
  unfold initial_row. rewrite lookup_insert_is_Some.
  split.
  - intros [<- | [_ H]]; [right; reflexivity|].
    left. apply lookup_singleton_is_Some in H. congruence.
  - intros [-> | ->]; [right; split; [discriminate|] | left; reflexivity].
    rewrite lookup_singleton_eq. eauto.
Qed.

(** The rows the loop assembles have the columns of the CSV file. *)
Lemma read_all_has_columns tag (r : row) (s s' : state) :
  read_all st t tag (registerMap st) (initial_row t tag) s = (Ok r, s') ->
  has_columns (registerMap st) r.
Proof.
  intros H. apply read_all_keys in H as [Hdom _]. intros k.
  rewrite Hdom, initial_row_keys. unfold Storage.headers. rewrite !elem_of_cons. tauto.
Qed.

(** A row with the columns of the file is accepted, and none of its cells is
    the filler for a missing key. *)
Lemma dict_to_list_has_columns (r : row) :
  has_columns (registerMap st) r ->
  Storage.dict_to_list (Storage.headers (registerMap st)) r =
    Ok (map (fun k => default (PyStr "") (r !! k)) (Storage.headers (registerMap st))).
Proof.
  intros Hc. unfold Storage.dict_to_list.
  assert (Hall : forallb (fun k => bool_decide (k ∈ Storage.headers (registerMap st)))
                   (map fst (map_to_list r)) = true).
  { apply forallb_forall. intros k Hk. apply bool_decide_eq_true.
    apply in_map_iff in Hk as ([k' v] & <- & Hin). apply Hc.
    apply list_elem_of_In, elem_of_map_to_list in Hin. cbn. eauto. }
  rewrite Hall. reflexivity.
Qed.

End RowFacts.

(** X9. A row that the loop assembles has exactly the keys ["Tag"],
    ["Timestamp"] and the keys of the register map, one value for each
    register, whatever the reads returned; under ["Tag"] and ["Timestamp"] it
    holds the name of the tag and the cycle time, unless a register bears
    that name. *)
Theorem assembled_row_has_every_key (st : Scheduler.Settings) (t : float)
    (tag : Scheduler.TagInfo) (r : row) (s s' : state) :
  Scheduler.read_all st t tag (Scheduler.registerMap st) (Props.initial_row t tag) s =
    (Ok r, s') ->
  (forall k, is_Some (r !! k) <->
             k = "Tag"%string \/ k = "Timestamp"%string \/
             k ∈ map fst (Scheduler.registerMap st)) /\
  ("Tag"%string ∉ map fst (Scheduler.registerMap st) ->
   r !! "Tag"%string = Some (PyStr (Scheduler.tagName tag))) /\
  ("Timestamp"%string ∉ map fst (Scheduler.registerMap st) ->
   r !! "Timestamp"%string = Some (PyFloat t)).
Proof.
  intros H. apply read_all_keys in H as [Hdom Hout]. split; [|split].
  - intros k. rewrite Hdom, initial_row_keys. tauto.
  - intros Hk. rewrite (Hout _ Hk). reflexivity.
  - intros Hk. rewrite (Hout _ Hk). reflexivity.
Qed.

Lemma assembled_row_has_every_key_witness :
  exists r : row,
    fst (Scheduler.read_all Example.settings (PyFloat.of_Z 1000) Example.tag1
           (Scheduler.registerMap Example.settings)
           (Props.initial_row (PyFloat.of_Z 1000) Example.tag1)
           (initial_state Example.steady_replies)) = Ok r /\
    r !! "Tag"%string = Some (PyStr "Tag1").
Proof.
  set (run := Scheduler.read_all Example.settings (PyFloat.of_Z 1000) Example.tag1
                (Scheduler.registerMap Example.settings)
                (Props.initial_row (PyFloat.of_Z 1000) Example.tag1)
                (initial_state Example.steady_replies)).
  destruct run as [[r|e] s'] eqn:E; [|vm_compute in E; discriminate E].
  exists r. split; [reflexivity|].
  apply (proj1 (proj2 (assembled_row_has_every_key Example.settings (PyFloat.of_Z 1000)
                         Example.tag1 r (initial_state Example.steady_replies) s' E))).
  vm_compute. intros H.
  repeat (apply elem_of_cons in H as [H|H]; [discriminate H|]).
  apply elem_of_nil in H. exact H.
Defined.

Section LogFacts.
Import Modbus Alerts Scheduler Spec Props.
Variable st : Settings.

#[global] Instance extends_by_preorder (P : event -> Prop) : PreOrder (extends_by P).
Proof.
  split.
  - intros s. apply extends_by_refl.
  - intros s1 s2 s3. apply extends_by_trans.
Qed.

Lemma log_and_alert_events (t : float) (tag : string) (r : row) (s : state) res (s' : state) :
  log_and_alert st t tag r s = (res, s') ->
  extends_by (fun e => e = EvAppendData r \/ is_append e = false) s s'.
Proof.
  unfold log_and_alert, bind, emit, modify, lift, gets, ret.
  assert (Hq : forall evs s0,
            Forall (fun e => e = EvAppendData r \/ is_append e = false) evs ->
            extends_by (fun e => e = EvAppendData r \/ is_append e = false) s
              (mkState (script s) (trace s ++ evs) (lastKnownValues s)
                 (lastReadTime s) s0 (heap s) (latestReadings s))).
  { intros evs s0 Hev. exists evs. split; [reflexivity | exact Hev]. }
  destruct (CheckAlerts (thresholds st) r) as [alerts|e].
  - destruct alerts as [|a rest]; [|destruct (cooldown_over _ _ _ _)];
      intros [= <- <-]; cbn; rewrite <- ?app_assoc; apply Hq;
      repeat (constructor; [first [left; reflexivity | right; reflexivity]|]); constructor.
  - intros [= <- <-]. cbn. rewrite <- ?app_assoc. apply Hq.
    repeat (constructor; [first [left; reflexivity | right; reflexivity]|]); constructor.
Qed.

(** Every row a tag hands to the log has the columns of the file. *)
Lemma process_tag_log (t : float) (l : nat) (tag : TagInfo) :
  respects (extends_by (log_event_ok (registerMap st))) (process_tag st t l tag).
Proof.
  intros s res s' H. unfold process_tag in H.
  assert (Hio : forall s0 s1, sampling_step io_event s0 s1 ->
                              extends_by (log_event_ok (registerMap st)) s0 s1).
  { intros s0 s1 (_ & _ & _ & E). eapply extends_by_weaken; [|exact E].
    intros []; cbn; tauto. }
  apply bind_inv in H as [(r & s1 & Hread & H) | (e & Hread & _)].
  - pose proof (read_all_has_columns st t tag r s s1 Hread) as Hcols.
    apply read_all_io in Hread. apply Hio in Hread.
    apply bind_inv in H as [([] & s2 & Hstore & Hlog) | (e & Hstore & _)].
    + unfold store, bind, emit, modify in Hstore. injection Hstore as <-.
      apply log_and_alert_events in Hlog.
      destruct Hread as (e1 & T1 & F1). destruct Hlog as (e2 & T2 & F2).
      cbn [trace] in T2. exists (e1 ++ [EvStore l (tagName tag) r] ++ e2).
      split; [rewrite T2, T1, <- !app_assoc; reflexivity|].
      apply Forall_app. split; [exact F1|]. constructor; [exact I|].
      eapply Forall_impl; [exact F2|].
      intros e [-> | He]; [exact Hcols|]. destruct e; cbn in *; try exact I. discriminate.
    + unfold store, bind, emit, modify in Hstore. discriminate.
  - apply read_all_io in Hread. apply Hio. exact Hread.
Qed.

Lemma cycles_log (starts : list float) :
  respects (extends_by (log_event_ok (registerMap st))) (cycles st starts).
Proof.
  set (R := extends_by (log_event_ok (registerMap st))).
  induction starts as [|t rest IH]; cbn [cycles]; [apply (respects_ret R)|].
  apply (respects_bind R); [|intros _; exact IH].
  unfold cycle. apply (respects_bind R).
  - intros s res s' [= <- <-]. exists []. split; [symmetry; apply app_nil_r | constructor].
  - intros l. apply (respects_bind R).
    + induction (powertags st) as [|tag tags IHt]; cbn [process_tags];
        [apply (respects_ret R)|].
      apply (respects_bind R); [apply process_tag_log | intros _; exact IHt].
    + intros _ s res s'. unfold publish, bind, emit, modify. intros [= <- <-].
      exists [EvPublish l]. split; [reflexivity | repeat constructor].
Qed.

Lemma replay_log_accepts (evs : list event) (lines : list (list pyval)) :
  Forall (log_event_ok (registerMap st)) evs ->
  replay_log (registerMap st) evs (Some lines) =
    (Ok tt, Some (lines ++ map (line_of (registerMap st)) (logged_rows evs))).
Proof.
  intros H. revert lines. induction H as [|e evs He _ IH]; intros lines.
  - cbn. rewrite app_nil_r. reflexivity.
  - destruct e; cbn [replay_log logged_rows]; try apply IH.
    cbn in He. unfold Storage.AppendData.
    rewrite (dict_to_list_has_columns st r He). rewrite IH.
    cbn [map]. rewrite <- app_assoc. reflexivity.
Qed.

Lemma logged_rows_ok (evs : list event) :
  Forall (log_event_ok (registerMap st)) evs ->
  Forall (has_columns (registerMap st)) (logged_rows evs).
Proof.
  induction 1 as [|e evs He _ IH]; [constructor|].
  destruct e; cbn [logged_rows]; try exact IH. constructor; assumption.
Qed.

End LogFacts.

(** X10. The CSV file is append-only and [Run] never hands it a row it
    refuses.  After [InitStorage], writing the rows that [Run] logs, in
    order, raises nothing and leaves the lines the file had (or the header,
    written once, when there was no file) followed by one line for each
    logged row; every logged row has exactly the columns of the file, so that
    each cell of its line is a value of the row. *)
Theorem Run_log_is_append_only (st : Scheduler.Settings) (starts : list float)
    (s : state) (f : Storage.file) :
  Props.replay_log (Scheduler.registerMap st)
    (Spec.new_events s (snd (Scheduler.Run st starts s)))
    (Storage.InitStorage (Scheduler.registerMap st) f) =
    (Ok tt,
     Some (default [Storage.header_line (Scheduler.registerMap st)] f ++
           map (Props.line_of (Scheduler.registerMap st))
             (Props.logged_rows (Spec.new_events s (snd (Scheduler.Run st starts s)))))) /\
  Forall (Props.has_columns (Scheduler.registerMap st))
    (Props.logged_rows (Spec.new_events s (snd (Scheduler.Run st starts s)))).
Proof.
  assert (Hrun : Spec.extends_by (Props.log_event_ok (Scheduler.registerMap st)) s
                   (snd (Scheduler.Run st starts s))).
  { unfold Scheduler.Run, catch.
    destruct (Scheduler.cycles st starts s) as [[[]|e] s1] eqn:E;
      apply cycles_log in E; exact E. }
  destruct Hrun as (evs & Ht & Hok). rewrite (new_events_app _ _ _ Ht).
  split; [|apply logged_rows_ok; exact Hok].
  assert (Hinit : Storage.InitStorage (Scheduler.registerMap st) f =
                  Some (default [Storage.header_line (Scheduler.registerMap st)] f))
    by (destruct f; reflexivity).
  rewrite Hinit. apply replay_log_accepts. exact Hok.
Qed.

(** X11. A row with a key that is no column of the file is refused with
    [ValueError], but not before the file has been created and given its
    header when it did not exist; the lines already there are untouched. *)
Theorem AppendData_refuses_unknown_key (registerMap : list (string * gmap string cfgval))
    (r : row) (k : string) (f : Storage.file) :
  is_Some (r !! k) ->
  k ∉ Storage.headers registerMap ->
  Storage.AppendData registerMap r f =
    (Raise ValueError, Some (default [Storage.header_line registerMap] f)).
Proof.
  intros [v Hv] Hk. unfold Storage.AppendData, Storage.dict_to_list.
  assert (Hall : forallb (fun k => bool_decide (k ∈ Storage.headers registerMap))
                   (map fst (map_to_list r)) = false).
  { apply not_true_iff_false. intros Hall.
    rewrite forallb_forall in Hall. specialize (Hall k).
    apply Hk. eapply bool_decide_eq_true_1, Hall.
    apply in_map_iff. exists (k, v). split; [reflexivity|].
    apply list_elem_of_In, elem_of_map_to_list. exact Hv. }
  rewrite Hall. destruct f; reflexivity.
Qed.

Lemma AppendData_refuses_unknown_key_witness :
  Storage.AppendData [("voltage"%string, Example.voltage_register)]
    Example.high_voltage_row None =
  (Raise ValueError,
   Some [Storage.header_line [("voltage"%string, Example.voltage_register)]]).
Proof.
  apply (AppendData_refuses_unknown_key [("voltage"%string, Example.voltage_register)]
           Example.high_voltage_row "current" None).
  - vm_compute. eauto.
  - intros H. repeat (apply elem_of_cons in H as [H|H]; [discriminate H|]).
    apply elem_of_nil in H. exact H.
Defined.

(** ** Cycles that cannot complete *)

Section StopFacts.
Import Modbus Alerts Scheduler Spec Props.
Variable st : Settings.

Lemma process_tag_ok_inv (t : float) (l : nat) (tag : TagInfo) (s s' : state) :
  process_tag st t l tag s = (Ok tt, s') ->
  exists r s1 alerts,
    read_all st t tag (registerMap st) (initial_row t tag) s = (Ok r, s1) /\
    CheckAlerts (thresholds st) r = Ok alerts.
Proof.
  unfold process_tag. intros H.
  apply bind_inv in H as [(r & s1 & Hread & H) | (e & _ & He)]; [|discriminate].
  apply bind_inv in H as [([] & s2 & _ & Hlog) | (e & _ & He)]; [|discriminate].
  exists r, s1. unfold log_and_alert, bind, emit, modify, lift in Hlog.
  destruct (CheckAlerts (thresholds st) r) as [alerts|e]; [|discriminate].
  exists alerts. split; [exact Hread | reflexivity].
Qed.

Lemma process_tags_ok_each (t : float) (l : nat) (tags : list TagInfo) (s s' : state) :
  process_tags st t l tags s = (Ok tt, s') ->
  forall tag, tag ∈ tags -> exists s1 s2, process_tag st t l tag s1 = (Ok tt, s2).
Proof.
  revert s. induction tags as [|tag0 rest IH]; intros s H tag Hin.
  - apply elem_of_nil in Hin. contradiction.
  - cbn [process_tags] in H.
    apply bind_inv in H as [([] & s1 & H0 & Hrest) | (e & _ & He)]; [|discriminate].
    apply elem_of_cons in Hin as [-> | Hin]; [eauto|].
    eapply IH; eassumption.
Qed.

Lemma cycle_ok_each (t : float) (s s' : state) :
  cycle st t s = (Ok tt, s') ->
  forall tag, tag ∈ powertags st ->
    exists s1 s2, process_tag st t (length (heap s)) tag s1 = (Ok tt, s2).
Proof.
  unfold cycle. intros H.
  apply bind_inv in H as [(l & sa & Halloc & H) | (e & _ & He)]; [|discriminate].
  injection Halloc as <- <-.
  apply bind_inv in H as [([] & s2 & Htags & _) | (e & _ & He)]; [|discriminate].
  eapply process_tags_ok_each. exact Htags.
Qed.

(** When no cycle can complete, [Run] publishes nothing. *)
Lemma Run_without_completed_cycle (starts : list float) (s : state) :
  (forall t s0, fst (cycle st t s0) <> Ok tt) ->
  valid_state s ->
  GetPowertags (snd (Run st starts s)) = GetPowertags s /\
  count_events is_publish (new_events s (snd (Run st starts s))) = 0%nat.
Proof.
  intros Hnever Hv. destruct (Run_observed st starts s) as (n & Hobs).
  remember (snd (Run st starts s)) as sf eqn:Esf. clear Esf.
  destruct Hobs as [starts s | t rest s k | t rest s s1 n s' Hcycle Hrest].
  - split; [reflexivity|]. unfold new_events. rewrite drop_all. reflexivity.
  - destruct (mid_cycle_frame st t k s Hv) as (_ & Hg & evs & Ht & Hc).
    split; [exact Hg|]. rewrite (new_events_app _ _ _ Ht). exact Hc.
  - exfalso. apply (Hnever t s). rewrite Hcycle. reflexivity.
Qed.

(** A tag on a gateway that is not configured raises before it reads. *)
Lemma read_value_unknown_gateway (t : float) (tag : TagInfo) (key : string)
    (config : gmap string cfgval) (s : state) :
  modbusReaders st !! gatewayName tag = None ->
  read_value st t tag key config s = (Raise KeyError, s).
Proof.
  intros H. unfold read_value, bind, lift, getitem. rewrite H.
  destruct (config !! "register"%string); reflexivity.
Qed.

End StopFacts.

(** X12. The alert engine needs both registers: when the register map has no
    ["voltage"] or no ["current"] and there is a tag, no cycle runs to its end
    ([CheckAlerts] raises on the first tag, whose row lacks the key), so that
    [Run] stops in its first cycle and never replaces the snapshot. *)
Theorem Run_needs_voltage_and_current (st : Scheduler.Settings) (starts : list float)
    (s : state) :
  "voltage"%string ∉ map fst (Scheduler.registerMap st) \/
  "current"%string ∉ map fst (Scheduler.registerMap st) ->
  Scheduler.powertags st <> [] ->
  Spec.valid_state s ->
  (forall t s0, fst (Scheduler.cycle st t s0) <> Ok tt) /\
  Scheduler.GetPowertags (snd (Scheduler.Run st starts s)) = Scheduler.GetPowertags s.
Proof.
  intros Hmiss Htags Hv.
  assert (Hnever : forall t s0, fst (Scheduler.cycle st t s0) <> Ok tt).
  { intros t s0 Hok.
    destruct (Scheduler.cycle st t s0) as [r s1] eqn:Hcycle. cbn in Hok. subst r.
    destruct (Scheduler.powertags st) as [|tag tags] eqn:Et; [congruence|].
    destruct (cycle_ok_each st t s0 s1 Hcycle tag) as (sa & sb & Htag).
    { rewrite Et. apply list_elem_of_here. }
    apply process_tag_ok_inv in Htag as (r & s2 & alerts & Hread & Hcheck).
    apply read_all_keys in Hread as [_ Hout].
    rewrite CheckAlerts_not_comparable in Hcheck; [discriminate|].
    destruct Hmiss as [Hm | Hm]; [left | right]; left; rewrite (Hout _ Hm); reflexivity. }
  split; [exact Hnever|].
  apply (Run_without_completed_cycle st starts s Hnever Hv).
Qed.

Lemma Run_needs_voltage_and_current_witness :
  Scheduler.GetPowertags
    (snd (Scheduler.Run
            (Scheduler.mkSettings (PyFloat.of_Z 300) (PyFloat.of_Z 600) Example.thresholds
               [Scheduler.mkGateway "192.168.1.10" "Gateway1"] 3 (PyFloat.of_Z 0)
               [Example.tag1] [])
            [PyFloat.of_Z 1000; PyFloat.of_Z 1080] (initial_state []))) =
  Scheduler.GetPowertags (initial_state []).
Proof.
  apply (Run_needs_voltage_and_current
           (Scheduler.mkSettings (PyFloat.of_Z 300) (PyFloat.of_Z 600) Example.thresholds
              [Scheduler.mkGateway "192.168.1.10" "Gateway1"] 3 (PyFloat.of_Z 0)
              [Example.tag1] [])
           [PyFloat.of_Z 1000; PyFloat.of_Z 1080] (initial_state [])).
  - left. cbn. apply not_elem_of_nil.
  - discriminate.
  - unfold Spec.valid_state. cbn. lia.
Defined.

(** X13. A tag whose gateway name is not among the configured gateways raises
    [KeyError] at its first register, before anything is read, stored or
    logged for it; a cycle over such a tag never runs to its end. *)
Theorem unknown_gateway_raises_KeyError (st : Scheduler.Settings) (t : float)
    (l : nat) (tag : Scheduler.TagInfo) (s : state) :
  Scheduler.registerMap st <> [] ->
  Scheduler.modbusReaders st !! Scheduler.gatewayName tag = None ->
  Scheduler.process_tag st t l tag s = (Raise KeyError, s) /\
  (tag ∈ Scheduler.powertags st -> forall s0, fst (Scheduler.cycle st t s0) <> Ok tt).
Proof.
  intros Hmap Hgw.
  assert (Hraise : forall l0 s0, Scheduler.process_tag st t l0 tag s0 = (Raise KeyError, s0)).
  { intros l0 s0. unfold Scheduler.process_tag.
    destruct (Scheduler.registerMap st) as [|[key config] rest]; [congruence|].
    cbn [Scheduler.read_all]. apply bind_raise. apply bind_raise.
    apply read_value_unknown_gateway. exact Hgw. }
  split; [apply Hraise|]. intros Hin s0 Hok.
  destruct (Scheduler.cycle st t s0) as [r s1] eqn:Hcycle. cbn in Hok. subst r.
  destruct (cycle_ok_each st t s0 s1 Hcycle tag Hin) as (sa & sb & Htag).
  rewrite Hraise in Htag. discriminate.
Qed.

Lemma unknown_gateway_raises_KeyError_witness :
  Scheduler.process_tag Example.settings (PyFloat.of_Z 1000) 1
    (Scheduler.mkTag 7 "Tag7" "Gateway9") (initial_state Example.steady_replies) =
  (Raise KeyError, initial_state Example.steady_replies).
Proof.
  apply (unknown_gateway_raises_KeyError Example.settings (PyFloat.of_Z 1000) 1
           (Scheduler.mkTag 7 "Tag7" "Gateway9") (initial_state Example.steady_replies)).
  - discriminate.
  - reflexivity.
Defined.

(** ** The readers and the values of a register *)

Section ReaderFacts.
Import Modbus Alerts Scheduler Spec Props.
Variable st : Settings.

Lemma modbusReaders_fold (n : string) (gws : list Gateway) (acc : gmap string ModbusReader) :
  fold_left
    (fun readers gw =>
       <[name gw := mkReader (ip gw) (modbus_retries st) (modbus_retryDelay st)]> readers)
    gws acc !! n =
  match last (filter (fun gw => name gw = n) gws) with
  | Some gw => Some (mkReader (ip gw) (modbus_retries st) (modbus_retryDelay st))
  | None => acc !! n
  end.
Proof.
  revert acc. induction gws as [|gw rest IH]; intros acc; [reflexivity|].
  cbn [fold_left]. rewrite IH, filter_cons.
  destruct (decide (name gw = n)) as [Hn|Hn].
  - destruct (filter (fun gw0 => name gw0 = n) rest) as [|g l] eqn:Ef.
    + cbn. rewrite <- Hn, lookup_insert_eq. reflexivity.
    + change (last (gw :: g :: l)) with (last (g :: l)).
      destruct (last (g :: l)) eqn:El; [reflexivity|].
      apply last_None in El. discriminate.
  - destruct (last (filter (fun gw0 => name gw0 = n) rest)); [reflexivity|].
    apply lookup_insert_ne. exact Hn.
Qed.

Lemma cfgval_eqb_eq (a b : cfgval) : cfgval_eqb a b = true <-> a = b.
Proof.
  destruct a as [n|x], b as [m|y]; cbn; split; try discriminate.
  - intros H. apply Z.eqb_eq in H. congruence.
  - intros [= ->]. apply Z.eqb_refl.
  - intros H. apply String.eqb_eq in H. congruence.
  - intros [= ->]. apply String.eqb_refl.
Qed.

#[global] Instance keeps_cache_inv_preorder : PreOrder keeps_cache_inv.
Proof. split; unfold keeps_cache_inv; [intros s H; exact H | intros s1 s2 s3 H1 H2 H; auto]. Qed.

Lemma cache_same_keeps (s s' : state) : cache_same s s' -> keeps_cache_inv s s'.
Proof. intros [Hk Ht] Hinv key text. rewrite Hk, Ht. apply Hinv. Qed.

Lemma set_ascii_cache_keeps (key text : string) (t : float) (s : state) :
  text <> ""%string -> keeps_cache_inv s (set_ascii_cache key text t s).
Proof.
  intros Hne Hinv k v. unfold set_ascii_cache. cbn [lastKnownValues lastReadTime].
  destruct (decide (key = k)) as [->|Hk].
  - rewrite !lookup_insert_eq. intros [= <-]. split; [exact Hne | eauto].
  - rewrite !lookup_insert_ne by exact Hk. apply Hinv.
Qed.

(** Reading a register keeps the text cache free of empty texts. *)
Lemma read_value_keeps_cache (t : float) (tag : TagInfo) (key : string)
    (config : gmap string cfgval) :
  respects keeps_cache_inv (read_value st t tag key config).
Proof.
  set (R := keeps_cache_inv).
  assert (Hstore : forall (A : Type) (m : M A),
            respects (store_step io_event) m -> respects R m).
  { intros A m Hm. eapply respects_weaken; [|exact Hm].
    intros s s' [(Hk & Ht & _) _]. apply cache_same_keeps. split; assumption. }
  unfold read_value.
  apply (respects_bind R); [apply (respects_lift R)|]. intros regAddr.
  apply (respects_bind R); [apply (respects_lift R)|]. intros rd.
  destruct (cfgval_eqb _ (CStr "float")).
  - apply (respects_bind R); [|intros; apply (respects_ret R)].
    apply Hstore. apply ReadFloat_step; [intros; exact I | exact I].
  - destruct (cfgval_eqb _ (CStr "ascii")); [|apply (respects_ret R)].
    unfold read_cached_ascii.
    apply (respects_bind R); [apply (respects_gets R)|]. intros due.
    apply (respects_bind R); [|intros; apply (respects_gets R)].
    destruct due; [|apply (respects_ret R)].
    apply (respects_bind R); [apply (respects_lift R)|]. intros len.
    apply (respects_bind R).
    + apply Hstore. apply ReadAscii_step; [intros; exact I | exact I | exact I].
    + intros [v|]; [|apply (respects_ret R)].
      destruct (String.eqb v "") eqn:Ev; [apply (respects_ret R)|].
      apply respects_modify. intros s. apply set_ascii_cache_keeps.
      apply String.eqb_neq. exact Ev.
Qed.

Lemma cycles_keep_cache (starts : list float) :
  respects keeps_cache_inv (cycles st starts).
Proof.
  set (R := keeps_cache_inv).
  assert (Hsame : forall f : state -> state,
            (forall s, cache_same s (f s)) -> respects R (modify f)).
  { intros f Hf. apply respects_modify. intros s. apply cache_same_keeps, Hf. }
  induction starts as [|t rest IH]; cbn [cycles]; [apply (respects_ret R)|].
  apply (respects_bind R); [|intros _; exact IH].
  unfold cycle. apply (respects_bind R).
  - intros s res s' [= <- <-]. apply cache_same_keeps. split; reflexivity.
  - intros l. apply (respects_bind R).
    + induction (powertags st) as [|tag tags IHt]; cbn [process_tags];
        [apply (respects_ret R)|].
      apply (respects_bind R); [|intros _; exact IHt].
      unfold process_tag. apply (respects_bind R).
      * generalize (<["Timestamp"%string := PyFloat t]>
                      ({["Tag"%string := PyStr (tagName tag)]} : row)).
        induction (registerMap st) as [|[key config] regs IHr]; intros row0;
          cbn [read_all]; [apply (respects_ret R)|].
        apply (respects_bind R); [apply read_value_keeps_cache | intros; apply IHr].
      * intros r. apply (respects_bind R).
        -- unfold store. apply (respects_bind R); [|intros _];
             (apply Hsame; intros s; split; reflexivity).
        -- intros _. unfold log_and_alert.
           apply (respects_bind R); [apply Hsame; intros s; split; reflexivity|]. intros _.
           apply (respects_bind R); [apply Hsame; intros s; split; reflexivity|]. intros _.
           apply (respects_bind R); [apply (respects_lift R)|]. intros alerts.
           apply (respects_bind R); [apply (respects_gets R)|]. intros over.
           destruct alerts; [apply (respects_ret R)|].
           destruct over; [|apply (respects_ret R)].
           apply (respects_bind R); [|intros _];
             (apply Hsame; intros s; split; reflexivity).
    + intros _. unfold publish. apply (respects_bind R); [|intros _];
        (apply Hsame; intros s; split; reflexivity).
Qed.

End ReaderFacts.

(** X14. There is one reader for each gateway name, that of the last gateway
    configured under the name, with the configured retries and delay; a name
    no gateway bears has no reader. *)
Theorem reader_of_last_gateway (st : Scheduler.Settings) (n : string) :
  Scheduler.modbusReaders st !! n =
    (fun gw => Modbus.mkReader (Scheduler.ip gw) (Scheduler.modbus_retries st)
                 (Scheduler.modbus_retryDelay st)) <$>
    last (filter (fun gw => Scheduler.name gw = n) (Scheduler.gateways st)).
Proof.
  unfold Scheduler.modbusReaders. rewrite modbusReaders_fold.
  destruct (last _); reflexivity.
Qed.

(** X15. The text cache never holds an empty text and holds a decode time for
    every text: [Run] keeps this, whether it ends on an exception or not. *)
Theorem Run_keeps_cache_invariant (st : Scheduler.Settings) (starts : list float)
    (s : state) :
  Props.cache_inv s -> Props.cache_inv (snd (Scheduler.Run st starts s)).
Proof.
  unfold Scheduler.Run, catch.
  destruct (Scheduler.cycles st starts s) as [[[]|e] s1] eqn:E;
    apply cycles_keep_cache in E; exact E.
Qed.

Lemma Run_keeps_cache_invariant_witness :
  Props.cache_inv (initial_state Example.steady_replies) /\
  Props.cache_inv
    (snd (Scheduler.Run Example.settings [PyFloat.of_Z 1000]
            (initial_state Example.steady_replies))).
Proof.
  assert (H : Props.cache_inv (initial_state Example.steady_replies)).
  { intros key text Hl. cbn in Hl. rewrite lookup_empty in Hl. discriminate Hl. }
  split; [exact H|].
  apply (Run_keeps_cache_invariant Example.settings [PyFloat.of_Z 1000]
           (initial_state Example.steady_replies) H).
Defined.

(** X16. The value read for a register follows its encoding: a float or
    [None] for a float register; for a text register a string that is never
    empty and never [None] (the cached text or ["Unknown"]), given a cache
    without empty texts; and [None], without any read, for an encoding that is
    neither. *)
Theorem read_value_follows_encoding (st : Scheduler.Settings) (t : float)
    (tag : Scheduler.TagInfo) (key : string) (config : gmap string cfgval)
    (s s' : state) (v : pyval) :
  Props.cache_inv s ->
  Scheduler.read_value st t tag key config s = (Ok v, s') ->
  (default (CStr "float") (config !! "type"%string) = CStr "float" ->
   v = PyNone \/ exists f, v = PyFloat f) /\
  (default (CStr "float") (config !! "type"%string) = CStr "ascii" ->
   exists text, v = PyStr text /\ text <> ""%string) /\
  (default (CStr "float") (config !! "type"%string) <> CStr "float" ->
   default (CStr "float") (config !! "type"%string) <> CStr "ascii" ->
   v = PyNone /\ s' = s).
Proof.
  intros Hinv Hrun.
  pose proof (read_value_keeps_cache st t tag key config s _ s' Hrun Hinv) as Hinv'.
  unfold Scheduler.read_value in Hrun.
  set (ty := default (CStr "float") (config !! "type"%string)) in *.
  apply bind_inv in Hrun as [(regAddr & s1 & Hl1 & Hrun) | (e & _ & He)]; [|discriminate].
  injection Hl1 as _ <-.
  apply bind_inv in Hrun as [(rd & s1 & Hl2 & Hrun) | (e & _ & He)]; [|discriminate].
  injection Hl2 as _ <-.
  destruct (cfgval_eqb ty (CStr "float")) eqn:Ef.
  - apply cfgval_eqb_eq in Ef.
    apply bind_inv in Hrun as [(val & s1 & _ & Hret) | (e & _ & He)]; [|discriminate].
    injection Hret as <- <-.
    split; [|split]; [| rewrite Ef; discriminate | congruence].
    intros _. destruct val; eauto.
  - assert (Hnf : ty <> CStr "float").
    { intros H. apply cfgval_eqb_eq in H. congruence. }
    destruct (cfgval_eqb ty (CStr "ascii")) eqn:Ea.
    + apply cfgval_eqb_eq in Ea. split; [congruence|]. split; [|congruence].
      intros _. unfold Scheduler.read_cached_ascii in Hrun.
      apply bind_inv in Hrun as [(due & s1 & _ & Hrun) | (e & _ & He)]; [|discriminate].
      apply bind_inv in Hrun as [([] & s2 & _ & Hget) | (e & _ & He)]; [|discriminate].
      injection Hget as <- <-.
      destruct (lastKnownValues s2 !! _) as [text|] eqn:El; cbn [default].
      * exists text. split; [reflexivity|]. apply (Hinv' _ _ El).
      * exists "Unknown"%string. split; [reflexivity | discriminate].
    + injection Hrun as <- <-. split; [congruence|]. split; [|intros; split; reflexivity].
      intros H. apply cfgval_eqb_eq in H. congruence.
Qed.

Lemma read_value_follows_encoding_witness :
  exists text,
    PyStr "AB" = PyStr text /\ text <> ""%string.
Proof.
  apply (read_value_follows_encoding
           (Scheduler.mkSettings (PyFloat.of_Z 300) (PyFloat.of_Z 600) Example.thresholds
              [Scheduler.mkGateway "192.168.1.10" "Gateway1"] 3 (PyFloat.of_Z 0)
              [Example.tag1] [("name"%string, Example.name_register)])
           (PyFloat.of_Z 1000) Example.tag1 "name" Example.name_register
           (initial_state [RespOk [16706]])
           (snd (Scheduler.read_value
                   (Scheduler.mkSettings (PyFloat.of_Z 300) (PyFloat.of_Z 600)
                      Example.thresholds
                      [Scheduler.mkGateway "192.168.1.10" "Gateway1"] 3 (PyFloat.of_Z 0)
                      [Example.tag1] [("name"%string, Example.name_register)])
                   (PyFloat.of_Z 1000) Example.tag1 "name" Example.name_register
                   (initial_state [RespOk [16706]])))
           (PyStr "AB")).
  - intros key text Hl. cbn in Hl. rewrite lookup_empty in Hl. discriminate Hl.
  - apply run_ok_eq. vm_compute. reflexivity.
  - reflexivity.
Defined.



(** ** The alert times and the end of the loop *)

Section LoopFacts.
Import Modbus Alerts Scheduler Spec Props.
Variable st : Settings.

#[global] Instance alert_times_moved_preorder (names : list string) (times : list float) :
  PreOrder (alert_times_moved names times).
Proof.
  split.
  - intros s n. left. reflexivity.
  - intros s1 s2 s3 H1 H2 n.
    destruct (H2 n) as [E2 | R2]; [|right; exact R2].
    rewrite E2. apply H1.
Qed.





End LoopFacts.


(** ** The notifier *)

Section NotifierFacts.
Import Notifier.

Lemma execute_records (m : message) (w : world) :
  import_ok (snd (execute m w)) = import_ok w /\
  executed (snd (execute m w)) = executed w ++ [m].
Proof. unfold execute. destruct (replies w) as [|r rest]; split; reflexivity. Qed.

End NotifierFacts.

(** X20. [SendEmbed] never raises.  A disabled notifier returns [False] and
    contacts nothing.  An enabled one returns [None] and executes at most one
    webhook: exactly one, carrying the title, description, colour and fields
    of the data with their defaults, when the library can be imported, the
    colour is within [0..16777215] and every field has its name and value;
    none when the import fails, the colour is refused or a field lacks a key,
    the exception being swallowed. *)
Theorem SendEmbed_executes_at_most_once (self : Notifier.PowerTagDiscordNotifier)
    (embedData : Notifier.EmbedData) (w : Notifier.world) :
  exists ret w',
    Notifier.SendEmbed self embedData w = (Notifier.Done ret, w') /\
    (Notifier.enabled self = false -> ret = Some false /\ w' = w) /\
    (Notifier.enabled self = true ->
     ret = None /\
     if Notifier.import_ok w &&
        (0 <=? default 3447003 (Notifier.e_color embedData)) &&
        (default 3447003 (Notifier.e_color embedData) <? 16777216)
     then
       match Notifier.fields_args (default [] (Notifier.e_fields embedData)) with
       | Notifier.Done fields =>
           Notifier.executed w' =
             Notifier.executed w ++
             [Notifier.EmbedMessage (default ""%string (Notifier.e_title embedData))
                (default ""%string (Notifier.e_description embedData))
                (default 3447003 (Notifier.e_color embedData)) fields]
       | Notifier.Failed _ => w' = w
       end
     else w' = w).
Proof.
  unfold Notifier.SendEmbed. destruct (Notifier.enabled self); cbn [negb].
  - unfold Notifier.send_body, Notifier.import, Notifier.embed_color.
    destruct (Notifier.import_ok w); cbn [andb].
    + destruct ((0 <=? default 3447003 (Notifier.e_color embedData)) &&
                (default 3447003 (Notifier.e_color embedData) <? 16777216)) eqn:Hc.
      * destruct (Notifier.fields_args _) as [fields|e].
        -- pose proof (execute_records
                         (Notifier.EmbedMessage
                            (default ""%string (Notifier.e_title embedData))
                            (default ""%string (Notifier.e_description embedData))
                            (default 3447003 (Notifier.e_color embedData)) fields) w)
             as [_ Hx].
           destruct (Notifier.execute _ w) as [[r|e] w'] eqn:E; cbn [snd] in Hx;
             eexists None, w'; (split; [reflexivity|]); split; try discriminate;
             intros _; split; [reflexivity | exact Hx | reflexivity | exact Hx].
        -- eexists None, w. split; [reflexivity|]. split; [discriminate|].
           intros _. split; reflexivity.
      * eexists None, w. split; [reflexivity|]. split; [discriminate|].
        intros _. split; reflexivity.
    + eexists None, w. split; [reflexivity|]. split; [discriminate|].
      intros _. split; reflexivity.
  - eexists (Some false), w. split; [reflexivity|].
    split; [intros _; split; reflexivity | discriminate].
Qed.

(** X21. The notifier is enabled exactly when a webhook URL is given, the
    library can be imported and the first message is answered with status
    200; without a URL, or without the library, nothing is executed. *)
Theorem notifier_enabled_iff_accepted (url : string) (w : Notifier.world) :
  Notifier.webhookUrl (fst (Notifier.Initialize url w)) = url /\
  (Notifier.enabled (fst (Notifier.Initialize url w)) = true <->
   url <> ""%string /\ Notifier.import_ok w = true /\
   exists rest, Notifier.replies w = Notifier.HookStatus 200 :: rest) /\
  (url = ""%string \/ Notifier.import_ok w = false ->
   snd (Notifier.Initialize url w) = w).
Proof.
  unfold Notifier.Initialize, Notifier.import.
  destruct (String.eqb_spec url "") as [Hu|Hu].
  - cbn. split; [reflexivity|]. split; [|reflexivity].
    split; [discriminate | intros [H _]; contradiction].
  - destruct (Notifier.import_ok w) eqn:Hi.
    + unfold Notifier.execute.
      destruct (Notifier.replies w) as [|[| |code] rest] eqn:Er; cbn;
        (split; [reflexivity|]); (split; [|intros [H|H]; [contradiction | discriminate]]);
        try (split; [discriminate | intros (_ & _ & rest' & H); discriminate H]).
      split.
      * intros H. apply Z.eqb_eq in H. subst code. eauto.
      * intros (_ & _ & rest' & [= -> _]). reflexivity.
    + cbn. split; [reflexivity|]. split; [|reflexivity].
      split; [discriminate | intros (_ & H & _); discriminate H].
Qed.

(** ** The sessions *)

Section StartupFacts.
Import Scheduler Startup.

Lemma connect_all_reachable (reachable : string -> bool) (gws : list Gateway) :
  Forall (fun gw => reachable (ip gw) = true) gws ->
  connect_all reachable gws = (map (fun gw => Connect (ip gw)) gws, true).
Proof.
  induction 1 as [|gw rest Hg _ IH]; [reflexivity|].
  cbn [connect_all map]. rewrite Hg, IH. reflexivity.
Qed.

Lemma connect_all_first_failure (reachable : string -> bool)
    (pre : list Gateway) (gw : Gateway) (post : list Gateway) :
  Forall (fun g => reachable (ip g) = true) pre ->
  reachable (ip gw) = false ->
  connect_all reachable (pre ++ gw :: post) =
    (map (fun g => Connect (ip g)) (pre ++ [gw]), false).
Proof.
  intros Hpre Hgw. induction Hpre as [|g rest Hg _ IH].
  - cbn. rewrite Hgw. reflexivity.
  - cbn [app connect_all map]. rewrite Hg, IH. reflexivity.
Qed.

End StartupFacts.

(** X22. A gateway that does not connect ends [Run] before the loop: the
    gateways before it have been connected and are left open, those after it
    are never contacted, no cycle runs and the state is untouched. *)
Theorem Run_aborts_on_failed_connection (st : Scheduler.Settings)
    (reachable : string -> bool) (pollInterval : float) (clock : list (float * float))
    (s : state)
    (pre : list Scheduler.Gateway) (gw : Scheduler.Gateway) (post : list Scheduler.Gateway) :
  Scheduler.gateways st = pre ++ gw :: post ->
  Forall (fun g => reachable (Scheduler.ip g) = true) pre ->
  reachable (Scheduler.ip gw) = false ->
  Startup.Run st reachable pollInterval clock s =
    (Startup.ConnectionFailed,
     map (fun g => Startup.Connect (Scheduler.ip g)) (pre ++ [gw]), s).
Proof.
  intros Hg Hpre Hgw. unfold Startup.Run.
  rewrite Hg, (connect_all_first_failure reachable pre gw post Hpre Hgw). reflexivity.
Qed.

Lemma Run_aborts_on_failed_connection_witness :
  Startup.Run Example.settings (fun _ => false) (PyFloat.of_Z 80)
    [(PyFloat.of_Z 1000, PyFloat.of_Z 1001)]
    (initial_state Example.steady_replies) =
  (Startup.ConnectionFailed, [Startup.Connect "192.168.1.10"],
   initial_state Example.steady_replies).
Proof.
  apply (Run_aborts_on_failed_connection Example.settings (fun _ => false)
           (PyFloat.of_Z 80) [(PyFloat.of_Z 1000, PyFloat.of_Z 1001)]
           (initial_state Example.steady_replies)
           [] (Scheduler.mkGateway "192.168.1.10" "Gateway1") []).
  - reflexivity.
  - constructor.
  - reflexivity.
Defined.

(** X23. When the loop ends on an exception, [Run] closes one session only,
    that of the last gateway configured; the sessions of the other gateways
    stay open, and with no gateway at all there is no client to close. *)
Theorem Run_closes_last_session_only (st : Scheduler.Settings)
    (reachable : string -> bool) (pollInterval : float) (clock : list (float * float))
    (s s' : state) (e : exn) :
  Forall (fun g => reachable (Scheduler.ip g) = true) (Scheduler.gateways st) ->
  Startup.turns st pollInterval clock s = (Raise e, s') ->
  Startup.Run st reachable pollInterval clock s =
    match last (Scheduler.gateways st) with
    | Some gw =>
        (Startup.Stopped,
         map (fun g => Startup.Connect (Scheduler.ip g)) (Scheduler.gateways st) ++
         [Startup.Close (Scheduler.ip gw)], s')
    | None => (Startup.StoppedUnbound, [], s')
    end.
Proof.
  intros Hall Hrun. unfold Startup.Run.
  rewrite (connect_all_reachable reachable _ Hall), Hrun.
  destruct (last (Scheduler.gateways st)) as [gw|] eqn:El; [reflexivity|].
  apply last_None in El. rewrite El. reflexivity.
Qed.

Lemma Run_closes_last_session_only_witness :
  exists s',
    Startup.Run
      (Scheduler.mkSettings (PyFloat.of_Z 300) (PyFloat.of_Z 600) Example.thresholds
         [Scheduler.mkGateway "192.168.1.10" "Gateway1";
          Scheduler.mkGateway "192.168.1.11" "Gateway2"] 3 (PyFloat.of_Z 0)
         [Example.tag1] [])
      (fun _ => true) (PyFloat.of_Z 80) [(PyFloat.of_Z 1000, PyFloat.of_Z 1001)]
      (initial_state []) =
    (Startup.Stopped,
     [Startup.Connect "192.168.1.10"; Startup.Connect "192.168.1.11";
      Startup.Close "192.168.1.11"], s').
Proof.
  set (st := Scheduler.mkSettings (PyFloat.of_Z 300) (PyFloat.of_Z 600) Example.thresholds
               [Scheduler.mkGateway "192.168.1.10" "Gateway1";
                Scheduler.mkGateway "192.168.1.11" "Gateway2"] 3 (PyFloat.of_Z 0)
               [Example.tag1] []).
  destruct (Startup.turns st (PyFloat.of_Z 80) [(PyFloat.of_Z 1000, PyFloat.of_Z 1001)]
              (initial_state [])) as [r s'] eqn:E.
  assert (Hr : r = Raise TypeError).
  { apply (f_equal fst) in E. vm_compute in E. congruence. }
  subst r. exists s'.
  apply (Run_closes_last_session_only st (fun _ => true) (PyFloat.of_Z 80)
           [(PyFloat.of_Z 1000, PyFloat.of_Z 1001)] (initial_state []) s' TypeError).
  - repeat constructor.
  - exact E.
Defined.

(** ** The end of the loop *)

Section FailStopFacts.
Import Modbus Scheduler Startup Spec.


End FailStopFacts.



(** ** The float read and the alert rule, where they hold *)

(** X24. When the read returns two words or more, each a 16-bit value,
    [ReadFloat] returns the binary32 number whose bits are word 0 (high half)
    and word 1 (low half), rounded to two decimals; the words after the
    second are ignored. *)
Theorem ReadFloat_decodes_two_words (self : Modbus.ModbusReader) (address : cfgval)
    (deviceId : Z) (len : cfgval) (s s1 : state) (w0 w1 : Z) (rest : list Z) :
  0 <= w0 <= 65535 ->
  0 <= w1 <= 65535 ->
  Modbus.ReadRegisters self address deviceId len "input" s = (Ok (Some (w0 :: w1 :: rest)), s1) ->
  Modbus.ReadFloat self address deviceId len s =
    (Ok (Some (PyFloat.round2 (PyFloat.of_bits32 (Spec.float_bits w0 w1)))), s1).
Proof.
  intros H0 H1 Hread.
  rewrite (ReadFloat_decode self address deviceId len s _ s1 Hread).
  rewrite (decode_float_two_words w0 w1 rest H0 H1). reflexivity.
Qed.

Lemma ReadFloat_decodes_two_words_witness :
  Modbus.ReadFloat Example.reader (CInt 10) 1 (CInt 2) (initial_state [RespOk [17256; 0]]) =
  (Ok (Some (PyFloat.round2 (PyFloat.of_bits32 (Spec.float_bits 17256 0)))),
   snd (Modbus.ReadRegisters Example.reader (CInt 10) 1 (CInt 2) "input"
          (initial_state [RespOk [17256; 0]]))).
Proof.
  apply (ReadFloat_decodes_two_words Example.reader (CInt 10) 1 (CInt 2)
           (initial_state [RespOk [17256; 0]]) _ 17256 0 []).
  - lia.
  - lia.
  - reflexivity.
Defined.

(** X25. On a row whose voltage and current are each [None] or a float other
    than zero, [CheckAlerts] returns what the rule says: a high-voltage alert
    when the voltage is above the high bound, else a low-voltage alert when
    it is below the low bound; a high-current alert when the current is above
    its bound; nothing for [None]; the bounds are exclusive. *)
Theorem CheckAlerts_on_nonzero_readings (th : Alerts.Thresholds) (readings : row)
    (voltage current : option float) :
  readings !! "voltage"%string = Some (Spec.of_option voltage) ->
  readings !! "current"%string = Some (Spec.of_option current) ->
  (forall v, voltage = Some v -> PyFloat.truthy v = true) ->
  (forall c, current = Some c -> PyFloat.truthy c = true) ->
  Alerts.CheckAlerts th readings = Ok (Spec.expected_alerts th voltage current) /\
  (voltage = Some (Alerts.voltage_high th) ->
   Spec.expected_alerts th voltage None =
     if PyFloat.ltb (Alerts.voltage_high th) (Alerts.voltage_low th)
     then [LOW_VOLTAGE (PyFloat (Alerts.voltage_high th))] else []).
Proof.
  intros Hv Hc Tv Tc. split; [apply CheckAlerts_expected; assumption|].
  intros ->. unfold Spec.expected_alerts. rewrite gtb_irrefl, app_nil_r. reflexivity.
Qed.

Lemma CheckAlerts_on_nonzero_readings_witness :
  Alerts.CheckAlerts Example.thresholds Example.high_voltage_row =
    Ok (Spec.expected_alerts Example.thresholds (Some (PyFloat.of_Z 260)) None).
Proof.
  apply (CheckAlerts_on_nonzero_readings Example.thresholds Example.high_voltage_row
           (Some (PyFloat.of_Z 260)) None).
  - reflexivity.
  - reflexivity.
  - intros v [= <-]. reflexivity.
  - intros c H. discriminate H.
Defined.
